(** * The context-aware suggestion pipeline of auto-cli-suggestion

    A shallow embedding of the cache manager (cache-manager.js), the
    context manager (context-manager.js), the Gemini service
    (gemini-service-optimized.js) with its key-rotating revision and its
    context-aware sibling, and the line editor of the terminal
    (cost-optimized-terminal.js), followed by the properties of the
    suggestion cache, the usage governor, the prompt builder, the
    credential-rotating dispatcher, runs of requests and the editor.

    Conventions.  JavaScript strings are [string]s over ASCII; a result
    that is [null] or [undefined] is [None], and a value read out of JSON
    keeps the two apart ([JS.Json]); a thrown exception is the [Throw]
    branch of [Completion].  [Date.now()] readings are integers ([Z],
    milliseconds) handed to each operation by its caller, and
    [new Date().toDateString()] is a [string] handed in the same way.
    Counters are natural numbers; money and rates are IEEE doubles
    ([float]), which is what a JavaScript number is. *)

From Stdlib Require Import List String Ascii ZArith Lia Bool Arith Permutation.
From Stdlib Require Import DecimalString Floats.
From Equations Require Import Equations.
Import ListNotations.

Set Warnings "-inexact-float".
Open Scope string_scope.
Open Scope nat_scope.

(** ** Host-language primitives *)

Module JS.

(** Outcome of evaluating a piece of code that may throw. *)
Inductive Error : Type :=
| ReferenceError (name : string)
| TypeError (what : string)
| PlainError (message : string).

Inductive Completion (A : Type) : Type :=
| Return (a : A)
| Throw (e : Error).
Arguments Return {A} a.
Arguments Throw {A} e.

Definition is_whitespace (c : ascii) : bool :=
  let n := nat_of_ascii c in
  (n =? 32) || ((9 <=? n) && (n <=? 13)).

Fixpoint trimStart (s : string) : string :=
  match s with
  | EmptyString => EmptyString
  | String c r => if is_whitespace c then trimStart r else s
  end.

Fixpoint trimEnd (s : string) : string :=
  match s with
  | EmptyString => EmptyString
  | String c r =>
      match trimEnd r with
      | EmptyString => if is_whitespace c then EmptyString else String c EmptyString
      | r' => String c r'
      end
  end.

(** [String.prototype.trim] *)
Definition trim (s : string) : string := trimEnd (trimStart s).

Definition lower_char (c : ascii) : ascii :=
  let n := nat_of_ascii c in
  if (65 <=? n) && (n <=? 90) then ascii_of_nat (n + 32) else c.

(** [String.prototype.toLowerCase] on ASCII text *)
Fixpoint toLowerCase (s : string) : string :=
  match s with
  | EmptyString => EmptyString
  | String c r => String (lower_char c) (toLowerCase r)
  end.

(** [s.startsWith(p)] *)
Definition startsWith (s p : string) : bool := String.prefix p s.

(** [s.includes(sub)] *)
Fixpoint includes (s sub : string) : bool :=
  String.prefix sub s ||
  match s with
  | EmptyString => false
  | String _ r => includes r sub
  end.

(** [s.substring(0, n)] *)
Definition substring0 (n : nat) (s : string) : string := String.substring 0 n s.

(** Decimal rendering of a counter inside a template literal. *)
Definition show_nat (n : nat) : string := NilZero.string_of_uint (Nat.to_uint n).

(** A value read out of parsed JSON, as far as a template literal shows
    it: a member that is absent reads [undefined]; [null] and a string
    are kept apart; any other value (a number, a boolean, an array, an
    object) is given by its rendering. *)
Inductive Json : Type :=
| Absent
| Null
| Text (s : string)
| Other (rendering : string).

(** [`${v}`] *)
Definition show (v : Json) : string :=
  match v with
  | Absent => "undefined"
  | Null => "null"
  | Text s => s
  | Other rendering => rendering
  end.

End JS.

(** ** A [Map] with string keys

    A JavaScript [Map] iterates in insertion order; [set] on a key that is
    present replaces the value and keeps the key's position; [delete]
    removes the key.  The list is kept in iteration order. *)

Module JSMap.
Section WithValue.
Context {V : Type}.

Definition t := list (string * V).

Definition size (m : t) : nat := List.length m.

Fixpoint get (k : string) (m : t) : option V :=
  match m with
  | [] => None
  | (k', v) :: r => if String.eqb k k' then Some v else get k r
  end.

Definition has (k : string) (m : t) : bool :=
  match get k m with
  | Some _ => true
  | None => false
  end.

Fixpoint set (k : string) (v : V) (m : t) : t :=
  match m with
  | [] => [(k, v)]
  | (k', v') :: r =>
      if String.eqb k k' then (k, v) :: r else (k', v') :: set k v r
  end.

Fixpoint delete (k : string) (m : t) : t :=
  match m with
  | [] => []
  | (k', v') :: r =>
      if String.eqb k k' then delete k r else (k', v') :: delete k r
  end.

(** [m.keys().next().value]: the first key in iteration order,
    [undefined] on an empty map. *)
Definition first_key (m : t) : option string :=
  match m with
  | [] => None
  | (k, _) :: _ => Some k
  end.

Definition keys (m : t) : list string := List.map fst m.

(** A [Map] holds each key once. *)
Fixpoint wfb (m : t) : bool :=
  match m with
  | [] => true
  | (k, _) :: r => negb (has k r) && wfb r
  end.

Definition wf (m : t) : Prop := wfb m = true.

End WithValue.
Arguments t V : clear implicits.
End JSMap.

(** ** A plain object used as a dictionary

    The own enumerable properties of an ordinary object, in the order in
    which [Object.entries], [for ... in] and [JSON.stringify] visit them:
    the array indices (canonical numerals of 0 to 2^32 - 2) in ascending
    order, then the other keys in the order of their creation. *)

Module JSObject.
Section WithValue.
Context {V : Type}.

Definition t := list (string * V).

Definition digit (c : ascii) : option N :=
  let n := N_of_ascii c in
  if ((48 <=? n) && (n <=? 57))%N then Some (n - 48)%N else None.

Fixpoint numeral (s : string) (acc : N) : option N :=
  match s with
  | EmptyString => Some acc
  | String c r =>
      match digit c with
      | Some d => numeral r (10 * acc + d)%N
      | None => None
      end
  end.

(** The index a key denotes, if it is the canonical numeral of one: no
    sign, no leading zero, at most 2^32 - 2. *)
Definition array_index (k : string) : option N :=
  match k with
  | EmptyString => None
  | String c r =>
      if Ascii.eqb c "0"
      then match r with
           | EmptyString => Some 0%N
           | String _ _ => None
           end
      else match numeral k 0 with
           | Some n => if (n <=? 4294967294)%N then Some n else None
           | None => None
           end
  end.

(** A new index goes behind the indices that are not greater (two keys
    never denote the same index). *)
Fixpoint insert_index (n : N) (k : string) (v : V) (o : t) : t :=
  match o with
  | [] => [(k, v)]
  | (k', v') :: r =>
      match array_index k' with
      | Some n' =>
          if (n' <=? n)%N then (k', v') :: insert_index n k v r else (k, v) :: o
      | None => (k, v) :: o
      end
  end.

(** A property the object does not have yet. *)
Definition create (k : string) (v : V) (o : t) : t :=
  match array_index k with
  | Some n => insert_index n k v o
  | None => (o ++ [(k, v)])%list
  end.

(** [CreateDataProperty]: the value of a property the object has is
    replaced where it stands. *)
Definition define (k : string) (v : V) (o : t) : t :=
  if JSMap.has k o then JSMap.set k v o else create k v o.

(** [o[k] = v] on an object made by [{}]: the key [__proto__] reaches the
    setter inherited from [Object.prototype], which changes the
    prototype (of an object value) or does nothing, and leaves the own
    properties as they are. *)
Definition assign (k : string) (v : V) (o : t) : t :=
  if String.eqb k "__proto__" then o else define k v o.

(** [JSON.parse] of the text of an object, given its members in textual
    order; here [__proto__] is a key like any other. *)
Definition parse (members : list (string * V)) : t :=
  fold_left (fun o kv => define (fst kv) (snd kv) o) members [].



End WithValue.
Arguments t V : clear implicits.
End JSObject.

(** ** config.js *)

Module Config.

Record t : Type := {
  ENABLE_SUGGESTIONS : bool;
  MIN_INPUT_LENGTH : nat;
  MAX_SUGGESTION_LENGTH : nat;
  MAX_DAILY_REQUESTS : nat;
  REQUEST_COOLDOWN : Z;
  ENABLE_CACHE : bool;
  CACHE_DURATION : Z;
  MAX_CACHE_SIZE : nat
}.

(** The values shipped in config.js. *)
Definition shipped : t := {|
  ENABLE_SUGGESTIONS := true;
  MIN_INPUT_LENGTH := 3;
  MAX_SUGGESTION_LENGTH := 30;
  MAX_DAILY_REQUESTS := 100;
  REQUEST_COOLDOWN := 5000;
  ENABLE_CACHE := true;
  CACHE_DURATION := 3600000;
  MAX_CACHE_SIZE := 1000
|}.

End Config.

(** ** Numbers rendered with [Number.prototype.toFixed]

    [toFixed f x] follows ECMA-262: NaN prints as such; a magnitude of
    1e21 or more falls back to [Number::toString] (the infinities print
    by name, finite ones in exponent notation, which is not modelled:
    [None]); otherwise the integer [n] closest to [x * 10^f] is taken,
    the larger one on a tie, and written with [f] fractional digits. *)

Module Num.

Definition of_nat (n : nat) : float :=
  PrimFloat.of_uint63 (Uint63.of_Z (Z.of_nat n)).

Fixpoint zeros (k : nat) : string :=
  match k with
  | O => EmptyString
  | S k' => String "0" (zeros k')
  end.

Definition show_N (n : N) : string := NilZero.string_of_uint (N.to_uint n).

Definition fixed_digits (f : nat) (n : N) : string :=
  let m := show_N n in
  let m := if String.length m <=? f then zeros (S f - String.length m) ++ m else m in
  let k := String.length m in
  if f =? 0 then m
  else String.substring 0 (k - f) m ++ "." ++ String.substring (k - f) f m.

(** The integer closest to [m * 2^e * 10^f], ties upwards. *)
Definition round_scaled (f : nat) (m : positive) (e : Z) : Z :=
  let p := (10 ^ Z.of_nat f)%Z in
  if (0 <=? e)%Z then (Zpos m * 2 ^ e * p)%Z
  else let d := (2 ^ (- e))%Z in ((2 * Zpos m * p + d) / (2 * d))%Z.

Definition at_least_1e21 (m : positive) (e : Z) : bool :=
  if (0 <=? e)%Z then (10 ^ 21 <=? Zpos m * 2 ^ e)%Z
  else (10 ^ 21 * 2 ^ (- e) <=? Zpos m)%Z.

Definition toFixed (f : nat) (x : float) : option string :=
  match Prim2SF x with
  | S754_nan => Some "NaN"
  | S754_infinity s => Some (if s then "-Infinity" else "Infinity")
  | S754_zero _ => Some (fixed_digits f 0)
  | S754_finite s m e =>
      if at_least_1e21 m e then None
      else Some ((if s then "-" else "") ++ fixed_digits f (Z.to_N (round_scaled f m e)))
  end.

(** A value that is either a number or a string. *)
Inductive Value : Type :=
| Number (x : float)
| Text (s : string).

(** Fixed notation: an optional minus sign, at least one digit, a point
    and exactly [f] more characters. *)
Definition fixed_notation (f : nat) (s : string) : Prop :=
  exists sign whole frac,
    s = sign ++ whole ++ "." ++ frac /\
    (sign = "" \/ sign = "-") /\
    1 <= String.length whole /\
    String.length frac = f.

(** The names [toFixed] gives to what is not a finite number. *)
Definition not_a_finite_number (s : string) : Prop :=
  s = "NaN" \/ s = "Infinity" \/ s = "-Infinity".

End Num.

(** ** cache-manager.js *)

Module CacheManager.

Record CacheEntry : Type := {
  suggestion : string;
  timestamp : Z
}.

Record UsageStats : Type := {
  totalRequests : nat;
  cachedHits : nat;
  dailyRequests : nat;
  lastReset : string;
  costEstimate : float
}.

(** The two files the manager reads and rewrites.  [None] is a file that
    is missing or does not parse; the cache file is given by the members
    of its JSON object in the order of the text.  [writable = false]
    makes every [fs.writeFile] fail, which the save methods catch and
    swallow. *)
Record Disk : Type := {
  cacheFile : option (JSMap.t CacheEntry);
  usageFile : option UsageStats;
  writable : bool
}.

(** The fields of a [CacheManager] object. *)
Record t : Type := {
  cache : JSMap.t CacheEntry;
  usageStats : UsageStats;
  lastRequestTime : Z
}.

(** What [getUsageStats] returns: the usage record spread out, plus the
    two derived fields. *)
Record Stats : Type := {
  stats_totalRequests : nat;
  stats_cachedHits : nat;
  stats_dailyRequests : nat;
  stats_lastReset : string;
  stats_costEstimate : float;
  cacheHitRate : option Num.Value;
  estimatedCost : option string
}.

Definition with_cache (c : JSMap.t CacheEntry) (cm : t) : t :=
  {| cache := c; usageStats := usageStats cm; lastRequestTime := lastRequestTime cm |}.

Definition with_usage (u : UsageStats) (cm : t) : t :=
  {| cache := cache cm; usageStats := u; lastRequestTime := lastRequestTime cm |}.

Definition fresh_usage (today : string) : UsageStats :=
  {| totalRequests := 0; cachedHits := 0; dailyRequests := 0;
     lastReset := today; costEstimate := 0%float |}.

(** The object literal [{}] filled by [cacheData[key] = value], entry
    by entry in the order of the map. *)
Definition to_object (entries : JSMap.t CacheEntry) : JSObject.t CacheEntry :=
  fold_left (fun o kv => JSObject.assign (fst kv) (snd kv) o) entries [].

Section WithConfig.
Variable cfg : Config.t.

Definition loadCache (now : Z) (d : Disk) (cm : t) : t :=
  match cacheFile d with
  | Some members =>
      let cacheData := JSObject.parse members in
      with_cache
        (fold_left
           (fun c kv =>
              if (now - timestamp (snd kv) <? Config.CACHE_DURATION cfg)%Z
              then JSMap.set (fst kv) (snd kv) c
              else c)
           cacheData (cache cm))
        cm
  | None => cm
  end.

Definition saveCache (cm : t) (d : Disk) : Disk :=
  if writable d
  then {| cacheFile := Some (to_object (cache cm));
          usageFile := usageFile d; writable := writable d |}
  else d.

Definition loadUsageStats (today : string) (d : Disk) (cm : t) : t :=
  match usageFile d with
  | Some u =>
      if negb (String.eqb (lastReset u) today)
      then with_usage
             {| totalRequests := totalRequests u; cachedHits := cachedHits u;
                dailyRequests := 0; lastReset := today;
                costEstimate := costEstimate u |} cm
      else with_usage u cm
  | None => cm
  end.

Definition saveUsageStats (cm : t) (d : Disk) : Disk :=
  if writable d
  then {| cacheFile := cacheFile d;
          usageFile := Some (usageStats cm); writable := writable d |}
  else d.

(** [new CacheManager()] *)
Definition create (now : Z) (today : string) (d : Disk) : t :=
  loadUsageStats today d
    (loadCache now d
       {| cache := []; usageStats := fresh_usage today; lastRequestTime := 0 |}).

Definition getCacheKey (input : string) : string :=
  JS.toLowerCase (JS.trim input).

Definition get (now : Z) (input : string) (cm : t) : option string * t :=
  if negb (Config.ENABLE_CACHE cfg) then (None, cm)
  else
    let key := getCacheKey input in
    match JSMap.get key (cache cm) with
    | Some cached =>
        if (now - timestamp cached <? Config.CACHE_DURATION cfg)%Z
        then
          let u := usageStats cm in
          (Some (suggestion cached),
           with_usage
             {| totalRequests := totalRequests u; cachedHits := S (cachedHits u);
                dailyRequests := dailyRequests u; lastReset := lastReset u;
                costEstimate := costEstimate u |} cm)
        else (None, cm)
    | None => (None, cm)
    end.

Definition set (now : Z) (input sugg : string) (cm : t) (d : Disk) : t * Disk :=
  if negb (Config.ENABLE_CACHE cfg) then (cm, d)
  else
    let key := getCacheKey input in
    let evicted :=
      if Config.MAX_CACHE_SIZE cfg <=? JSMap.size (cache cm)
      then match JSMap.first_key (cache cm) with
           | Some oldestKey => JSMap.delete oldestKey (cache cm)
           | None => cache cm
           end
      else cache cm in
    let cm' :=
      with_cache (JSMap.set key {| suggestion := sugg; timestamp := now |} evicted) cm in
    (cm', saveCache cm' d).

Definition canMakeRequest (now : Z) (cm : t) : bool :=
  if Config.MAX_DAILY_REQUESTS cfg <=? dailyRequests (usageStats cm) then false
  else if (now - lastRequestTime cm <? Config.REQUEST_COOLDOWN cfg)%Z then false
  else true.

Definition recordRequest (now : Z) (tokenCount : nat) (cm : t) (d : Disk) : t * Disk :=
  let u := usageStats cm in
  let inputCost := (Num.of_nat tokenCount * 0.000075 / 1000000)%float in
  let outputCost := (Num.of_nat tokenCount * 0.0003 / 1000000)%float in
  let cm' :=
    {| cache := cache cm;
       usageStats :=
         {| totalRequests := S (totalRequests u); cachedHits := cachedHits u;
            dailyRequests := S (dailyRequests u); lastReset := lastReset u;
            costEstimate := (costEstimate u + (inputCost + outputCost))%float |};
       lastRequestTime := now |} in
  (cm', saveUsageStats cm' d).

Definition getUsageStats (cm : t) : Stats :=
  let u := usageStats cm in
  {| stats_totalRequests := totalRequests u;
     stats_cachedHits := cachedHits u;
     stats_dailyRequests := dailyRequests u;
     stats_lastReset := lastReset u;
     stats_costEstimate := costEstimate u;
     cacheHitRate :=
       if 0 <? totalRequests u
       then option_map Num.Text
              (Num.toFixed 1
                 (Num.of_nat (cachedHits u) / Num.of_nat (totalRequests u) * 100)%float)
       else Some (Num.Number 0%float);
     estimatedCost := Num.toFixed 6 (costEstimate u) |}.

Definition clearCache (cm : t) (d : Disk) : t * Disk :=
  let cm' := with_cache [] cm in
  (cm', saveCache cm' d).

Definition resetUsageStats (today : string) (cm : t) (d : Disk) : t * Disk :=
  let cm' := with_usage (fresh_usage today) cm in
  (cm', saveUsageStats cm' d).

End WithConfig.
End CacheManager.

(** ** context-manager.js *)

Module ContextManager.

Record FileInfo : Type := {
  name : string;
  isDirectory : bool;
  size : nat
}.

(** [gitContext]: [{ isGitRepo: false }] or the full record of a
    repository. *)
Inductive GitContext : Type :=
| NoRepo
| Repo (hasChanges : bool) (changes : list string) (currentBranch : string).

(** [nodeContext]: [{ hasPackageJson: false }] or the fields read from
    package.json ([scripts] are the keys of its scripts object). *)
Inductive NodeContext : Type :=
| NoPackage
| Package (pkgName : JS.Json) (scripts : list string)
          (dependencies devDependencies : list string).

Definition isGitRepo (g : option GitContext) : bool :=
  match g with
  | Some (Repo _ _ _) => true
  | _ => false
  end.

Definition hasPackageJson (n : option NodeContext) : bool :=
  match n with
  | Some (Package _ _ _ _) => true
  | _ => false
  end.

(** The fields of a [ContextManager] object. *)
Record t : Type := {
  currentDirectory : string;
  recentCommands : list string;
  fileContext : list FileInfo;
  gitContext : option GitContext;
  nodeContext : option NodeContext;
  maxRecentCommands : nat;
  maxFileContext : nat
}.

(** What the environment answers when the context is refreshed. *)
Record PackageData : Type := {
  pkg_name : JS.Json;
  pkg_scripts : option (list string);
  pkg_dependencies : option (list string);
  pkg_devDependencies : option (list string)
}.

Record Probe : Type := {
  (** [process.cwd()]; [None] when it throws (the working directory is
      gone) *)
  cwd : option string;
  (** [fs.readdir], and for each name the [fs.stat] answer
      (is-directory flag and size); [None] where the call rejects *)
  readdir : option (list (string * option (bool * nat)));
  (** standard output of [git status --porcelain] and of
      [git branch --show-current]; [None] when either command fails *)
  git : option (string * string);
  (** the parsed package.json; [None] when it is missing, malformed or
      not an object *)
  packageJson : option PackageData
}.

Record Summary : Type := {
  directory : string;
  fullPath : string;
  summaryCommands : list string;
  fileCount : nat;
  directories : nat;
  files : nat;
  summaryGit : option GitContext;
  summaryNode : option NodeContext
}.

(** What [getContextualSuggestion] resolves to: a plain string for a
    direct match, an object with the prompt otherwise. *)
Inductive ContextualResult : Type :=
| Direct (command : string)
| Prompted (prompt : string) (context : Summary).

Inductive DirectoryType : Type :=
| nodejs | git_repo | python | java | cpp | web | general.

(** [new ContextManager()], where [process.cwd()] answered [dir] *)
Definition create (dir : string) : t :=
  {| currentDirectory := dir; recentCommands := []; fileContext := [];
     gitContext := None; nodeContext := None;
     maxRecentCommands := 10; maxFileContext := 20 |}.

(** [path.basename] on a POSIX path: the last segment, trailing
    separators ignored. *)
Fixpoint drop_slashes (l : list ascii) : list ascii :=
  match l with
  | c :: r => if Ascii.eqb c "/" then drop_slashes r else l
  | [] => []
  end.

Fixpoint take_segment (l : list ascii) : list ascii :=
  match l with
  | c :: r => if Ascii.eqb c "/" then [] else c :: take_segment r
  | [] => []
  end.

Definition basename (p : string) : string :=
  string_of_list_ascii
    (rev (take_segment (drop_slashes (rev (list_ascii_of_string p))))).

(** [s.split("\n")] *)
Fixpoint split_lines (s : string) : list string :=
  match s with
  | EmptyString => [EmptyString]
  | String c r =>
      if Ascii.eqb c (ascii_of_nat 10) then EmptyString :: split_lines r
      else match split_lines r with
           | l :: ls => String c l :: ls
           | [] => [String c EmptyString]
           end
  end.

Definition updateFileContext (p : Probe) (cm : t) : t :=
  {| currentDirectory := currentDirectory cm;
     recentCommands := recentCommands cm;
     fileContext :=
       match readdir p with
       | Some entries =>
           map (fun e =>
                  match snd e with
                  | Some (isdir, sz) =>
                      {| name := fst e; isDirectory := isdir; size := sz |}
                  | None => {| name := fst e; isDirectory := false; size := 0 |}
                  end)
               (firstn (maxFileContext cm) entries)
       | None => []
       end;
     gitContext := gitContext cm;
     nodeContext := nodeContext cm;
     maxRecentCommands := maxRecentCommands cm;
     maxFileContext := maxFileContext cm |}.

Definition updateGitContext (p : Probe) (cm : t) : t :=
  {| currentDirectory := currentDirectory cm;
     recentCommands := recentCommands cm;
     fileContext := fileContext cm;
     gitContext :=
       match git p with
       | Some (stdout, branchOutput) =>
           Some (Repo (0 <? String.length (JS.trim stdout))
                      (filter (fun line => 0 <? String.length line)
                              (split_lines (JS.trim stdout)))
                      (JS.trim branchOutput))
       | None => Some NoRepo
       end;
     nodeContext := nodeContext cm;
     maxRecentCommands := maxRecentCommands cm;
     maxFileContext := maxFileContext cm |}.

Definition or_empty (o : option (list string)) : list string :=
  match o with
  | Some l => l
  | None => []
  end.

Definition updateNodeContext (p : Probe) (cm : t) : t :=
  {| currentDirectory := currentDirectory cm;
     recentCommands := recentCommands cm;
     fileContext := fileContext cm;
     gitContext := gitContext cm;
     nodeContext :=
       match packageJson p with
       | Some d =>
           Some (Package (pkg_name d) (or_empty (pkg_scripts d))
                         (or_empty (pkg_dependencies d))
                         (or_empty (pkg_devDependencies d)))
       | None => Some NoPackage
       end;
     maxRecentCommands := maxRecentCommands cm;
     maxFileContext := maxFileContext cm |}.

(** The three refreshes catch their own failures; [process.cwd()] is
    inside the outer [try] only, so when it throws nothing is refreshed. *)
Definition updateContext (p : Probe) (cm : t) : t :=
  match cwd p with
  | Some dir =>
      let cm0 :=
        {| currentDirectory := dir;
           recentCommands := recentCommands cm;
           fileContext := fileContext cm;
           gitContext := gitContext cm;
           nodeContext := nodeContext cm;
           maxRecentCommands := maxRecentCommands cm;
           maxFileContext := maxFileContext cm |} in
      updateNodeContext p (updateGitContext p (updateFileContext p cm0))
  | None => cm
  end.

Definition addRecentCommand (command : string) (cm : t) : t :=
  let cmds := command :: recentCommands cm in
  {| currentDirectory := currentDirectory cm;
     recentCommands :=
       if maxRecentCommands cm <? List.length cmds
       then firstn (maxRecentCommands cm) cmds
       else cmds;
     fileContext := fileContext cm;
     gitContext := gitContext cm;
     nodeContext := nodeContext cm;
     maxRecentCommands := maxRecentCommands cm;
     maxFileContext := maxFileContext cm |}.

Definition getContextSummary (cm : t) : Summary :=
  {| directory := basename (currentDirectory cm);
     fullPath := currentDirectory cm;
     summaryCommands := firstn 3 (recentCommands cm);
     fileCount := List.length (fileContext cm);
     directories := List.length (filter isDirectory (fileContext cm));
     files := List.length (filter (fun f => negb (isDirectory f)) (fileContext cm));
     summaryGit := gitContext cm;
     summaryNode := nodeContext cm |}.

(** The double-quote character of the template literals. *)
Definition dq : string := String (ascii_of_nat 34) EmptyString.

(** The pieces [buildContextPrompt] appends to [prompt], one per
    statement of its body, in program order. *)
Definition directoryPart (c : Summary) : string :=
  "Context: Working in " ++ dq ++ directory c ++ dq ++ " directory. ".

Definition gitPart (c : Summary) : string :=
  match summaryGit c with
  | Some (Repo hasChanges _ currentBranch) =>
      "Git repo on branch " ++ dq ++ currentBranch ++ dq ++ ". "
      ++ (if hasChanges then "Has uncommitted changes. " else "")
  | _ => ""
  end.

Definition nodePart (c : Summary) : string :=
  match summaryNode c with
  | Some (Package pkgName scripts _ _) =>
      "Node.js project " ++ dq ++ JS.show pkgName ++ dq ++ ". "
      ++ (let scriptCount := List.length scripts in
          if 0 <? scriptCount
          then "Has " ++ JS.show_nat scriptCount ++ " npm scripts. "
          else "")
  | _ => ""
  end.

Definition recentPart (c : Summary) : string :=
  if 0 <? List.length (summaryCommands c)
  then "Recent commands: " ++ String.concat ", " (summaryCommands c) ++ ". "
  else "".

Definition countsPart (c : Summary) : string :=
  if (0 <? files c) || (0 <? directories c)
  then "Directory has " ++ JS.show_nat (files c) ++ " files, "
       ++ JS.show_nat (directories c) ++ " folders. "
  else "".

Definition inputPart (userInput : string) : string :=
  "User input: " ++ dq ++ userInput ++ dq ++ ". ".

Definition instructionPart (c : Config.t) : string :=
  "Suggest the most relevant command completion ("
  ++ JS.show_nat (Config.MAX_SUGGESTION_LENGTH c) ++ " chars max).".

(** The value of the local [prompt] once the user input has been
    appended, that is, when the last template literal is evaluated. *)
Definition promptBeforeInstruction (c : Summary) (userInput : string) : string :=
  directoryPart c ++ gitPart c ++ nodePart c ++ recentPart c ++ countsPart c
  ++ inputPart userInput.

Section WithScope.
(** What the free identifier [config] evaluates to inside this module. *)
Variable config : JS.Completion Config.t.

Definition buildContextPrompt (userInput : string) (cm : t) : JS.Completion string :=
  let context := getContextSummary cm in
  let prompt := promptBeforeInstruction context userInput in
  match config with
  | JS.Return c => JS.Return (prompt ++ instructionPart c)
  | JS.Throw e => JS.Throw e
  end.

Definition some_file (p : FileInfo -> bool) (cm : t) : bool :=
  existsb p (fileContext cm).

Definition getDirectoryType (cm : t) : DirectoryType :=
  if hasPackageJson (nodeContext cm) then nodejs
  else if isGitRepo (gitContext cm) then git_repo
  else if some_file (fun f => JS.includes (name f) ".py") cm then python
  else if some_file (fun f => JS.includes (name f) ".java") cm then java
  else if some_file (fun f => JS.includes (name f) ".cpp" || JS.includes (name f) ".c") cm
  then cpp
  else if some_file (fun f => JS.includes (name f) ".html" || JS.includes (name f) ".js") cm
  then web
  else general.

Definition commands (ty : DirectoryType) : list string :=
  match ty with
  | nodejs => ["npm install"; "npm start"; "npm run dev"; "npm test"; "npm run build"]
  | git_repo => ["git status"; "git add ."; "git commit"; "git push"; "git pull"]
  | python => ["python"; "pip install"; "python -m venv"; "python manage.py"]
  | java => ["javac"; "java"; "mvn"; "gradle"]
  | cpp => ["g++"; "make"; "cmake"; "./a.out"]
  | web => ["npm install"; "npm start"; "npx"; "yarn"]
  | general => ["ls"; "cd"; "mkdir"; "rm"; "cp"; "mv"]
  end.

Definition getRelevantCommands (cm : t) : list string :=
  commands (getDirectoryType cm).

Definition matchingCommands (userInput : string) (cm : t) : list string :=
  filter (fun cmd => JS.startsWith (JS.toLowerCase cmd) (JS.toLowerCase userInput))
         (getRelevantCommands cm).

Definition getContextualSuggestion (p : Probe) (userInput : string) (cm : t)
  : JS.Completion ContextualResult * t :=
  let cm' := updateContext p cm in
  let context := getContextSummary cm' in
  match matchingCommands userInput cm' with
  | first :: _ => (JS.Return (Direct first), cm')
  | [] =>
      match buildContextPrompt userInput cm' with
      | JS.Return contextPrompt => (JS.Return (Prompted contextPrompt context), cm')
      | JS.Throw e => (JS.Throw e, cm')
      end
  end.

End WithScope.

(** context-manager.js requires [fs], [path], [child_process], [util]
    and [chalk] and nothing else: [config] is bound neither in the module
    nor globally, so evaluating it throws. *)
Definition module_config : JS.Completion Config.t :=
  JS.Throw (JS.ReferenceError "config").

End ContextManager.

(** ** The key-rotating revision of gemini-service-optimized.js *)

Module Service.

Import JS.

(** The response of the endpoint, as far as the service reads it.  A
    field that is absent (or not of the expected kind) is [None]. *)
Record Part : Type := { text : option string }.
Record Content : Type := { parts : option (list Part) }.
Record Candidate : Type := { content : option Content }.
Record UsageMetadata : Type := { totalTokenCount : option nat }.
Record Data : Type := {
  candidates : option (list Candidate);
  usageMetadata : option UsageMetadata
}.
Record Response : Type := { data : option Data }.

(** A credential; [None] is [undefined]. *)
Definition ApiKey : Type := option string.

(** One [axios.post]: which attempt of the send it was, the cursor at
    that moment, the credential put in the header and the time the
    request allows, in milliseconds. *)
Record Call : Type := {
  attemptNo : nat;
  keyIndex : nat;
  keyUsed : ApiKey;
  timeout : Z
}.

(** The [timeout] option of this service's requests. *)
Definition TIMEOUT : Z := 15000.

(** The endpoint as such: what a request answers, given the time it
    allows, its payload, the attempt and the credential; [Throw] for a
    rejected promise (network error, non-2xx status, the time running
    out). *)
Definition Endpoint : Type := Z -> string -> nat -> ApiKey -> Completion Response.

(** The endpoint as one service reaches it, every request with the url,
    the headers and the timeout which that service puts in its
    [axios.post]. *)
Definition Remote : Type := string -> nat -> ApiKey -> Completion Response.

Definition reach (endpoint : Endpoint) : Remote := endpoint TIMEOUT.

(** The fields of an [OptimizedGeminiService] object. *)
Record t : Type := {
  apiKeys : list ApiKey;
  apiUrl : string;
  cacheManager : CacheManager.t;
  contextManager : ContextManager.t;
  currentKeyIndex : nat
}.

(** The constructor's choice of pool: the configured list when it is a
    non-empty array, else the single legacy key. *)
Definition pool (GEMINI_API_KEYS : list ApiKey) (GEMINI_API_KEY : ApiKey) : list ApiKey :=
  if 0 <? List.length GEMINI_API_KEYS then GEMINI_API_KEYS else [GEMINI_API_KEY].

Definition create (GEMINI_API_KEYS : list ApiKey) (GEMINI_API_KEY : ApiKey)
  (url : string) (cm : CacheManager.t) (ctx : ContextManager.t) : t :=
  {| apiKeys := pool GEMINI_API_KEYS GEMINI_API_KEY;
     apiUrl := url;
     cacheManager := cm;
     contextManager := ctx;
     currentKeyIndex := 0 |}.

Definition getCurrentApiKey (s : t) : ApiKey :=
  nth (currentKeyIndex s) (apiKeys s) None.

Definition rotateApiKey (s : t) : t :=
  {| apiKeys := apiKeys s;
     apiUrl := apiUrl s;
     cacheManager := cacheManager s;
     contextManager := contextManager s;
     currentKeyIndex := (currentKeyIndex s + 1) mod List.length (apiKeys s) |}.

Definition exhausted : Error := PlainError "All API keys exhausted or failed.".

Equations? postWithKeyRotation (remote : Remote) (payload : string) (attempt : nat) (s : t)
  : Completion Response * t * list Call
  by wf (List.length (apiKeys s) - attempt) lt :=
postWithKeyRotation remote payload attempt s
  with le_lt_dec (List.length (apiKeys s)) attempt := {
  | left _ => (Throw exhausted, s, []);
  | right _ with remote payload attempt (getCurrentApiKey s) := {
    | Return response =>
        (Return response, s,
         [{| attemptNo := attempt; keyIndex := currentKeyIndex s;
             keyUsed := getCurrentApiKey s; timeout := TIMEOUT |}]);
    | Throw _ =>
        let '(r, s', calls) :=
          postWithKeyRotation remote payload (S attempt) (rotateApiKey s) in
        (r, s',
         {| attemptNo := attempt; keyIndex := currentKeyIndex s;
            keyUsed := getCurrentApiKey s; timeout := TIMEOUT |} :: calls) } }.
Proof. simpl. lia. Qed.

Definition with_cacheManager (cm : CacheManager.t) (s : t) : t :=
  {| apiKeys := apiKeys s; apiUrl := apiUrl s; cacheManager := cm;
     contextManager := contextManager s; currentKeyIndex := currentKeyIndex s |}.

Definition with_contextManager (ctx : ContextManager.t) (s : t) : t :=
  {| apiKeys := apiKeys s; apiUrl := apiUrl s; cacheManager := cacheManager s;
     contextManager := ctx; currentKeyIndex := currentKeyIndex s |}.

(** [response.data && response.data.candidates &&
    response.data.candidates[0]] *)
Definition firstCandidate (r : Response) : option Candidate :=
  match data r with
  | Some d =>
      match candidates d with
      | Some (c :: _) => Some c
      | _ => None
      end
  | None => None
  end.

(** [candidate.content.parts[0].text]; reading through an absent field
    throws, and so does calling [trim] on an absent text. *)
Definition candidateText (c : Candidate) : Completion string :=
  match content c with
  | Some k =>
      match parts k with
      | Some (p :: _) =>
          match text p with
          | Some s => Return s
          | None => Throw (TypeError "text.trim")
          end
      | Some [] => Throw (TypeError "parts[0].text")
      | None => Throw (TypeError "content.parts[0]")
      end
  | None => Throw (TypeError "content.parts")
  end.

(** [response.data.usageMetadata?.totalTokenCount || 0] *)
Definition tokenCountOf (r : Response) : nat :=
  match data r with
  | Some d =>
      match usageMetadata d with
      | Some m =>
          match totalTokenCount m with
          | Some n => n
          | None => 0
          end
      | None => 0
      end
  | None => 0
  end.

(** The four [Date.now()] readings of one request, in program order. *)
Record Clock : Type := {
  now_get : Z;
  now_gate : Z;
  now_set : Z;
  now_record : Z
}.

Section WithConfig.
Variable cfg : Config.t.

(** [this.contextManager.getContextualSuggestion], the method of the
    collaborating object. *)
Variable contextualSuggestion :
  string -> ContextManager.t -> Completion ContextManager.ContextualResult * ContextManager.t.

Definition getCommandSuggestion (clock : Clock) (remote : Remote)
  (userInput : string) (s : t) (d : CacheManager.Disk)
  : option string * t * CacheManager.Disk * list Call :=
  if negb (Config.ENABLE_SUGGESTIONS cfg) then (None, s, d, [])
  else if String.length (trim userInput) <? Config.MIN_INPUT_LENGTH cfg
  then (None, s, d, [])
  else
    let (cachedSuggestion, cm1) :=
      CacheManager.get cfg (now_get clock) userInput (cacheManager s) in
    let s1 := with_cacheManager cm1 s in
    match cachedSuggestion with
    | Some (String c r) => (Some (String c r), s1, d, [])
    | _ =>
        if negb (CacheManager.canMakeRequest cfg (now_gate clock) cm1)
        then (None, s1, d, [])
        else
          let (contextualResult, ctx') :=
            contextualSuggestion userInput (contextManager s1) in
          let s2 := with_contextManager ctx' s1 in
          match contextualResult with
          | Throw _ => (None, s2, d, [])
          | Return (ContextManager.Direct command) => (Some command, s2, d, [])
          | Return (ContextManager.Prompted prompt _) =>
              let '(posted, s3, calls) := postWithKeyRotation remote prompt 0 s2 in
              match posted with
              | Throw _ => (None, s3, d, calls)
              | Return response =>
                  match firstCandidate response with
                  | Some candidate =>
                      match candidateText candidate with
                      | Return txt =>
                          let suggestion := trim txt in
                          let finalSuggestion :=
                            substring0 (Config.MAX_SUGGESTION_LENGTH cfg) suggestion in
                          let (cm2, d2) :=
                            CacheManager.set cfg (now_set clock) userInput
                              finalSuggestion (cacheManager s3) d in
                          let tokenCount := tokenCountOf response in
                          let (cm3, d3) :=
                            CacheManager.recordRequest (now_record clock) tokenCount cm2 d2 in
                          (Some finalSuggestion, with_cacheManager cm3 s3, d3, calls)
                      | Throw _ => (None, s3, d, calls)
                      end
                  | None => (None, s3, d, calls)
                  end
              end
          end
    end.

End WithConfig.

(** The service linked with context-manager.js as it is written. *)
Definition getCommandSuggestion_linked (cfg : Config.t) (probe : ContextManager.Probe) :=
  getCommandSuggestion cfg
    (ContextManager.getContextualSuggestion ContextManager.module_config probe).

End Service.

(** ** The single-key service

    [ContextAwareGeminiService]: the same orchestrator with one
    credential and one [axios.post] in place of the rotating send. *)

Module ContextAwareService.

Import JS.

(** The fields of a [ContextAwareGeminiService] object. *)
Record t : Type := {
  apiKey : Service.ApiKey;
  apiUrl : string;
  cacheManager : CacheManager.t;
  contextManager : ContextManager.t
}.

(** One [axios.post]: the credential put in the header and the time the
    request allows, in milliseconds. *)
Record Call : Type := {
  keyUsed : Service.ApiKey;
  timeout : Z
}.

(** The [timeout] option of this service's request. *)
Definition TIMEOUT : Z := 5000.

Definition reach (endpoint : Service.Endpoint) : Service.Remote := endpoint TIMEOUT.

Definition post (s : t) : Call := {| keyUsed := apiKey s; timeout := TIMEOUT |}.

Definition create (GEMINI_API_KEY : Service.ApiKey) (url : string)
  (cm : CacheManager.t) (ctx : ContextManager.t) : t :=
  {| apiKey := GEMINI_API_KEY; apiUrl := url; cacheManager := cm; contextManager := ctx |}.

Definition with_cacheManager (cm : CacheManager.t) (s : t) : t :=
  {| apiKey := apiKey s; apiUrl := apiUrl s; cacheManager := cm;
     contextManager := contextManager s |}.

Definition with_contextManager (ctx : ContextManager.t) (s : t) : t :=
  {| apiKey := apiKey s; apiUrl := apiUrl s; cacheManager := cacheManager s;
     contextManager := ctx |}.

Section WithConfig.
Variable cfg : Config.t.
Variable contextualSuggestion :
  string -> ContextManager.t -> Completion ContextManager.ContextualResult * ContextManager.t.

(** The last component lists the requests sent: none or the single
    [axios.post], which is the endpoint's first attempt. *)
Definition getCommandSuggestion (clock : Service.Clock) (remote : Service.Remote)
  (userInput : string) (s : t) (d : CacheManager.Disk)
  : option string * t * CacheManager.Disk * list Call :=
  if negb (Config.ENABLE_SUGGESTIONS cfg) then (None, s, d, [])
  else if String.length (trim userInput) <? Config.MIN_INPUT_LENGTH cfg
  then (None, s, d, [])
  else
    let (cachedSuggestion, cm1) :=
      CacheManager.get cfg (Service.now_get clock) userInput (cacheManager s) in
    let s1 := with_cacheManager cm1 s in
    match cachedSuggestion with
    | Some (String c r) => (Some (String c r), s1, d, [])
    | _ =>
        if negb (CacheManager.canMakeRequest cfg (Service.now_gate clock) cm1)
        then (None, s1, d, [])
        else
          let (contextualResult, ctx') :=
            contextualSuggestion userInput (contextManager s1) in
          let s2 := with_contextManager ctx' s1 in
          match contextualResult with
          | Throw _ => (None, s2, d, [])
          | Return (ContextManager.Direct command) => (Some command, s2, d, [])
          | Return (ContextManager.Prompted prompt _) =>
              match remote prompt 0 (apiKey s2) with
              | Throw _ => (None, s2, d, [post s2])
              | Return response =>
                  match Service.firstCandidate response with
                  | Some candidate =>
                      match Service.candidateText candidate with
                      | Return txt =>
                          let suggestion := trim txt in
                          let finalSuggestion :=
                            substring0 (Config.MAX_SUGGESTION_LENGTH cfg) suggestion in
                          let (cm2, d2) :=
                            CacheManager.set cfg (Service.now_set clock) userInput
                              finalSuggestion (cacheManager s2) d in
                          let tokenCount := Service.tokenCountOf response in
                          let (cm3, d3) :=
                            CacheManager.recordRequest (Service.now_record clock)
                              tokenCount cm2 d2 in
                          (Some finalSuggestion, with_cacheManager cm3 s2, d3, [post s2])
                      | Throw _ => (None, s2, d, [post s2])
                      end
                  | None => (None, s2, d, [post s2])
                  end
              end
          end
    end.

End WithConfig.

Definition addRecentCommand (command : string) (s : t) : t :=
  with_contextManager (ContextManager.addRecentCommand command (contextManager s)) s.

End ContextAwareService.

(** ** gemini-service-optimized.js as it stands in src/

    The [OptimizedGeminiService] the terminals load under that name: one
    credential, one [axios.post], and a prompt of its own in place of the
    context step.  The module requires ./config. *)

Module OptimizedService.

Import JS.

(** The fields of the object; the context manager is constructed and not
    used by [getCommandSuggestion]. *)
Record t : Type := {
  apiKey : Service.ApiKey;
  apiUrl : string;
  cacheManager : CacheManager.t;
  contextManager : ContextManager.t
}.

(** One [axios.post]: the credential put in the header and the time the
    request allows, in milliseconds. *)
Record Call : Type := {
  keyUsed : Service.ApiKey;
  timeout : Z
}.

(** The [timeout] option of this service's request. *)
Definition TIMEOUT : Z := 5000.

Definition reach (endpoint : Service.Endpoint) : Service.Remote := endpoint TIMEOUT.

Definition post (s : t) : Call := {| keyUsed := apiKey s; timeout := TIMEOUT |}.

Definition create (GEMINI_API_KEY : Service.ApiKey) (url : string)
  (cm : CacheManager.t) (ctx : ContextManager.t) : t :=
  {| apiKey := GEMINI_API_KEY; apiUrl := url; cacheManager := cm; contextManager := ctx |}.

Definition with_cacheManager (cm : CacheManager.t) (s : t) : t :=
  {| apiKey := apiKey s; apiUrl := apiUrl s; cacheManager := cm;
     contextManager := contextManager s |}.

Section WithConfig.
Variable cfg : Config.t.

(** [`Complete: "${userInput}" (${config.MAX_SUGGESTION_LENGTH} chars max)`] *)
Definition prompt (userInput : string) : string :=
  "Complete: " ++ ContextManager.dq ++ userInput ++ ContextManager.dq ++ " ("
  ++ show_nat (Config.MAX_SUGGESTION_LENGTH cfg) ++ " chars max)".

(** The last component lists the requests sent: none or the single
    [axios.post], which is the endpoint's first attempt. *)
Definition getCommandSuggestion (clock : Service.Clock) (remote : Service.Remote)
  (userInput : string) (s : t) (d : CacheManager.Disk)
  : option string * t * CacheManager.Disk * list Call :=
  if negb (Config.ENABLE_SUGGESTIONS cfg) then (None, s, d, [])
  else if String.length (trim userInput) <? Config.MIN_INPUT_LENGTH cfg
  then (None, s, d, [])
  else
    let (cachedSuggestion, cm1) :=
      CacheManager.get cfg (Service.now_get clock) userInput (cacheManager s) in
    let s1 := with_cacheManager cm1 s in
    match cachedSuggestion with
    | Some (String c r) => (Some (String c r), s1, d, [])
    | _ =>
        if negb (CacheManager.canMakeRequest cfg (Service.now_gate clock) cm1)
        then (None, s1, d, [])
        else
          match remote (prompt userInput) 0 (apiKey s1) with
          | Throw _ => (None, s1, d, [post s1])
          | Return response =>
              match Service.firstCandidate response with
              | Some candidate =>
                  match Service.candidateText candidate with
                  | Return txt =>
                      let suggestion := trim txt in
                      let finalSuggestion :=
                        substring0 (Config.MAX_SUGGESTION_LENGTH cfg) suggestion in
                      let (cm2, d2) :=
                        CacheManager.set cfg (Service.now_set clock) userInput
                          finalSuggestion (cacheManager s1) d in
                      let tokenCount := Service.tokenCountOf response in
                      let (cm3, d3) :=
                        CacheManager.recordRequest (Service.now_record clock)
                          tokenCount cm2 d2 in
                      (Some finalSuggestion, with_cacheManager cm3 s1, d3, [post s1])
                  | Throw _ => (None, s1, d, [post s1])
                  end
              | None => (None, s1, d, [post s1])
              end
          end
    end.

End WithConfig.

End OptimizedService.

(** ** cost-optimized-terminal.js

    The line editor.  A key press arrives as the text of one [data]
    event of the standard input.  Leaving the process ([process.exit])
    is [None].  Of what [redraw] writes, the input, the grey remainder of
    the suggestion and the processing mark are modelled; the prompt with
    the cost figure and the cursor column depend on the colour support
    chalk detects and are left out, and so is what the [show...] methods
    print. *)

Module Terminal.

Import JS.

(** The fields of a [CostOptimizedTerminal] object, the service and the
    readline interface apart.  [suggestionTimeout] holds the handle of
    the last timer set. *)
Record t : Type := {
  currentInput : string;
  suggestion : string;
  suggestionTimeout : option nat;
  isProcessing : bool;
  cursorPosition : nat
}.

(** The timers of the event loop: the handle the next [setTimeout]
    returns, and the handles set that have neither fired nor been
    cleared. *)
Record Timers : Type := {
  next : nat;
  pending : list nat
}.

Definition setTimeout (tm : Timers) : nat * Timers :=
  (next tm, {| next := S (next tm); pending := next tm :: pending tm |}).

Definition clearTimeout (id : nat) (tm : Timers) : Timers :=
  {| next := next tm; pending := List.remove Nat.eq_dec id (pending tm) |}.

(** What one [redraw] paints after the prompt. *)
Record Line : Type := {
  typed : string;
  ghost : option string;
  thinking : bool
}.

(** What a handler does besides changing the fields. *)
Inductive Effect : Type :=
| Draw (line : Line)
| Ask (userInput : string)
| Help
| ClearScreen
| Stats
| CacheInfo
| Executed (command : string).

(** [s.slice(n)] and [s.substring(n)] for [n >= 0] *)
Fixpoint substringFrom (n : nat) (s : string) : string :=
  match n, s with
  | 0, _ => s
  | S _, EmptyString => EmptyString
  | S n', String _ r => substringFrom n' r
  end.

(** [key.charCodeAt(0)], [NaN] on the empty string *)
Definition charCodeAt0 (key : string) : option nat :=
  match key with
  | EmptyString => None
  | String c _ => Some (nat_of_ascii c)
  end.

Definition escape (tail : string) : string := String (ascii_of_nat 27) tail.

Definition create : t :=
  {| currentInput := ""; suggestion := ""; suggestionTimeout := None;
     isProcessing := false; cursorPosition := 0 |}.

Definition with_line (input : string) (cursor : nat) (st : t) : t :=
  {| currentInput := input; suggestion := suggestion st;
     suggestionTimeout := suggestionTimeout st; isProcessing := isProcessing st;
     cursorPosition := cursor |}.

Definition with_suggestion (sugg : string) (st : t) : t :=
  {| currentInput := currentInput st; suggestion := sugg;
     suggestionTimeout := suggestionTimeout st; isProcessing := isProcessing st;
     cursorPosition := cursorPosition st |}.

Definition with_timeout (handle : option nat) (st : t) : t :=
  {| currentInput := currentInput st; suggestion := suggestion st;
     suggestionTimeout := handle; isProcessing := isProcessing st;
     cursorPosition := cursorPosition st |}.

Definition with_processing (b : bool) (st : t) : t :=
  {| currentInput := currentInput st; suggestion := suggestion st;
     suggestionTimeout := suggestionTimeout st; isProcessing := b;
     cursorPosition := cursorPosition st |}.

(** [this.suggestion.substring(this.currentInput.length)] *)
Definition remainingSuggestion (st : t) : string :=
  substringFrom (String.length (currentInput st)) (suggestion st).

Definition redraw (st : t) : Line :=
  {| typed := currentInput st;
     ghost :=
       match suggestion st with
       | EmptyString => None
       | String _ _ =>
           if negb (String.eqb (suggestion st) (currentInput st))
           then match remainingSuggestion st with
                | EmptyString => None
                | String c r => Some (String c r)
                end
           else None
       end;
     thinking := isProcessing st |}.

(** The part of [requestSuggestion] that runs at once: the timer of the
    previous call is cleared and a new one is set. *)
Definition requestSuggestion (st : t) (tm : Timers) : t * Timers :=
  let tm1 :=
    match suggestionTimeout st with
    | Some handle => clearTimeout handle tm
    | None => tm
    end in
  let (handle, tm2) := setTimeout tm1 in
  (with_timeout (Some handle) st, tm2).

Section WithConfig.
Variable cfg : Config.t.

(** The timer's callback up to its [await]. *)
Definition suggestionDue (st : t) : t * list Effect :=
  if String.length (trim (currentInput st)) <? Config.MIN_INPUT_LENGTH cfg
  then
    let st1 := with_suggestion "" st in
    (st1, [Draw (redraw st1)])
  else
    let st1 := with_processing true st in
    (st1, [Draw (redraw st1); Ask (currentInput st1)]).

End WithConfig.

(** The rest of the callback, once the service has answered or thrown. *)
Definition suggestionArrived (result : Completion (option string)) (st : t)
  : t * list Effect :=
  let st1 := with_processing false st in
  let st2 :=
    match result with
    | Return (Some (String c r)) =>
        if negb (String.eqb (String c r) (currentInput st1))
        then with_suggestion (String c r) st1
        else with_suggestion "" st1
    | Return _ => with_suggestion "" st1
    | Throw _ => with_suggestion "" st1
    end in
  (st2, [Draw (redraw st2)]).

Definition handleArrowKeys (key : string) (st : t) : t * list Effect :=
  if String.eqb key (escape "[A") then (st, [])
  else if String.eqb key (escape "[B") then (st, [])
  else if String.eqb key (escape "[C") then
    if cursorPosition st <? String.length (currentInput st)
    then
      let st1 := with_line (currentInput st) (cursorPosition st + 1) st in
      (st1, [Draw (redraw st1)])
    else (st, [])
  else if String.eqb key (escape "[D") then
    if 0 <? cursorPosition st
    then
      let st1 := with_line (currentInput st) (cursorPosition st - 1) st in
      (st1, [Draw (redraw st1)])
    else (st, [])
  else (st, []).

Definition handleBackspace (st : t) (tm : Timers) : t * Timers * list Effect :=
  if 0 <? cursorPosition st
  then
    let st1 :=
      with_line
        (substring0 (cursorPosition st - 1) (currentInput st)
         ++ substringFrom (cursorPosition st) (currentInput st))
        (cursorPosition st - 1) st in
    let (st2, tm2) := requestSuggestion st1 tm in
    (st2, tm2, [Draw (redraw st1)])
  else (st, tm, []).

Definition addCharacter (char : string) (st : t) (tm : Timers) : t * Timers * list Effect :=
  let st1 :=
    with_line
      (substring0 (cursorPosition st) (currentInput st)
       ++ char ++ substringFrom (cursorPosition st) (currentInput st))
      (cursorPosition st + 1) st in
  let (st2, tm2) := requestSuggestion st1 tm in
  (st2, tm2, [Draw (redraw st1)]).

Definition acceptSuggestion (st : t) : t * list Effect :=
  match suggestion st with
  | EmptyString => (st, [])
  | String _ _ =>
      let st1 :=
        with_suggestion "" (with_line (suggestion st) (String.length (suggestion st)) st) in
      (st1, [Draw (redraw st1)])
  end.

Definition resetInput (st : t) : t * list Effect :=
  let st1 := with_suggestion "" (with_line "" 0 st) in
  (st1, [Draw (redraw st1)]).

Definition executeCommand (st : t) : option (t * list Effect) :=
  let command := trim (currentInput st) in
  if String.eqb command "" then Some (resetInput st)
  else if String.eqb (toLowerCase command) "exit" || String.eqb (toLowerCase command) "quit"
  then None
  else
    let (st1, drawn) := resetInput st in
    if String.eqb (toLowerCase command) "help" then Some (st1, Help :: drawn)
    else if String.eqb (toLowerCase command) "clear" then Some (st1, ClearScreen :: drawn)
    else if String.eqb (toLowerCase command) "stats" then Some (st1, Stats :: drawn)
    else if String.eqb (toLowerCase command) "cache" then Some (st1, CacheInfo :: drawn)
    else Some (st1, Executed command :: drawn).

Definition handleKeyPress (key : string) (st : t) (tm : Timers)
  : option (t * Timers * list Effect) :=
  match charCodeAt0 key with
  | None => Some (st, tm, [])
  | Some keyCode =>
      if keyCode =? 3 then None
      else if keyCode =? 13 then
        match executeCommand st with
        | Some (st1, out) => Some (st1, tm, out)
        | None => None
        end
      else if keyCode =? 127 then Some (handleBackspace st tm)
      else if keyCode =? 9 then
        let (st1, out) := acceptSuggestion st in Some (st1, tm, out)
      else if (keyCode =? 27) && (1 <? String.length key) then
        let (st1, out) := handleArrowKeys key st in Some (st1, tm, out)
      else if (32 <=? keyCode) && (keyCode <=? 126) then Some (addCharacter key st tm)
      else Some (st, tm, [])
  end.

End Terminal.

(** ** Drivers for properties that span several calls *)

Module Harness.

(** One [set] per element, left to right; an element is the clock
    reading, the input and the suggestion of that call. *)
Fixpoint set_each (cfg : Config.t) (calls : list (Z * string * string))
  (cm : CacheManager.t) (d : CacheManager.Disk) : CacheManager.t * CacheManager.Disk :=
  match calls with
  | [] => (cm, d)
  | (now, input, sugg) :: r =>
      let (cm', d') := CacheManager.set cfg now input sugg cm d in
      set_each cfg r cm' d'
  end.

(** The cache key a call of [set_each] writes. *)
Definition keyOf (call : Z * string * string) : string :=
  CacheManager.getCacheKey (snd (fst call)).

(** The shipped configuration with room for two cache entries. *)
Definition small : Config.t := {|
  Config.ENABLE_SUGGESTIONS := true;
  Config.MIN_INPUT_LENGTH := 3;
  Config.MAX_SUGGESTION_LENGTH := 30;
  Config.MAX_DAILY_REQUESTS := 100;
  Config.REQUEST_COOLDOWN := 5000;
  Config.ENABLE_CACHE := true;
  Config.CACHE_DURATION := 3600000;
  Config.MAX_CACHE_SIZE := 2
|}.

(** A writable directory without cache or usage file. *)
Definition blank_disk : CacheManager.Disk :=
  {| CacheManager.cacheFile := None; CacheManager.usageFile := None;
     CacheManager.writable := true |}.

(** A manager constructed on it. *)
Definition blank_manager (today : string) : CacheManager.t :=
  CacheManager.create Config.shipped 0 today blank_disk.

(** A manager holding the given cache and nothing else. *)
Definition manager_with (c : JSMap.t CacheManager.CacheEntry) (today : string)
  : CacheManager.t :=
  CacheManager.with_cache c (blank_manager today).

(** A cache at the bound of [small]: two entries, the older one first. *)
Definition two_entries : JSMap.t CacheManager.CacheEntry :=
  [("git status", {| CacheManager.suggestion := "git status -sb";
                     CacheManager.timestamp := 1000 |});
   ("npm run", {| CacheManager.suggestion := "npm run dev";
                  CacheManager.timestamp := 2000 |})].

(** A cache of four entries made at time 1000, in the order of their
    insertion: two keys that are numerals, the name of the prototype
    accessor, and a word. *)
Definition mixed_keys : JSMap.t CacheManager.CacheEntry :=
  [("200", {| CacheManager.suggestion := "200 OK";
              CacheManager.timestamp := 1000 |});
   ("__proto__", {| CacheManager.suggestion := "__proto__ of";
                    CacheManager.timestamp := 1000 |});
   ("abc", {| CacheManager.suggestion := "abcde";
              CacheManager.timestamp := 1000 |});
   ("100", {| CacheManager.suggestion := "100 Continue";
              CacheManager.timestamp := 1000 |})].

Definition today : string := "Mon Nov 02 2026".
Definition yesterday : string := "Sun Nov 01 2026".

(** The usage record of a process that was started the day before and
    has used up its quota of the shipped configuration. *)
Definition spent_yesterday : CacheManager.UsageStats :=
  {| CacheManager.totalRequests := 100; CacheManager.cachedHits := 40;
     CacheManager.dailyRequests := 100; CacheManager.lastReset := yesterday;
     CacheManager.costEstimate := 0%float |}.

(** A usage record with one cache hit for two remote requests. *)
Definition one_hit_in_two : CacheManager.UsageStats :=
  {| CacheManager.totalRequests := 2; CacheManager.cachedHits := 1;
     CacheManager.dailyRequests := 2; CacheManager.lastReset := today;
     CacheManager.costEstimate := 0%float |}.

(** A disk that holds exactly what the manager holds. *)
Definition disk_of (cm : CacheManager.t) : CacheManager.Disk :=
  {| CacheManager.cacheFile := Some (CacheManager.cache cm);
     CacheManager.usageFile := Some (CacheManager.usageStats cm);
     CacheManager.writable := true |}.

(** Where the cursor of [s] stands after [i] rotations. *)
Definition cursor_after (s : Service.t) (i : nat) : nat :=
  (Service.currentKeyIndex s + i) mod List.length (Service.apiKeys s).

(** The credential under that cursor. *)
Definition key_after (s : Service.t) (i : nat) : Service.ApiKey :=
  nth (cursor_after s i) (Service.apiKeys s) None.

(** The [i]-th request of a send that starts in [s] at attempt [a]. *)
Definition call_after (a : nat) (s : Service.t) (i : nat) : Service.Call :=
  {| Service.attemptNo := a + i;
     Service.keyIndex := cursor_after s i;
     Service.keyUsed := key_after s i;
     Service.timeout := Service.TIMEOUT |}.

(** [s] with its cursor moved. *)
Definition moved_to (idx : nat) (s : Service.t) : Service.t :=
  {| Service.apiKeys := Service.apiKeys s;
     Service.apiUrl := Service.apiUrl s;
     Service.cacheManager := Service.cacheManager s;
     Service.contextManager := Service.contextManager s;
     Service.currentKeyIndex := idx |}.

(** The attempt is rejected. *)
Definition rejects (o : JS.Completion Service.Response) : Prop :=
  exists e, o = JS.Throw e.

(** A response carrying one candidate with the given text and token
    count. *)
Definition answer (txt : string) (tokens : nat) : Service.Response :=
  {| Service.data :=
       Some {| Service.candidates :=
                 Some [{| Service.content :=
                            Some {| Service.parts :=
                                      Some [{| Service.text := Some txt |}] |} |}];
               Service.usageMetadata :=
                 Some {| Service.totalTokenCount := Some tokens |} |} |}.

(** An endpoint that rejects the first [n] attempts of a send and then
    answers. *)
Definition flaky (n : nat) (r : Service.Response) : Service.Remote :=
  fun _ attempt _ =>
    if attempt <? n then JS.Throw (JS.PlainError "Request failed with status code 429")
    else JS.Return r.

(** A service with three credentials on a blank manager. *)
Definition three_keys : Service.t :=
  Service.create [Some "key-a"; Some "key-b"; Some "key-c"] None
    "https://generativelanguage.googleapis.com"
    (blank_manager today) (ContextManager.create "/home/dev/project").

(** The test of [getContextualSuggestion] for one canonical command. *)
Definition completes (userInput cmd : string) : bool :=
  JS.startsWith (JS.toLowerCase cmd) (JS.toLowerCase userInput).

(** What the environment answers in a clean repository on branch main
    that holds a README and a source directory and no package.json. *)
Definition git_checkout : ContextManager.Probe :=
  {| ContextManager.cwd := Some "/home/dev/project";
     ContextManager.readdir :=
       Some [("README.md", Some (false, 120)); ("src", Some (true, 4096))];
     ContextManager.git := Some ("", "main" ++ String (ascii_of_nat 10) "");
     ContextManager.packageJson := None |}.

(** The readings of a request that starts at the given time. *)
Definition clock_at (t : Z) : Service.Clock :=
  {| Service.now_get := t; Service.now_gate := (t + 1)%Z;
     Service.now_set := (t + 900)%Z; Service.now_record := (t + 901)%Z |}.

(** The service of src/gemini-service-optimized.js as the shipped
    config.js builds it: that file defines no [GEMINI_API_KEY], so the
    credential is [undefined]. *)
Definition src_service : OptimizedService.t :=
  OptimizedService.create None
    "https://generativelanguage.googleapis.com/v1beta/models/gemini-2.0-flash:generateContent"
    (blank_manager today) (ContextManager.create "/home/dev/project").



End Harness.

(** ** Further drivers *)

Module Scenario.

(** Every character is white space. *)
Fixpoint all_whitespace (s : string) : bool :=
  match s with
  | EmptyString => true
  | String c r => JS.is_whitespace c && all_whitespace r
  end.


(** One [recordRequest] per element, left to right; an element is the
    clock reading and the token count of that call. *)
Fixpoint record_each (calls : list (Z * nat)) (cm : CacheManager.t) (d : CacheManager.Disk)
  : CacheManager.t * CacheManager.Disk :=
  match calls with
  | [] => (cm, d)
  | (now, tokens) :: r =>
      let (cm', d') := CacheManager.recordRequest now tokens cm d in
      record_each r cm' d'
  end.

(** The clock reading of the last call of a run, [t0] for an empty run. *)
Definition last_time (t0 : Z) (calls : list (Z * nat)) : Z :=
  fst (last calls (t0, 0)).

(** One [addRecentCommand] per element, left to right. *)
Fixpoint add_each (commands : list string) (cm : ContextManager.t) : ContextManager.t :=
  match commands with
  | [] => cm
  | c :: r => add_each r (ContextManager.addRecentCommand c cm)
  end.

(** The string begins with a white-space character. *)
Definition starts_with_whitespace (s : string) : bool :=
  match s with
  | EmptyString => false
  | String c _ => JS.is_whitespace c
  end.

(** The names [fs.readdir] answered, none when it failed. *)
Definition listed (p : ContextManager.Probe) : list string :=
  match ContextManager.readdir p with
  | Some entries => map fst entries
  | None => []
  end.

(** Some listed file has the fragment in its name. *)
Definition some_name_includes (fragment : string) (cm : ContextManager.t) : bool :=
  ContextManager.some_file (fun f => JS.includes (ContextManager.name f) fragment) cm.

(** The second manager holds the cache, the request counters, the cost
    and the time of the last request of the first; the hit counter may
    differ. *)
Definition same_books (cm cm' : CacheManager.t) : Prop :=
  CacheManager.cache cm' = CacheManager.cache cm /\
  CacheManager.lastRequestTime cm' = CacheManager.lastRequestTime cm /\
  CacheManager.totalRequests (CacheManager.usageStats cm')
    = CacheManager.totalRequests (CacheManager.usageStats cm) /\
  CacheManager.dailyRequests (CacheManager.usageStats cm')
    = CacheManager.dailyRequests (CacheManager.usageStats cm) /\
  CacheManager.costEstimate (CacheManager.usageStats cm')
    = CacheManager.costEstimate (CacheManager.usageStats cm) /\
  CacheManager.lastReset (CacheManager.usageStats cm')
    = CacheManager.lastReset (CacheManager.usageStats cm).

(** One request of a run: the clock readings, what the directory and
    the endpoint answer during it, and the input. *)
Record Request : Type := {
  clock : Service.Clock;
  probe : ContextManager.Probe;
  remote : Service.Remote;
  userInput : string
}.

(** One [getCommandSuggestion] per element, left to right, each awaited
    before the next; the requests sent are collected in order. *)
Fixpoint request_each (cfg : Config.t) (config : JS.Completion Config.t)
  (requests : list Request) (s : Service.t) (d : CacheManager.Disk)
  : Service.t * CacheManager.Disk * list Service.Call :=
  match requests with
  | [] => (s, d, [])
  | q :: r =>
      let '(_, s1, d1, calls) :=
        Service.getCommandSuggestion cfg
          (ContextManager.getContextualSuggestion config (probe q))
          (clock q) (remote q) (userInput q) s d in
      let '(s2, d2, later) := request_each cfg config r s1 d1 in
      (s2, d2, (calls ++ later)%list)
  end.


(** What the event loop hands to the terminal: a chunk of input, a timer
    that fires, or the outcome of the pending call of the service. *)
Inductive Event : Type :=
| Key (key : string)
| Fires (handle : nat)
| Arrives (result : JS.Completion (option string)).

(** One turn of the event loop; a handle that is not pending does not
    fire. *)
Definition turn (cfg : Config.t) (e : Event) (st : Terminal.t) (tm : Terminal.Timers)
  : option (Terminal.t * Terminal.Timers * list Terminal.Effect) :=
  match e with
  | Key key => Terminal.handleKeyPress key st tm
  | Fires handle =>
      if existsb (Nat.eqb handle) (Terminal.pending tm)
      then
        let (st1, out) := Terminal.suggestionDue cfg st in
        Some (st1, Terminal.clearTimeout handle tm, out)
      else Some (st, tm, [])
  | Arrives result =>
      let (st1, out) := Terminal.suggestionArrived result st in
      Some (st1, tm, out)
  end.

(** The turns of a session, until the process exits. *)
Fixpoint session (cfg : Config.t) (events : list Event) (st : Terminal.t)
  (tm : Terminal.Timers) : option (Terminal.t * Terminal.Timers * list Terminal.Effect) :=
  match events with
  | [] => Some (st, tm, [])
  | e :: r =>
      match turn cfg e st tm with
      | Some (st1, tm1, out) =>
          match session cfg r st1 tm1 with
          | Some (st2, tm2, later) => Some (st2, tm2, (out ++ later)%list)
          | None => None
          end
      | None => None
      end
  end.

(** No timer has been set yet. *)
Definition no_timers : Terminal.Timers :=
  {| Terminal.next := 0; Terminal.pending := [] |}.

(** The cursor is inside the line, and the only timer that can still
    fire is the last one set. *)
Definition tidy (st : Terminal.t) (tm : Terminal.Timers) : Prop :=
  Terminal.cursorPosition st <= String.length (Terminal.currentInput st) /\
  (Terminal.pending tm = [] \/
   exists handle,
     Terminal.pending tm = [handle] /\ Terminal.suggestionTimeout st = Some handle).

(** A call of the service, if the effect is one, passes an input whose
    trimmed length reaches the configured minimum. *)
Definition worth_asking (cfg : Config.t) (e : Terminal.Effect) : Prop :=
  match e with
  | Terminal.Ask input => Config.MIN_INPUT_LENGTH cfg <= String.length (JS.trim input)
  | _ => True
  end.


End Scenario.

(** * Properties *)

(** ** Number rendering, checked against the host language *)

Example toFixed_agrees_with_node :
  Num.toFixed 2 1.005%float = Some "1.00"%string /\
  Num.toFixed 2 8.345%float = Some "8.35"%string /\
  Num.toFixed 1 (-0.01)%float = Some "-0.0"%string /\
  Num.toFixed 0 2.5%float = Some "3"%string /\
  Num.toFixed 6 0%float = Some "0.000000"%string /\
  Num.toFixed 1 (Num.of_nat 35 / Num.of_nat 45 * 100)%float = Some "77.8"%string /\
  Num.toFixed 2 1e21%float = None.
Proof. repeat split. Qed.

Section FixedShape.
Local Open Scope string_scope.

Lemma length_app_string (a b : string) :
  String.length (a ++ b) = (String.length a + String.length b)%nat.
Proof. induction a as [ | c a IH ]; simpl; [ reflexivity | rewrite IH; reflexivity ]. Qed.

Lemma length_zeros k : String.length (Num.zeros k) = k.
Proof. induction k as [ | k IH ]; simpl; [ reflexivity | rewrite IH; reflexivity ]. Qed.

Lemma length_substring_within (s : string) :
  forall n m, (n + m <= String.length s)%nat -> String.length (String.substring n m s) = m.
Proof.
  induction s as [ | c s IH ]; intros n m H; simpl in H.
  - assert (n = 0 /\ m = 0)%nat as [-> ->] by lia. reflexivity.
  - destruct n as [ | n ]; destruct m as [ | m ]; simpl; try reflexivity.
    + rewrite IH by lia. reflexivity.
    + apply IH. lia.
    + apply IH. lia.
Qed.

(** A number written by [fixed_digits] has at least one digit before the
    point and exactly [f] after it. *)
Lemma fixed_digits_shape f n :
  (0 < f)%nat ->
  exists whole frac,
    Num.fixed_digits f n = whole ++ "." ++ frac /\
    (1 <= String.length whole)%nat /\ String.length frac = f.
Proof.
  intro Hf. unfold Num.fixed_digits.
  set (m := if (String.length (Num.show_N n) <=? f)%nat
            then Num.zeros (S f - String.length (Num.show_N n)) ++ Num.show_N n
            else Num.show_N n).
  assert (f < String.length m)%nat as Hm.
  { unfold m. destruct (String.length (Num.show_N n) <=? f)%nat eqn:E.
    - apply Nat.leb_le in E. rewrite length_app_string, length_zeros. lia.
    - apply Nat.leb_gt in E. exact E. }
  rewrite (proj2 (Nat.eqb_neq f 0)) by lia.
  eexists. eexists. split; [ reflexivity | ]. split.
  - rewrite length_substring_within by lia. lia.
  - apply length_substring_within. lia.
Qed.

(** Whatever the double, [toFixed] with a positive digit count writes
    fixed notation or one of the three names. *)
Lemma toFixed_shape f x s :
  (0 < f)%nat ->
  Num.toFixed f x = Some s ->
  Num.fixed_notation f s \/ Num.not_a_finite_number s.
Proof.
  intros Hf. unfold Num.toFixed, Num.fixed_notation, Num.not_a_finite_number.
  destruct (Prim2SF x) as [ sg | sg | | sg m e ].
  - intro H. injection H as <-. left.
    destruct (fixed_digits_shape f 0 Hf) as (whole & frac & -> & Hw & Hfr).
    exists "", whole, frac. auto.
  - intro H. injection H as <-. right. destruct sg; auto.
  - intro H. injection H as <-. right. auto.
  - destruct (Num.at_least_1e21 m e); [ discriminate | ].
    intro H. injection H as <-. left.
    destruct (fixed_digits_shape f (Z.to_N (Num.round_scaled f m e)) Hf)
      as (whole & frac & -> & Hw & Hfr).
    exists (if sg then "-" else ""), whole, frac.
    split; [ reflexivity | ]. split; [ destruct sg; auto | auto ].
Qed.

End FixedShape.

(** ** Strings *)

Lemma string_eqb_refl (s : string) : String.eqb s s = true.
Proof. apply String.eqb_eq. reflexivity. Qed.

Lemma string_eqb_sym (a b : string) : String.eqb a b = String.eqb b a.
Proof.
  destruct (String.eqb a b) eqn:E.
  - apply String.eqb_eq in E. subst. symmetry. apply string_eqb_refl.
  - destruct (String.eqb b a) eqn:E'; [ | reflexivity ].
    apply String.eqb_eq in E'. subst. rewrite string_eqb_refl in E. discriminate.
Qed.

(** ** The insertion-ordered map *)

Section MapFacts.
Context {V : Type}.
Local Open Scope list_scope.
Implicit Types (m : JSMap.t V) (k : string) (v : V).

Lemma has_keys m k : JSMap.has k m = true <-> In k (JSMap.keys m).
Proof.
  unfold JSMap.has. induction m as [ | [k' v'] r IH ]; simpl.
  - split; [ discriminate | tauto ].
  - destruct (String.eqb k k') eqn:E.
    + apply String.eqb_eq in E. subst. split; auto.
    + apply String.eqb_neq in E. rewrite IH. split; [ auto | ].
      intros [H | H]; [ congruence | exact H ].
Qed.

Lemma has_false_keys m k : JSMap.has k m = false <-> ~ In k (JSMap.keys m).
Proof.
  rewrite <- has_keys. destruct (JSMap.has k m); split; intro H; congruence.
Qed.

Lemma wf_NoDup m : JSMap.wf m <-> NoDup (JSMap.keys m).
Proof.
  unfold JSMap.wf. induction m as [ | [k v] r IH ]; simpl.
  - split; [ constructor | reflexivity ].
  - rewrite andb_true_iff, negb_true_iff, has_false_keys, IH.
    split.
    + intros [H1 H2]. constructor; assumption.
    + intro H. inversion H. subst. split; assumption.
Qed.

Lemma get_set_same m k v : JSMap.get k (JSMap.set k v m) = Some v.
Proof.
  induction m as [ | [k' v'] r IH ]; simpl.
  - rewrite string_eqb_refl. reflexivity.
  - destruct (String.eqb k k') eqn:E; simpl.
    + rewrite string_eqb_refl. reflexivity.
    + rewrite E. exact IH.
Qed.

Lemma get_set_other m k k' v :
  k <> k' -> JSMap.get k' (JSMap.set k v m) = JSMap.get k' m.
Proof.
  intro Hne. induction m as [ | [k0 v0] r IH ]; simpl.
  - apply String.eqb_neq in Hne. rewrite string_eqb_sym, Hne. reflexivity.
  - destruct (String.eqb k k0) eqn:E; simpl.
    + apply String.eqb_eq in E. subst k0.
      assert (String.eqb k' k = false) as ->
        by (apply String.eqb_neq; congruence).
      reflexivity.
    + destruct (String.eqb k' k0); [ reflexivity | exact IH ].
Qed.

Lemma set_absent m k v :
  JSMap.has k m = false -> JSMap.set k v m = m ++ [(k, v)].
Proof.
  unfold JSMap.has. induction m as [ | [k' v'] r IH ]; simpl; intro H.
  - reflexivity.
  - destruct (String.eqb k k') eqn:E; [ discriminate | ].
    rewrite IH by exact H. reflexivity.
Qed.

Lemma keys_set_present m k v :
  JSMap.has k m = true -> JSMap.keys (JSMap.set k v m) = JSMap.keys m.
Proof.
  unfold JSMap.has, JSMap.keys. induction m as [ | [k' v'] r IH ]; simpl; intro H.
  - discriminate.
  - destruct (String.eqb k k') eqn:E; simpl.
    + apply String.eqb_eq in E. subst. reflexivity.
    + rewrite IH by exact H. reflexivity.
Qed.

Lemma size_keys m : JSMap.size m = List.length (JSMap.keys m).
Proof. unfold JSMap.size, JSMap.keys. rewrite length_map. reflexivity. Qed.

Lemma delete_absent m k : JSMap.has k m = false -> JSMap.delete k m = m.
Proof.
  unfold JSMap.has. induction m as [ | [k' v'] r IH ]; simpl; intro H.
  - reflexivity.
  - destruct (String.eqb k k') eqn:E; [ discriminate | ].
    rewrite IH by exact H. reflexivity.
Qed.

(** Deleting the first key of a map removes its first entry and nothing
    else. *)
Lemma delete_first m k v : JSMap.wf ((k, v) :: m) -> JSMap.delete k ((k, v) :: m) = m.
Proof.
  unfold JSMap.wf. simpl. rewrite string_eqb_refl.
  intro H. apply andb_true_iff in H as [H _]. apply negb_true_iff in H.
  apply delete_absent. exact H.
Qed.

Lemma wf_tail m k v : JSMap.wf ((k, v) :: m) -> JSMap.wf m.
Proof. unfold JSMap.wf. simpl. intro H. apply andb_true_iff in H. tauto. Qed.

Lemma wf_set m k v : JSMap.wf m -> JSMap.wf (JSMap.set k v m).
Proof.
  intro H. destruct (JSMap.has k m) eqn:E.
  - apply wf_NoDup. rewrite keys_set_present by exact E. apply wf_NoDup. exact H.
  - rewrite set_absent by exact E. apply wf_NoDup. unfold JSMap.keys.
    rewrite map_app. simpl. apply NoDup_app.
    + apply wf_NoDup. exact H.
    + constructor; [ tauto | constructor ].
    + intros x Hx [Hk | []]. subst x. apply has_false_keys in E. exact (E Hx).
Qed.

End MapFacts.

Local Open Scope list_scope.

(** A decidable check for distinct strings. *)
Lemma NoDup_by_check (l : list string) :
  JSMap.wfb (map (fun k => (k, tt)) l) = true -> NoDup l.
Proof.
  intro H. apply wf_NoDup in H. unfold JSMap.keys in H.
  rewrite map_map in H. simpl in H. rewrite map_id in H. exact H.
Qed.

(** ** Plain objects *)

Section ObjectFacts.
Context {V : Type}.
Local Open Scope list_scope.
Implicit Types (o : JSObject.t V) (k x : string) (v : V).

Lemma get_app (m1 m2 : JSMap.t V) k :
  JSMap.get k (m1 ++ m2)
  = match JSMap.get k m1 with
    | Some e => Some e
    | None => JSMap.get k m2
    end.
Proof.
  induction m1 as [ | [k' v'] r IH ]; simpl; [ reflexivity | ].
  destruct (String.eqb k k'); [ reflexivity | exact IH ].
Qed.

Lemma keys_insert_index n k v o x :
  In x (JSMap.keys (JSObject.insert_index n k v o)) <-> x = k \/ In x (JSMap.keys o).
Proof.
  unfold JSMap.keys. induction o as [ | [k' v'] r IH ]; simpl.
  - intuition congruence.
  - destruct (JSObject.array_index k') as [ n' | ]; [ destruct (n' <=? n)%N | ]; simpl;
      try rewrite IH; intuition congruence.
Qed.

Lemma keys_create k v o x :
  In x (JSMap.keys (JSObject.create k v o)) <-> x = k \/ In x (JSMap.keys o).
Proof.
  unfold JSObject.create. destruct (JSObject.array_index k) as [ n | ].
  - apply keys_insert_index.
  - unfold JSMap.keys. rewrite map_app, in_app_iff. simpl. intuition congruence.
Qed.




Lemma get_insert_index n k v o x :
  JSMap.has k o = false ->
  JSMap.get x (JSObject.insert_index n k v o)
  = if String.eqb x k then Some v else JSMap.get x o.
Proof.
  unfold JSMap.has. induction o as [ | [k' v'] r IH ]; simpl; intro Hk; [ reflexivity | ].
  destruct (String.eqb k k') eqn:E; [ discriminate | ].
  destruct (JSObject.array_index k') as [ n' | ]; [ destruct (n' <=? n)%N | ];
    simpl; try reflexivity.
  rewrite IH by exact Hk.
  destruct (String.eqb x k') eqn:E'; [ | reflexivity ].
  apply String.eqb_eq in E'. subst x. rewrite string_eqb_sym, E. reflexivity.
Qed.

Lemma get_define k v o x :
  JSMap.get x (JSObject.define k v o)
  = if String.eqb x k then Some v else JSMap.get x o.
Proof.
  unfold JSObject.define. destruct (JSMap.has k o) eqn:Ehas.
  - destruct (String.eqb x k) eqn:E.
    + apply String.eqb_eq in E. subst x. apply get_set_same.
    + apply get_set_other. apply String.eqb_neq in E. congruence.
  - unfold JSObject.create. destruct (JSObject.array_index k) as [ n | ].
    + apply get_insert_index. exact Ehas.
    + rewrite get_app. simpl.
      destruct (String.eqb x k) eqn:E.
      * apply String.eqb_eq in E. subst x.
        unfold JSMap.has in Ehas. destruct (JSMap.get k o); [ discriminate | reflexivity ].
      * destruct (JSMap.get x o); reflexivity.
Qed.








Lemma get_fold_assign (m : JSMap.t V) x :
  forall acc : JSObject.t V,
    JSMap.wf m ->
    JSMap.get x (fold_left (fun o kv => JSObject.assign (fst kv) (snd kv) o) m acc)
    = if negb (String.eqb x "__proto__") && JSMap.has x m
      then JSMap.get x m
      else JSMap.get x acc.
Proof.
  induction m as [ | [k v] r IH ]; intros acc Hwf; simpl.
  - rewrite andb_false_r. reflexivity.
  - pose proof (wf_tail _ _ _ Hwf) as Hr.
    unfold JSMap.wf in Hwf. simpl in Hwf. apply andb_true_iff in Hwf as [Hk _].
    apply negb_true_iff in Hk.
    rewrite IH by exact Hr. unfold JSMap.has at 2. simpl.
    destruct (String.eqb x k) eqn:E.
    + apply String.eqb_eq in E. subst k. rewrite Hk, andb_false_r.
      unfold JSObject.assign.
      destruct (String.eqb x "__proto__") eqn:Ep; simpl; [ reflexivity | ].
      rewrite get_define, string_eqb_refl. reflexivity.
    + fold (JSMap.has x r).
      destruct (negb (String.eqb x "__proto__") && JSMap.has x r); [ reflexivity | ].
      unfold JSObject.assign. destruct (String.eqb k "__proto__"); [ reflexivity | ].
      rewrite get_define, E. reflexivity.
Qed.

End ObjectFacts.


Lemma get_to_object (m : JSMap.t CacheManager.CacheEntry) k :
  JSMap.wf m ->
  JSMap.get k (CacheManager.to_object m)
  = if String.eqb k "__proto__" then None else JSMap.get k m.
Proof.
  intro Hwf. unfold CacheManager.to_object. rewrite get_fold_assign by exact Hwf.
  destruct (String.eqb k "__proto__"); simpl; [ reflexivity | ].
  unfold JSMap.has. destruct (JSMap.get k m); reflexivity.
Qed.

(** ** The suggestion cache: capacity *)

Section CacheCapacity.
Import CacheManager.
Variable cfg : Config.t.
Hypothesis enabled : Config.ENABLE_CACHE cfg = true.

Let entry (now : Z) (sugg : string) : CacheEntry :=
  {| suggestion := sugg; timestamp := now |}.

(** What [set] leaves in the map: the entry goes into the map without
    its first element when the size has reached the bound, into the
    whole map otherwise. *)
Lemma set_cache now input sugg cm d :
  JSMap.wf (cache cm) ->
  cache (fst (set cfg now input sugg cm d)) =
    JSMap.set (getCacheKey input) (entry now sugg)
      (if Config.MAX_CACHE_SIZE cfg <=? JSMap.size (cache cm)
       then tl (cache cm) else cache cm).
Proof.
  intro Hwf. unfold set. rewrite enabled. simpl.
  destruct (Config.MAX_CACHE_SIZE cfg <=? JSMap.size (cache cm)); [ | reflexivity ].
  destruct (cache cm) as [ | [k0 e0] rest ]; simpl JSMap.first_key; cbv iota.
  - reflexivity.
  - rewrite delete_first by exact Hwf. reflexivity.
Qed.

Lemma wf_set_cache now input sugg cm d :
  JSMap.wf (cache cm) -> JSMap.wf (cache (fst (set cfg now input sugg cm d))).
Proof.
  intro Hwf. rewrite set_cache by exact Hwf. apply wf_set.
  destruct (Config.MAX_CACHE_SIZE cfg <=? JSMap.size (cache cm)); [ | exact Hwf ].
  destruct (cache cm) as [ | [k0 e0] rest ]; [ exact Hwf | ].
  exact (wf_tail _ _ _ Hwf).
Qed.

(** The keys after a [set] of a key that was not held. *)
Lemma set_keys_fresh now input sugg cm d :
  JSMap.wf (cache cm) ->
  ~ In (getCacheKey input) (JSMap.keys (cache cm)) ->
  JSMap.keys (cache (fst (set cfg now input sugg cm d))) =
    (if Config.MAX_CACHE_SIZE cfg <=? JSMap.size (cache cm)
     then tl (JSMap.keys (cache cm)) else JSMap.keys (cache cm))
    ++ [getCacheKey input].
Proof.
  intros Hwf Hfresh. rewrite set_cache by exact Hwf.
  assert (forall m : JSMap.t CacheEntry,
            ~ In (getCacheKey input) (JSMap.keys m) ->
            JSMap.keys (JSMap.set (getCacheKey input) (entry now sugg) m)
            = JSMap.keys m ++ [getCacheKey input]) as G.
  { intros m Hm. rewrite set_absent by (apply has_false_keys; exact Hm).
    unfold JSMap.keys. rewrite map_app. reflexivity. }
  destruct (Config.MAX_CACHE_SIZE cfg <=? JSMap.size (cache cm)).
  - destruct (cache cm) as [ | [k0 e0] rest ]; simpl in *.
    + reflexivity.
    + apply G. tauto.
  - apply G. exact Hfresh.
Qed.

(** Starting from a map within its bound, a run of [set]s on keys that
    are new and pairwise distinct leaves the most recent
    [MAX_CACHE_SIZE] keys, oldest first. *)
Lemma set_each_keys calls :
  1 <= Config.MAX_CACHE_SIZE cfg ->
  forall cm d,
    JSMap.wf (cache cm) ->
    JSMap.size (cache cm) <= Config.MAX_CACHE_SIZE cfg ->
    NoDup (JSMap.keys (cache cm) ++ map Harness.keyOf calls) ->
    JSMap.keys (cache (fst (Harness.set_each cfg calls cm d))) =
      skipn (List.length (JSMap.keys (cache cm) ++ map Harness.keyOf calls)
             - Config.MAX_CACHE_SIZE cfg)
            (JSMap.keys (cache cm) ++ map Harness.keyOf calls).
Proof.
  intro Hmax. induction calls as [ | [[now input] sugg] r IH ]; intros cm d Hwf Hsize Hnd.
  - simpl. rewrite app_nil_r. rewrite size_keys in Hsize.
    replace (List.length (JSMap.keys (cache cm)) - Config.MAX_CACHE_SIZE cfg) with 0 by lia.
    reflexivity.
  - simpl Harness.set_each.
    destruct (set cfg now input sugg cm d) as [cm' d'] eqn:Eset.
    assert (cm' = fst (set cfg now input sugg cm d)) as Ecm by (rewrite Eset; reflexivity).
    simpl map in *. change (Harness.keyOf (now, input, sugg)) with (getCacheKey input) in *.
    assert (~ In (getCacheKey input) (JSMap.keys (cache cm))) as Hfresh.
    { intro Hin. apply NoDup_remove_2 in Hnd. apply Hnd. apply in_or_app. left. exact Hin. }
    pose proof (set_keys_fresh now input sugg cm d Hwf Hfresh) as Hkeys.
    rewrite <- Ecm in Hkeys.
    pose proof (wf_set_cache now input sugg cm d Hwf) as Hwf'. rewrite <- Ecm in Hwf'.
    rewrite size_keys in Hsize.
    rewrite IH; clear IH; try exact Hwf'.
    + rewrite Hkeys, size_keys.
      destruct (Config.MAX_CACHE_SIZE cfg <=? List.length (JSMap.keys (cache cm))) eqn:E.
      * apply Nat.leb_le in E.
        destruct (JSMap.keys (cache cm)) as [ | k0 ks ].
        { cbn [List.length] in E. lia. }
        cbn [tl]. rewrite <- app_assoc. cbn [app].
        set (X := ks ++ getCacheKey input :: map Harness.keyOf r).
        assert (List.length X
                = Config.MAX_CACHE_SIZE cfg + List.length (map Harness.keyOf r)) as HX.
        { unfold X. rewrite length_app. cbn [List.length] in *. lia. }
        cbn [List.length].
        replace (List.length X - Config.MAX_CACHE_SIZE cfg)
          with (List.length (map Harness.keyOf r)) by lia.
        replace (S (List.length X) - Config.MAX_CACHE_SIZE cfg)
          with (S (List.length (map Harness.keyOf r))) by lia.
        reflexivity.
      * rewrite <- app_assoc. reflexivity.
    + rewrite size_keys, Hkeys, length_app. cbn [List.length].
      destruct (Config.MAX_CACHE_SIZE cfg <=? JSMap.size (cache cm)) eqn:E.
      * rewrite size_keys in E. apply Nat.leb_le in E.
        destruct (JSMap.keys (cache cm)); cbn [List.length tl] in *; lia.
      * rewrite size_keys in E. apply Nat.leb_gt in E. lia.
    + rewrite Hkeys, <- app_assoc. cbn [app].
      destruct (Config.MAX_CACHE_SIZE cfg <=? JSMap.size (cache cm)); [ | exact Hnd ].
      destruct (JSMap.keys (cache cm)); cbn [tl app] in *; [ exact Hnd | ].
      inversion Hnd. assumption.
Qed.

(** C6.  With the cache enabled and a bound of at least one entry: a
    [set] on a map that holds exactly [MAX_CACHE_SIZE] entries removes
    one entry, the first in insertion order, and inserts into what is
    left; and [MAX_CACHE_SIZE + 1] calls on pairwise distinct keys,
    starting from the empty map, leave exactly [MAX_CACHE_SIZE] entries,
    without the first key and with every later key. *)
Theorem set_evicts_earliest_at_capacity :
  1 <= Config.MAX_CACHE_SIZE cfg ->
  (forall now input sugg cm d,
      JSMap.wf (cache cm) ->
      JSMap.size (cache cm) = Config.MAX_CACHE_SIZE cfg ->
      exists k0 e0 rest,
        cache cm = (k0, e0) :: rest /\
        cache (fst (set cfg now input sugg cm d)) =
          JSMap.set (getCacheKey input) {| suggestion := sugg; timestamp := now |} rest)
  /\
  (forall first later cm d,
      cache cm = [] ->
      List.length (first :: later) = S (Config.MAX_CACHE_SIZE cfg) ->
      NoDup (map Harness.keyOf (first :: later)) ->
      let cm' := fst (Harness.set_each cfg (first :: later) cm d) in
      JSMap.size (cache cm') = Config.MAX_CACHE_SIZE cfg /\
      JSMap.has (Harness.keyOf first) (cache cm') = false /\
      forall c, In c later -> JSMap.has (Harness.keyOf c) (cache cm') = true).
Proof.
  intro Hmax. split.
  - intros now input sugg cm d Hwf Hsize.
    rewrite set_cache by exact Hwf. rewrite Hsize, Nat.leb_refl.
    destruct (cache cm) as [ | [k0 e0] rest ].
    + unfold JSMap.size in Hsize. simpl in Hsize. lia.
    + exists k0, e0, rest. split; reflexivity.
  - intros first later cm d Hempty Hlen Hnd cm'.
    assert (JSMap.keys (cache cm') = map Harness.keyOf later) as Hkeys.
    { unfold cm'. rewrite (set_each_keys (first :: later) Hmax cm d); rewrite Hempty.
      - change (JSMap.keys (@nil (string * CacheEntry))) with (@nil string).
        cbn [app]. rewrite length_map, Hlen.
        replace (S (Config.MAX_CACHE_SIZE cfg) - Config.MAX_CACHE_SIZE cfg) with 1 by lia.
        reflexivity.
      - reflexivity.
      - unfold JSMap.size. simpl. lia.
      - exact Hnd. }
    repeat split.
    + rewrite size_keys, Hkeys, length_map. simpl in Hlen. lia.
    + apply has_false_keys. rewrite Hkeys. simpl in Hnd. inversion Hnd. assumption.
    + intros c Hc. apply has_keys. rewrite Hkeys. apply in_map. exact Hc.
Qed.

(** C10, as the code has it.  A [set] on a key that is already held, in a
    map that holds exactly [MAX_CACHE_SIZE] entries, removes the first
    entry in insertion order and then stores the new value.  When the
    key is not that first entry it keeps its position, the first entry
    is gone and the map ends one entry below the bound.  When the key is
    that first entry, it is the one removed and it comes back as the
    newest entry: nothing else is lost and the map stays at the bound. *)
Theorem set_held_key_at_capacity now input sugg cm d :
  JSMap.wf (cache cm) ->
  JSMap.size (cache cm) = Config.MAX_CACHE_SIZE cfg ->
  JSMap.has (getCacheKey input) (cache cm) = true ->
  exists k0 e0 rest,
    cache cm = (k0, e0) :: rest /\
    let after := cache (fst (set cfg now input sugg cm d)) in
    JSMap.get (getCacheKey input) after
      = Some {| suggestion := sugg; timestamp := now |} /\
    (k0 <> getCacheKey input ->
       JSMap.keys after = JSMap.keys rest /\
       JSMap.has k0 after = false /\
       S (JSMap.size after) = Config.MAX_CACHE_SIZE cfg) /\
    (k0 = getCacheKey input ->
       after = rest ++ [(k0, {| suggestion := sugg; timestamp := now |})] /\
       JSMap.size after = Config.MAX_CACHE_SIZE cfg).
Proof.
  intros Hwf Hsize Hheld.
  destruct (cache cm) as [ | [k0 e0] rest ] eqn:Ecache.
  { discriminate Hheld. }
  exists k0, e0, rest. split; [ reflexivity | ].
  assert (cache (fst (set cfg now input sugg cm d))
          = JSMap.set (getCacheKey input) (entry now sugg) rest) as Hafter.
  { rewrite set_cache by (rewrite Ecache; exact Hwf).
    rewrite Ecache, Hsize, Nat.leb_refl. reflexivity. }
  cbv zeta. rewrite Hafter. clear Hafter.
  assert (JSMap.has k0 rest = false) as Hk0.
  { unfold JSMap.wf in Hwf. simpl in Hwf. apply andb_true_iff in Hwf as [H _].
    apply negb_true_iff in H. exact H. }
  split; [ apply get_set_same | ]. split.
  - intro Hne.
    assert (JSMap.has (getCacheKey input) rest = true) as Hin.
    { unfold JSMap.has in *. simpl in Hheld.
      destruct (String.eqb (getCacheKey input) k0) eqn:E; [ | exact Hheld ].
      apply String.eqb_eq in E. congruence. }
    assert (JSMap.keys (JSMap.set (getCacheKey input) (entry now sugg) rest)
            = JSMap.keys rest) as Hkeys by (apply keys_set_present; exact Hin).
    split; [ exact Hkeys | ]. split.
    + apply has_false_keys. rewrite Hkeys. apply has_false_keys. exact Hk0.
    + rewrite size_keys, Hkeys, <- size_keys, <- Hsize. reflexivity.
  - intro He. subst k0. rewrite set_absent by exact Hk0. split; [ reflexivity | ].
    unfold JSMap.size in *. rewrite length_app. simpl in *. lia.
Qed.

End CacheCapacity.

Lemma set_evicts_earliest_at_capacity_witness :
  Config.ENABLE_CACHE Harness.small = true /\
  1 <= Config.MAX_CACHE_SIZE Harness.small /\
  let first := (10%Z, "git status", "git status -sb") in
  let later := [(20%Z, " NPM run", "npm run dev"); (30%Z, "ls -", "ls -la")] in
  let cm' :=
    fst (Harness.set_each Harness.small (first :: later)
           (Harness.blank_manager Harness.today) Harness.blank_disk) in
  JSMap.size (CacheManager.cache cm') = Config.MAX_CACHE_SIZE Harness.small /\
  JSMap.has (Harness.keyOf first) (CacheManager.cache cm') = false /\
  forall c, In c later -> JSMap.has (Harness.keyOf c) (CacheManager.cache cm') = true.
Proof.
  assert (1 <= Config.MAX_CACHE_SIZE Harness.small) as Hmax by (simpl; lia).
  split; [ reflexivity | ]. split; [ exact Hmax | ].
  apply (proj2 (set_evicts_earliest_at_capacity Harness.small eq_refl Hmax)).
  - reflexivity.
  - reflexivity.
  - apply NoDup_by_check. reflexivity.
Defined.

Lemma set_held_key_at_capacity_witness :
  let cm := Harness.manager_with Harness.two_entries Harness.today in
  JSMap.wf (CacheManager.cache cm) /\
  JSMap.size (CacheManager.cache cm) = Config.MAX_CACHE_SIZE Harness.small /\
  JSMap.has (CacheManager.getCacheKey " NPM run ") (CacheManager.cache cm) = true /\
  JSMap.keys
    (CacheManager.cache
       (fst (CacheManager.set Harness.small 3000 " NPM run " "npm run build" cm
               Harness.blank_disk)))
  = ["npm run"].
Proof.
  cbv zeta. split; [ reflexivity | ]. split; [ reflexivity | ]. split; [ reflexivity | ].
  destruct (set_held_key_at_capacity Harness.small eq_refl 3000 " NPM run "
              "npm run build" (Harness.manager_with Harness.two_entries Harness.today)
              Harness.blank_disk eq_refl eq_refl eq_refl)
    as (k0 & e0 & rest & Hcache & _ & Hother & _).
  injection Hcache as Hk He Hrest. subst k0 e0 rest.
  apply Hother. discriminate.
Defined.

(** C10 as stated fails where the key being updated is itself the oldest
    entry: the map stays at its bound, and the key moves to the end
    instead of being overwritten in place. *)
Lemma set_oldest_key_at_capacity_counterexample :
  let cm := Harness.manager_with Harness.two_entries Harness.today in
  let after :=
    CacheManager.cache
      (fst (CacheManager.set Harness.small 3000 "Git Status" "git status" cm
              Harness.blank_disk)) in
  JSMap.size (CacheManager.cache cm) = Config.MAX_CACHE_SIZE Harness.small /\
  JSMap.has (CacheManager.getCacheKey "Git Status") (CacheManager.cache cm) = true /\
  JSMap.keys (CacheManager.cache cm) = ["git status"; "npm run"] /\
  JSMap.keys after = ["npm run"; "git status"] /\
  JSMap.size after = Config.MAX_CACHE_SIZE Harness.small /\
  S (JSMap.size after) <> Config.MAX_CACHE_SIZE Harness.small.
Proof.
  cbv zeta. repeat split; try reflexivity. vm_compute. discriminate.
Qed.

(** ** The suggestion cache: expiry *)

Section CacheExpiry.
Import CacheManager.
Variable cfg : Config.t.
Hypothesis enabled : Config.ENABLE_CACHE cfg = true.
Local Open Scope Z_scope.

Lemma get_stored now input sugg T cm :
  JSMap.get (getCacheKey input) (cache cm)
    = Some {| suggestion := sugg; timestamp := T |} ->
  fst (get cfg now input cm)
    = if now - T <? Config.CACHE_DURATION cfg then Some sugg else None.
Proof.
  intro H. unfold get. rewrite enabled, H. simpl.
  destruct (now - T <? Config.CACHE_DURATION cfg); reflexivity.
Qed.

(** C7.  With caching enabled, an entry stored under the key of the
    input with creation time [T] is returned by [get] exactly at the
    times strictly before [T + CACHE_DURATION], and [get] answers
    nothing exactly from [T + CACHE_DURATION] on; in particular the
    query at [T + CACHE_DURATION - 1] is a hit. *)
Theorem get_hits_before_expiry now input sugg T cm :
  JSMap.get (getCacheKey input) (cache cm)
    = Some {| suggestion := sugg; timestamp := T |} ->
  (fst (get cfg now input cm) = Some sugg <-> now < T + Config.CACHE_DURATION cfg) /\
  (fst (get cfg now input cm) = None <-> T + Config.CACHE_DURATION cfg <= now) /\
  fst (get cfg (T + Config.CACHE_DURATION cfg - 1) input cm) = Some sugg.
Proof.
  intro H. rewrite !(get_stored _ _ _ _ _ H).
  destruct (now - T <? Config.CACHE_DURATION cfg) eqn:E;
    [ apply Z.ltb_lt in E | apply Z.ltb_ge in E ].
  - repeat split; try (intros; lia); try discriminate.
    assert ((T + Config.CACHE_DURATION cfg - 1 - T <? Config.CACHE_DURATION cfg) = true)
      as -> by (apply Z.ltb_lt; lia).
    reflexivity.
  - repeat split; try (intros; lia); try discriminate.
    assert ((T + Config.CACHE_DURATION cfg - 1 - T <? Config.CACHE_DURATION cfg) = true)
      as -> by (apply Z.ltb_lt; lia).
    reflexivity.
Qed.

(** [set] at time [T] creates such an entry, whatever the map held. *)
Lemma set_stores_entry T input sugg cm d :
  JSMap.get (getCacheKey input) (cache (fst (set cfg T input sugg cm d)))
    = Some {| suggestion := sugg; timestamp := T |}.
Proof.
  unfold set. rewrite enabled. simpl. apply get_set_same.
Qed.

(** An entry written at [T] and read back under an input with the same
    key: a hit before [T + CACHE_DURATION], a miss from then on. *)
Corollary set_then_get T input sugg cm d now input' :
  getCacheKey input' = getCacheKey input ->
  fst (get cfg now input' (fst (set cfg T input sugg cm d)))
    = if now <? T + Config.CACHE_DURATION cfg then Some sugg else None.
Proof.
  intro Hk. rewrite (get_stored now input' sugg T).
  - destruct (now - T <? Config.CACHE_DURATION cfg) eqn:E1;
      destruct (now <? T + Config.CACHE_DURATION cfg) eqn:E2;
      try reflexivity;
      [ apply Z.ltb_lt in E1; apply Z.ltb_ge in E2
      | apply Z.ltb_ge in E1; apply Z.ltb_lt in E2 ]; lia.
  - rewrite Hk. apply set_stores_entry.
Qed.

End CacheExpiry.

Lemma get_hits_before_expiry_witness :
  let cm := fst (CacheManager.set Config.shipped 1000 "Git Status" "git status -sb"
                   (Harness.blank_manager Harness.today) Harness.blank_disk) in
  Config.ENABLE_CACHE Config.shipped = true /\
  fst (CacheManager.get Config.shipped 3600999 " git status " cm) = Some "git status -sb" /\
  fst (CacheManager.get Config.shipped 3601000 " git status " cm) = None.
Proof.
  cbv zeta. split; [ reflexivity | ].
  pose proof (get_hits_before_expiry Config.shipped eq_refl 3601000 " git status "
                "git status -sb" 1000
                (fst (CacheManager.set Config.shipped 1000 "Git Status" "git status -sb"
                        (Harness.blank_manager Harness.today) Harness.blank_disk))
                eq_refl) as (_ & Hmiss & Hhit).
  split; [ exact Hhit | ]. apply Hmiss. simpl. lia.
Defined.

(** ** Persistence *)

Section WriteThrough.
Import CacheManager.
Variable cfg : Config.t.

Lemma saveCache_writable cm d :
  writable d = true ->
  cacheFile (saveCache cm d) = Some (to_object (cache cm)) /\
  usageFile (saveCache cm d) = usageFile d.
Proof.
  intros Hw. unfold saveCache. rewrite Hw. simpl. split; reflexivity.
Qed.

Lemma saveUsageStats_writable cm d :
  writable d = true ->
  usageFile (saveUsageStats cm d) = Some (usageStats cm) /\
  cacheFile (saveUsageStats cm d) = cacheFile d.
Proof.
  intro Hw. unfold saveUsageStats. rewrite Hw. split; reflexivity.
Qed.

(** A hit changes the usage record and nothing else. *)
Lemma get_hit now input sugg cm :
  fst (get cfg now input cm) = Some sugg ->
  cache (snd (get cfg now input cm)) = cache cm /\
  lastRequestTime (snd (get cfg now input cm)) = lastRequestTime cm /\
  cachedHits (usageStats (snd (get cfg now input cm))) = S (cachedHits (usageStats cm)).
Proof.
  unfold get. destruct (negb (Config.ENABLE_CACHE cfg)); [ discriminate | ].
  destruct (JSMap.get (getCacheKey input) (cache cm)) as [ cached | ]; [ | discriminate ].
  destruct (now - timestamp cached <? Config.CACHE_DURATION cfg)%Z; [ | discriminate ].
  intros _. simpl. repeat split.
Qed.

(** A miss changes nothing. *)
Lemma get_miss now input cm :
  fst (get cfg now input cm) = None -> snd (get cfg now input cm) = cm.
Proof.
  unfold get. destruct (negb (Config.ENABLE_CACHE cfg)); [ reflexivity | ].
  destruct (JSMap.get (getCacheKey input) (cache cm)) as [ cached | ]; [ | reflexivity ].
  destruct (now - timestamp cached <? Config.CACHE_DURATION cfg)%Z; [ discriminate | reflexivity ].
Qed.

(** C8, as the code has it.  On a disk that accepts the write, [set] and
    [clearCache] leave a cache file that maps every key other than
    [__proto__] as the map they produced does, and [recordRequest] and
    [resetUsageStats] leave the usage file equal to the record they
    produced.  [get] writes nothing: the hit it counts is in memory only,
    and reaches the usage file with the next [recordRequest]. *)
Theorem writers_flush_what_they_change d :
  writable d = true ->
  (forall now input sugg cm,
      Config.ENABLE_CACHE cfg = true ->
      JSMap.wf (cache cm) ->
      exists file,
        cacheFile (snd (set cfg now input sugg cm d)) = Some file /\
        forall k, k <> "__proto__" ->
                  JSMap.get k file
                  = JSMap.get k (cache (fst (set cfg now input sugg cm d)))) /\
  (forall cm,
      cacheFile (snd (clearCache cm d)) = Some [] /\
      cache (fst (clearCache cm d)) = []) /\
  (forall now tokens cm,
      usageFile (snd (recordRequest now tokens cm d))
        = Some (usageStats (fst (recordRequest now tokens cm d)))) /\
  (forall today cm,
      usageFile (snd (resetUsageStats today cm d))
        = Some (usageStats (fst (resetUsageStats today cm d)))) /\
  (forall now input sugg cm now' tokens,
      fst (get cfg now input cm) = Some sugg ->
      let cm' := snd (get cfg now input cm) in
      cachedHits (usageStats cm') = S (cachedHits (usageStats cm)) /\
      exists u,
        usageFile (snd (recordRequest now' tokens cm' d)) = Some u /\
        cachedHits u = S (cachedHits (usageStats cm))).
Proof.
  intro Hw. split; [ | split; [ | split; [ | split ] ] ].
  - intros now input sugg cm Hen Hwf.
    pose proof (wf_set_cache cfg Hen now input sugg cm d Hwf) as Hwf'.
    exists (to_object (cache (fst (set cfg now input sugg cm d)))). split.
    + unfold set in *. rewrite Hen in *. simpl in *.
      apply saveCache_writable; assumption.
    + intros k Hk. rewrite get_to_object by exact Hwf'.
      apply String.eqb_neq in Hk. rewrite Hk. reflexivity.
  - intro cm. unfold clearCache. simpl. split; [ | reflexivity ].
    apply (saveCache_writable (with_cache [] cm) d Hw).
  - intros now tokens cm. unfold recordRequest. simpl.
    apply saveUsageStats_writable. exact Hw.
  - intros today cm. unfold resetUsageStats. simpl.
    apply saveUsageStats_writable. exact Hw.
  - intros now input sugg cm now' tokens Hhit. cbv zeta.
    pose proof (get_hit now input sugg cm Hhit) as (_ & _ & Hcount).
    split; [ exact Hcount | ].
    eexists. split.
    + unfold recordRequest. simpl. apply saveUsageStats_writable. exact Hw.
    + simpl. exact Hcount.
Qed.

End WriteThrough.

Lemma writers_flush_what_they_change_witness :
  let cm := Harness.manager_with Harness.mixed_keys Harness.today in
  let d := Harness.disk_of cm in
  let out := CacheManager.set Config.shipped 3000 " NPM run " "npm run build" cm d in
  CacheManager.writable d = true /\
  (exists file,
      CacheManager.cacheFile (snd out) = Some file /\
      JSMap.keys file = ["100"; "200"; "abc"; "npm run"]%string /\
      JSMap.get "npm run" file
      = Some {| CacheManager.suggestion := "npm run build";
                CacheManager.timestamp := 3000 |} /\
      JSMap.get "200" file = JSMap.get "200" (CacheManager.cache cm)) /\
  forall now tokens cm0,
    CacheManager.usageFile (snd (CacheManager.recordRequest now tokens cm0 d))
    = Some (CacheManager.usageStats (fst (CacheManager.recordRequest now tokens cm0 d))).
Proof.
  cbv zeta. split; [ reflexivity | ].
  pose proof (writers_flush_what_they_change Config.shipped
                (Harness.disk_of (Harness.manager_with Harness.mixed_keys Harness.today))
                eq_refl) as (Hset & _ & Hrecord & _).
  split; [ | exact Hrecord ].
  destruct (Hset 3000%Z " NPM run " "npm run build"
              (Harness.manager_with Harness.mixed_keys Harness.today) eq_refl eq_refl)
    as (file & Hfile & Hget).
  exists file. split; [ exact Hfile | ].
  split; [ vm_compute in Hfile; injection Hfile as <-; reflexivity | ].
  split; [ rewrite Hget by discriminate; reflexivity | ].
  rewrite Hget by discriminate. reflexivity.
Defined.

(** C8 as stated fails for [get]: on a disk that holds the manager's
    usage record, a hit raises the in-memory hit counter and leaves the
    usage file as it was, one hit behind. *)
Lemma get_hit_not_flushed_counterexample :
  let cm := Harness.manager_with Harness.two_entries Harness.today in
  let d := Harness.disk_of cm in
  let cm' := snd (CacheManager.get Harness.small 1500 "git status" cm) in
  fst (CacheManager.get Harness.small 1500 "git status" cm) = Some "git status -sb" /\
  CacheManager.cachedHits (CacheManager.usageStats cm') = 1 /\
  option_map CacheManager.cachedHits (CacheManager.usageFile d) = Some 0 /\
  CacheManager.usageFile d <> Some (CacheManager.usageStats cm').
Proof.
  cbv zeta. repeat split; try reflexivity.
  intro H. apply (f_equal (option_map CacheManager.cachedHits)) in H.
  vm_compute in H. discriminate.
Qed.

(** ** The usage governor *)

Section Governor.
Import CacheManager.
Variable cfg : Config.t.

(** The one place that compares the stored date with today is the load
    at construction: a record stored on another day comes back with a
    daily count of zero and today's date. *)
Lemma loadUsageStats_resets today d cm u :
  usageFile d = Some u ->
  lastReset u <> today ->
  dailyRequests (usageStats (loadUsageStats today d cm)) = 0 /\
  lastReset (usageStats (loadUsageStats today d cm)) = today /\
  totalRequests (usageStats (loadUsageStats today d cm)) = totalRequests u.
Proof.
  intros Hu Hne. unfold loadUsageStats. rewrite Hu.
  apply String.eqb_neq in Hne. rewrite Hne. simpl. repeat split.
Qed.

(** C2, what the code does instead.  None of [canMakeRequest],
    [recordRequest] and [getUsageStats] looks at the stored date.  Once
    the daily count has reached the limit, [canMakeRequest] refuses at
    every later time, whatever day [lastReset] names; [recordRequest]
    adds one to the daily count and keeps [lastReset]; [getUsageStats]
    reports the count as it is. *)
Theorem governor_keeps_stale_daily_count now tokens cm d :
  Config.MAX_DAILY_REQUESTS cfg <= dailyRequests (usageStats cm) ->
  canMakeRequest cfg now cm = false /\
  dailyRequests (usageStats (fst (recordRequest now tokens cm d)))
    = S (dailyRequests (usageStats cm)) /\
  lastReset (usageStats (fst (recordRequest now tokens cm d))) = lastReset (usageStats cm) /\
  stats_dailyRequests (getUsageStats cm) = dailyRequests (usageStats cm) /\
  stats_lastReset (getUsageStats cm) = lastReset (usageStats cm).
Proof.
  intro H. unfold canMakeRequest. apply Nat.leb_le in H. rewrite H.
  repeat split.
Qed.

(** C9, as the code has it.  [getUsageStats] passes the five fields of
    the usage record through and adds two: [cacheHitRate], the number 0
    when there are no requests and otherwise the text of
    [(cachedHits / totalRequests) * 100] with one fractional digit; and
    [estimatedCost], the text of [costEstimate] with six fractional
    digits. *)
Theorem getUsageStats_fields cm :
  let u := usageStats cm in
  let st := getUsageStats cm in
  stats_totalRequests st = totalRequests u /\
  stats_cachedHits st = cachedHits u /\
  stats_dailyRequests st = dailyRequests u /\
  stats_lastReset st = lastReset u /\
  stats_costEstimate st = costEstimate u /\
  estimatedCost st = Num.toFixed 6 (costEstimate u) /\
  (totalRequests u = 0 -> cacheHitRate st = Some (Num.Number 0%float)) /\
  (0 < totalRequests u ->
     cacheHitRate st
     = option_map Num.Text
         (Num.toFixed 1
            (Num.of_nat (cachedHits u) / Num.of_nat (totalRequests u) * 100)%float) /\
     (forall x, cacheHitRate st <> Some (Num.Number x)) /\
     (forall s, cacheHitRate st = Some (Num.Text s) ->
                Num.fixed_notation 1 s \/ Num.not_a_finite_number s)).
Proof.
  cbv zeta. unfold getUsageStats. simpl.
  do 6 (split; [ reflexivity | ]). split.
  - intros ->. reflexivity.
  - intro Hpos. apply Nat.ltb_lt in Hpos. rewrite Hpos. split; [ reflexivity | ]. split.
    + intro x. destruct (Num.toFixed 1 _); discriminate.
    + intros s Hs.
      destruct (Num.toFixed 1 _) as [ s' | ] eqn:E; [ | discriminate ].
      injection Hs as <-. apply (toFixed_shape 1 _ s' (Nat.lt_0_1) E).
Qed.

End Governor.

Lemma governor_keeps_stale_daily_count_witness :
  let cm := CacheManager.with_usage Harness.spent_yesterday
              (Harness.blank_manager Harness.yesterday) in
  CacheManager.lastReset (CacheManager.usageStats cm) <> Harness.today /\
  Config.MAX_DAILY_REQUESTS Config.shipped
    <= CacheManager.dailyRequests (CacheManager.usageStats cm) /\
  CacheManager.canMakeRequest Config.shipped 86400000 cm = false /\
  CacheManager.stats_dailyRequests (CacheManager.getUsageStats cm) = 100.
Proof.
  cbv zeta. split; [ discriminate | ].
  assert (Config.MAX_DAILY_REQUESTS Config.shipped
          <= CacheManager.dailyRequests
               (CacheManager.usageStats
                  (CacheManager.with_usage Harness.spent_yesterday
                     (Harness.blank_manager Harness.yesterday)))) as Hspent
    by (apply Nat.leb_le; reflexivity).
  split; [ exact Hspent | ].
  pose proof (governor_keeps_stale_daily_count Config.shipped 86400000 0
                (CacheManager.with_usage Harness.spent_yesterday
                   (Harness.blank_manager Harness.yesterday))
                Harness.blank_disk Hspent) as (Hgate & _ & _ & Hstats & _).
  split; [ exact Hgate | exact Hstats ].
Defined.

(** C9 as stated fails: with one hit for two requests the rate is the
    text "50.0", a percentage, and not the quotient one half. *)
Lemma cacheHitRate_is_percent_text_counterexample :
  let cm := CacheManager.with_usage Harness.one_hit_in_two
              (Harness.blank_manager Harness.today) in
  CacheManager.cacheHitRate (CacheManager.getUsageStats cm) = Some (Num.Text "50.0") /\
  CacheManager.cacheHitRate (CacheManager.getUsageStats cm)
    <> Some (Num.Number (Num.of_nat 1 / Num.of_nat 2)%float).
Proof.
  cbv zeta. split.
  - vm_compute. reflexivity.
  - vm_compute. discriminate.
Qed.

(** ** The credential-rotating dispatcher *)

Section Rotation.
Import JS Service.
Variable remote : Remote.
Variable payload : string.

Lemma postWithKeyRotation_step attempt s :
  postWithKeyRotation remote payload attempt s =
    if List.length (apiKeys s) <=? attempt then (Throw exhausted, s, [])
    else
      let call := {| attemptNo := attempt; keyIndex := currentKeyIndex s;
                     keyUsed := getCurrentApiKey s; timeout := TIMEOUT |} in
      match remote payload attempt (getCurrentApiKey s) with
      | Return response => (Return response, s, [call])
      | Throw _ =>
          let '(r, s', calls) :=
            postWithKeyRotation remote payload (S attempt) (rotateApiKey s) in
          (r, s', call :: calls)
      end.
Proof.
  rewrite postWithKeyRotation_unfold_eq. unfold postWithKeyRotation_unfold.
  destruct (le_lt_dec (List.length (apiKeys s)) attempt) as [Hle | Hlt]; simpl.
  - rewrite (proj2 (Nat.leb_le _ _) Hle). reflexivity.
  - rewrite (proj2 (Nat.leb_gt _ _) Hlt).
    destruct (remote payload attempt (getCurrentApiKey s)); simpl; reflexivity.
Qed.

Lemma cursor_after_0 s :
  currentKeyIndex s < List.length (apiKeys s) ->
  Harness.cursor_after s 0 = currentKeyIndex s.
Proof.
  intro H. unfold Harness.cursor_after. rewrite Nat.add_0_r. apply Nat.mod_small. exact H.
Qed.

Lemma cursor_after_rotate s i :
  Harness.cursor_after (rotateApiKey s) i = Harness.cursor_after s (S i).
Proof.
  unfold Harness.cursor_after, rotateApiKey. simpl.
  rewrite Nat.Div0.add_mod_idemp_l. f_equal. lia.
Qed.

Lemma call_after_rotate a s i :
  Harness.call_after (S a) (rotateApiKey s) i = Harness.call_after a s (S i).
Proof.
  unfold Harness.call_after, Harness.key_after. rewrite cursor_after_rotate.
  simpl. f_equal. lia.
Qed.

Lemma moved_to_same s : Harness.moved_to (currentKeyIndex s) s = s.
Proof. destruct s. reflexivity. Qed.

Lemma call_after_0 a s :
  currentKeyIndex s < List.length (apiKeys s) ->
  Harness.call_after a s 0
  = {| attemptNo := a; keyIndex := currentKeyIndex s; keyUsed := getCurrentApiKey s;
       timeout := TIMEOUT |}.
Proof.
  intro H. unfold Harness.call_after, Harness.key_after, getCurrentApiKey.
  rewrite cursor_after_0 by exact H. rewrite Nat.add_0_r. reflexivity.
Qed.

Lemma rotate_in_range s :
  0 < List.length (apiKeys s) ->
  currentKeyIndex (rotateApiKey s) < List.length (apiKeys (rotateApiKey s)).
Proof. intro H. simpl. apply Nat.mod_upper_bound. lia. Qed.

Lemma calls_shift a s n :
  Harness.call_after a s 0 :: map (Harness.call_after (S a) (rotateApiKey s)) (seq 0 n)
  = map (Harness.call_after a s) (seq 0 (S n)).
Proof.
  simpl. f_equal. rewrite <- seq_shift, map_map.
  apply map_ext. intro i. apply call_after_rotate.
Qed.

(** [n] rejected attempts followed by an accepted one. *)
Lemma post_succeeds_after n :
  forall a s response,
    a + n < List.length (apiKeys s) ->
    currentKeyIndex s < List.length (apiKeys s) ->
    (forall i, i < n -> Harness.rejects (remote payload (a + i) (Harness.key_after s i))) ->
    remote payload (a + n) (Harness.key_after s n) = Return response ->
    postWithKeyRotation remote payload a s
    = (Return response, Harness.moved_to (Harness.cursor_after s n) s,
       map (Harness.call_after a s) (seq 0 (S n))).
Proof.
  induction n as [ | n IH ]; intros a s response Ha Hc Hfail Hok;
    rewrite postWithKeyRotation_step;
    rewrite (proj2 (Nat.leb_gt _ _)) by lia; cbv zeta.
  - unfold Harness.key_after in Hok. rewrite cursor_after_0 in Hok by exact Hc.
    rewrite Nat.add_0_r in Hok. unfold getCurrentApiKey at 1. rewrite Hok.
    rewrite cursor_after_0 by exact Hc. rewrite moved_to_same.
    simpl map. rewrite call_after_0 by exact Hc. reflexivity.
  - destruct (Hfail 0 ltac:(lia)) as [e He].
    unfold Harness.key_after in He. rewrite cursor_after_0 in He by exact Hc.
    rewrite Nat.add_0_r in He. unfold getCurrentApiKey at 1. rewrite He.
    rewrite (IH (S a) (rotateApiKey s) response).
    + rewrite cursor_after_rotate. rewrite <- call_after_0 by exact Hc.
      rewrite calls_shift. reflexivity.
    + simpl. lia.
    + apply rotate_in_range. lia.
    + intros i Hi. unfold Harness.key_after. rewrite cursor_after_rotate.
      replace (S a + i) with (a + S i) by lia. apply (Hfail (S i)). lia.
    + unfold Harness.key_after. rewrite cursor_after_rotate.
      replace (S a + n) with (a + S n) by lia. exact Hok.
Qed.

(** Rejected attempts up to the size of the pool. *)
Lemma post_exhausts_after n :
  forall a s,
    a + n = List.length (apiKeys s) ->
    currentKeyIndex s < List.length (apiKeys s) ->
    (forall i, i < n -> Harness.rejects (remote payload (a + i) (Harness.key_after s i))) ->
    postWithKeyRotation remote payload a s
    = (Throw exhausted, Harness.moved_to (Harness.cursor_after s n) s,
       map (Harness.call_after a s) (seq 0 n)).
Proof.
  induction n as [ | n IH ]; intros a s Ha Hc Hfail; rewrite postWithKeyRotation_step.
  - rewrite (proj2 (Nat.leb_le _ _)) by lia.
    rewrite cursor_after_0 by exact Hc. rewrite moved_to_same. reflexivity.
  - rewrite (proj2 (Nat.leb_gt _ _)) by lia. cbv zeta.
    destruct (Hfail 0 ltac:(lia)) as [e He].
    unfold Harness.key_after in He. rewrite cursor_after_0 in He by exact Hc.
    rewrite Nat.add_0_r in He. unfold getCurrentApiKey at 1. rewrite He.
    rewrite (IH (S a) (rotateApiKey s)).
    + rewrite cursor_after_rotate. rewrite <- call_after_0 by exact Hc.
      rewrite calls_shift. reflexivity.
    + simpl. lia.
    + apply rotate_in_range. lia.
    + intros i Hi. unfold Harness.key_after. rewrite cursor_after_rotate.
      replace (S a + i) with (a + S i) by lia. apply (Hfail (S i)). lia.
Qed.

Lemma cursor_after_unfold s i :
  currentKeyIndex s < List.length (apiKeys s) ->
  i < List.length (apiKeys s) ->
  Harness.cursor_after s i
  = if currentKeyIndex s + i <? List.length (apiKeys s)
    then currentKeyIndex s + i
    else currentKeyIndex s + i - List.length (apiKeys s).
Proof.
  intros Hc Hi. unfold Harness.cursor_after.
  destruct (currentKeyIndex s + i <? List.length (apiKeys s)) eqn:E.
  - apply Nat.ltb_lt in E. apply Nat.mod_small. exact E.
  - apply Nat.ltb_ge in E. symmetry.
    apply (Nat.mod_unique _ _ 1); lia.
Qed.

(** Over one round the cursor visits pairwise distinct positions... *)
Lemma cursors_distinct s :
  currentKeyIndex s < List.length (apiKeys s) ->
  NoDup (map (Harness.cursor_after s) (seq 0 (List.length (apiKeys s)))).
Proof.
  intro Hc. apply Finite.Injective_map_NoDup_in; [ | apply seq_NoDup ].
  intros i i' Hi Hi' Heq. apply in_seq in Hi, Hi'.
  rewrite !cursor_after_unfold in Heq by lia.
  destruct (currentKeyIndex s + i <? List.length (apiKeys s)) eqn:E;
    destruct (currentKeyIndex s + i' <? List.length (apiKeys s)) eqn:E';
    try apply Nat.ltb_lt in E; try apply Nat.ltb_ge in E;
    try apply Nat.ltb_lt in E'; try apply Nat.ltb_ge in E'; lia.
Qed.

(** ... that is, every position of the pool exactly once. *)
Lemma cursors_cover_pool s :
  currentKeyIndex s < List.length (apiKeys s) ->
  Permutation (map (Harness.cursor_after s) (seq 0 (List.length (apiKeys s))))
              (seq 0 (List.length (apiKeys s))).
Proof.
  intro Hc. apply NoDup_Permutation_bis.
  - apply cursors_distinct. exact Hc.
  - rewrite length_map. apply Nat.le_refl.
  - intros x Hx. apply in_map_iff in Hx as (i & <- & Hi). apply in_seq.
    unfold Harness.cursor_after. split; [ lia | ].
    simpl. apply Nat.mod_upper_bound. lia.
Qed.

Lemma keyIndex_call_after a s l :
  map keyIndex (map (Harness.call_after a s) l) = map (Harness.cursor_after s) l.
Proof. rewrite map_map. reflexivity. Qed.

(** C1.  For a pool of [K >= 1] credentials and a cursor inside it: if
    the endpoint rejects the first [j < K] attempts and accepts the next,
    the send returns that response after [j + 1] requests, with the
    cursor [j] positions further round the pool; if it rejects [K]
    attempts, the send throws the exhaustion error after exactly [K]
    requests, which used every position of the pool once, and the cursor
    is back where it started. *)
Theorem send_rotates_through_pool s :
  1 <= List.length (apiKeys s) ->
  currentKeyIndex s < List.length (apiKeys s) ->
  (forall j response,
      j < List.length (apiKeys s) ->
      (forall i, i < j -> Harness.rejects (remote payload i (Harness.key_after s i))) ->
      remote payload j (Harness.key_after s j) = Return response ->
      exists calls,
        postWithKeyRotation remote payload 0 s
        = (Return response,
           Harness.moved_to
             ((currentKeyIndex s + j) mod List.length (apiKeys s)) s,
           calls) /\
        List.length calls = S j /\
        calls = map (Harness.call_after 0 s) (seq 0 (S j)))
  /\
  ((forall i, i < List.length (apiKeys s) ->
              Harness.rejects (remote payload i (Harness.key_after s i))) ->
   exists calls,
     postWithKeyRotation remote payload 0 s = (Throw exhausted, s, calls) /\
     List.length calls = List.length (apiKeys s) /\
     calls = map (Harness.call_after 0 s) (seq 0 (List.length (apiKeys s))) /\
     Permutation (map keyIndex calls) (seq 0 (List.length (apiKeys s)))).
Proof.
  intros HK Hc. split.
  - intros j response Hj Hfail Hok. eexists. split; [ | split; [ | reflexivity ] ].
    + apply (post_succeeds_after j 0 s response); assumption.
    + rewrite length_map, length_seq. reflexivity.
  - intro Hfail. eexists. split; [ | split; [ | split; [ reflexivity | ] ] ].
    + rewrite (post_exhausts_after (List.length (apiKeys s)) 0 s); try assumption;
        [ | reflexivity ].
      unfold Harness.cursor_after.
      replace (currentKeyIndex s + List.length (apiKeys s))
        with (currentKeyIndex s + 1 * List.length (apiKeys s)) by lia.
      rewrite Nat.Div0.mod_add.
      rewrite Nat.mod_small by exact Hc. rewrite moved_to_same. reflexivity.
    + rewrite length_map, length_seq. reflexivity.
    + rewrite keyIndex_call_after. apply cursors_cover_pool. exact Hc.
Qed.

End Rotation.

Lemma send_rotates_through_pool_witness :
  let s := Harness.moved_to 1 Harness.three_keys in
  let remote := Harness.flaky 2 (Harness.answer "npm install" 12) in
  1 <= List.length (Service.apiKeys s) /\
  Service.currentKeyIndex s < List.length (Service.apiKeys s) /\
  exists calls,
    Service.postWithKeyRotation remote "prompt" 0 s
    = (JS.Return (Harness.answer "npm install" 12), Harness.moved_to 0 s, calls) /\
    List.length calls = 3 /\
    calls = map (Harness.call_after 0 s) (seq 0 3).
Proof.
  cbv zeta.
  assert (1 <= List.length (Service.apiKeys (Harness.moved_to 1 Harness.three_keys)))
    as HK by (simpl; lia).
  assert (Service.currentKeyIndex (Harness.moved_to 1 Harness.three_keys)
          < List.length (Service.apiKeys (Harness.moved_to 1 Harness.three_keys)))
    as Hc by (simpl; lia).
  split; [ exact HK | ]. split; [ exact Hc | ].
  apply (proj1 (send_rotates_through_pool
                  (Harness.flaky 2 (Harness.answer "npm install" 12)) "prompt"
                  (Harness.moved_to 1 Harness.three_keys) HK Hc)
           2 (Harness.answer "npm install" 12)).
  - simpl. lia.
  - intros i Hi. eexists. unfold Harness.flaky.
    rewrite (proj2 (Nat.ltb_lt _ _) Hi). reflexivity.
  - reflexivity.
Defined.

(** ** The orchestrator: direct matches *)

Lemma filter_head_find {A : Type} (p : A -> bool) (l : list A) :
  match find p l with
  | Some x => exists r, filter p l = x :: r
  | None => filter p l = []
  end.
Proof.
  induction l as [ | a l IH ]; simpl.
  - reflexivity.
  - destruct (p a).
    + exists (filter p l). reflexivity.
    + exact IH.
Qed.

Section DirectMatch.
Import JS Service.
Variable cfg : Config.t.

(** [get] leaves everything but the hit counter as it was. *)
Lemma get_frame now input cm :
  let cm' := snd (CacheManager.get cfg now input cm) in
  CacheManager.cache cm' = CacheManager.cache cm /\
  CacheManager.lastRequestTime cm' = CacheManager.lastRequestTime cm /\
  CacheManager.totalRequests (CacheManager.usageStats cm')
    = CacheManager.totalRequests (CacheManager.usageStats cm) /\
  CacheManager.dailyRequests (CacheManager.usageStats cm')
    = CacheManager.dailyRequests (CacheManager.usageStats cm) /\
  CacheManager.costEstimate (CacheManager.usageStats cm')
    = CacheManager.costEstimate (CacheManager.usageStats cm) /\
  CacheManager.lastReset (CacheManager.usageStats cm')
    = CacheManager.lastReset (CacheManager.usageStats cm).
Proof.
  cbv zeta. unfold CacheManager.get.
  destruct (negb (Config.ENABLE_CACHE cfg)); [ repeat split | ].
  destruct (JSMap.get (CacheManager.getCacheKey input) (CacheManager.cache cm))
    as [ cached | ]; [ | repeat split ].
  destruct (now - CacheManager.timestamp cached <? Config.CACHE_DURATION cfg)%Z;
    repeat split.
Qed.

Lemma canMakeRequest_after_get now now' input cm :
  CacheManager.canMakeRequest cfg now' (snd (CacheManager.get cfg now input cm))
  = CacheManager.canMakeRequest cfg now' cm.
Proof.
  destruct (get_frame now input cm) as (_ & Ht & _ & Hd & _).
  unfold CacheManager.canMakeRequest. rewrite Ht, Hd. reflexivity.
Qed.

(** C5.  Whatever [config] evaluates to inside the context manager:
    when the request reaches the context step (suggestions are on,
    the trimmed input is long enough, the cache has no non-empty answer
    and the governor lets the request pass) and some canonical command of
    the classified directory type starts, case-folded, with the
    case-folded input, the orchestrator returns the first such command,
    sends nothing to the endpoint, and leaves the cache map, the request
    counters, the cost estimate, the time of the last request, the disk
    and the credential cursor as they were. *)
Theorem direct_match_short_circuits config probe clock remote userInput s d cmd :
  Config.ENABLE_SUGGESTIONS cfg = true ->
  Config.MIN_INPUT_LENGTH cfg <= String.length (trim userInput) ->
  (fst (CacheManager.get cfg (now_get clock) userInput (cacheManager s)) = None \/
   fst (CacheManager.get cfg (now_get clock) userInput (cacheManager s)) = Some EmptyString) ->
  CacheManager.canMakeRequest cfg (now_gate clock) (cacheManager s) = true ->
  let snapshot := ContextManager.updateContext probe (contextManager s) in
  In cmd (ContextManager.getRelevantCommands snapshot) ->
  Harness.completes userInput cmd = true ->
  exists first s',
    find (Harness.completes userInput) (ContextManager.getRelevantCommands snapshot)
      = Some first /\
    getCommandSuggestion cfg (ContextManager.getContextualSuggestion config probe)
      clock remote userInput s d
      = (Some first, s', d, []) /\
    contextManager s' = snapshot /\
    currentKeyIndex s' = currentKeyIndex s /\
    CacheManager.cache (cacheManager s') = CacheManager.cache (cacheManager s) /\
    CacheManager.lastRequestTime (cacheManager s')
      = CacheManager.lastRequestTime (cacheManager s) /\
    CacheManager.totalRequests (CacheManager.usageStats (cacheManager s'))
      = CacheManager.totalRequests (CacheManager.usageStats (cacheManager s)) /\
    CacheManager.dailyRequests (CacheManager.usageStats (cacheManager s'))
      = CacheManager.dailyRequests (CacheManager.usageStats (cacheManager s)) /\
    CacheManager.costEstimate (CacheManager.usageStats (cacheManager s'))
      = CacheManager.costEstimate (CacheManager.usageStats (cacheManager s)).
Proof.
  intros Hon Hlen Hmiss Hgate snapshot Hin Hpre.
  pose proof (filter_head_find (Harness.completes userInput)
                (ContextManager.getRelevantCommands snapshot)) as Hfind.
  destruct (find (Harness.completes userInput)
              (ContextManager.getRelevantCommands snapshot)) as [ first | ] eqn:Efind.
  2:{ exfalso. apply (find_none _ _ Efind) in Hin. congruence. }
  destruct Hfind as [rest Hfilter].
  exists first.
  unfold getCommandSuggestion.
  rewrite Hon. cbn [negb].
  rewrite (proj2 (Nat.ltb_ge _ _) Hlen).
  pose proof (get_frame (now_get clock) userInput (cacheManager s)) as Hframe.
  pose proof (canMakeRequest_after_get (now_get clock) (now_gate clock) userInput
                (cacheManager s)) as Hgate'.
  destruct (CacheManager.get cfg (now_get clock) userInput (cacheManager s))
    as [cached cm1].
  cbn [fst snd] in *. rewrite Hgate in Hgate'.
  assert (match cached with Some (String _ _) => False | _ => True end) as Hcached
    by (destruct Hmiss as [-> | ->]; exact I).
  destruct cached as [ [ | c r ] | ]; try contradiction; rewrite Hgate'; cbn [negb];
    unfold ContextManager.getContextualSuggestion, ContextManager.matchingCommands;
    cbn [contextManager with_cacheManager];
    fold snapshot; change (fun cmd0 => startsWith (toLowerCase cmd0) (toLowerCase userInput))
      with (Harness.completes userInput); rewrite Hfilter;
    eexists; (split; [ reflexivity | ]); (split; [ reflexivity | ]);
    cbn [contextManager currentKeyIndex cacheManager with_contextManager with_cacheManager];
    repeat split; apply Hframe.
Qed.

End DirectMatch.

Lemma direct_match_short_circuits_witness :
  let s := Harness.three_keys in
  let clock := Harness.clock_at 1000000 in
  exists first s',
    find (Harness.completes "git") (ContextManager.getRelevantCommands
            (ContextManager.updateContext Harness.git_checkout (Service.contextManager s)))
      = Some first /\
    Service.getCommandSuggestion_linked Config.shipped Harness.git_checkout clock
      (Harness.flaky 0 (Harness.answer "git stash" 9)) "git" s Harness.blank_disk
      = (Some first, s', Harness.blank_disk, []) /\
    first = "git status".
Proof.
  cbv zeta.
  destruct (direct_match_short_circuits Config.shipped ContextManager.module_config
              Harness.git_checkout
              (Harness.clock_at 1000000) (Harness.flaky 0 (Harness.answer "git stash" 9))
              "git" Harness.three_keys Harness.blank_disk "git status"
              eq_refl (le_n 3) (or_introl eq_refl) eq_refl (or_introl eq_refl) eq_refl)
    as (first & s' & Hfind & Hrun & _).
  exists first, s'. split; [ exact Hfind | ]. split; [ exact Hrun | ].
  vm_compute in Hfind. injection Hfind as <-. reflexivity.
Defined.

(** ** The send and the managers *)

(** [if (cachedSuggestion)] passes over [null] and the empty string. *)
Lemma falsy_skips (A : Type) (cached : option string) (f : ascii -> string -> A) (y : A) :
  cached = None \/ cached = Some EmptyString ->
  match cached with
  | Some (String c r) => f c r
  | _ => y
  end = y.
Proof. intros [-> | ->]; reflexivity. Qed.

Section Acceptance.
Import JS Service.

(** A send moves the cursor and touches nothing else. *)
Lemma post_moves_cursor_only remote payload n :
  forall a s,
    List.length (apiKeys s) - a <= n ->
    snd (fst (postWithKeyRotation remote payload a s))
    = Harness.moved_to
        (currentKeyIndex (snd (fst (postWithKeyRotation remote payload a s)))) s.
Proof.
  induction n as [ | n IH ]; intros a s Hn; rewrite postWithKeyRotation_step.
  - rewrite (proj2 (Nat.leb_le _ _)) by lia. simpl. symmetry. apply moved_to_same.
  - destruct (List.length (apiKeys s) <=? a) eqn:E.
    + simpl. symmetry. apply moved_to_same.
    + apply Nat.leb_gt in E. cbv zeta.
      destruct (remote payload a (getCurrentApiKey s)).
      * simpl. symmetry. apply moved_to_same.
      * specialize (IH (S a) (rotateApiKey s) ltac:(simpl; lia)).
        destruct (postWithKeyRotation remote payload (S a) (rotateApiKey s))
          as [[r s'] calls].
        cbn [fst snd] in *. rewrite IH. destruct s. reflexivity.
Qed.

Lemma post_keeps_managers remote payload s r s' calls :
  postWithKeyRotation remote payload 0 s = (r, s', calls) ->
  cacheManager s' = cacheManager s /\ contextManager s' = contextManager s
  /\ apiKeys s' = apiKeys s.
Proof.
  intro H.
  pose proof (post_moves_cursor_only remote payload (List.length (apiKeys s)) 0 s
                ltac:(lia)) as Hm.
  rewrite H in Hm. cbn [fst snd] in Hm. rewrite Hm. repeat split.
Qed.

End Acceptance.

(** ** The prompt builder *)

Section Prompt.
Import JS ContextManager.
Local Open Scope string_scope.

Lemma string_app_assoc (a b c : string) : (a ++ b) ++ c = a ++ b ++ c.
Proof. induction a as [ | x a IH ]; simpl; [ reflexivity | rewrite IH; reflexivity ]. Qed.

Lemma prefix_app (x r : string) : String.prefix x (x ++ r) = true.
Proof.
  induction x as [ | a x IH ]; simpl.
  - destruct r; reflexivity.
  - destruct (ascii_dec a a) as [ _ | Hne ]; [ exact IH | congruence ].
Qed.

Lemma includes_unfold (s sub : string) :
  includes s sub
  = (String.prefix sub s
     || match s with
        | EmptyString => false
        | String _ r => includes r sub
        end)%bool.
Proof. destruct s; reflexivity. Qed.

Lemma includes_here (x r : string) : includes (x ++ r) x = true.
Proof. rewrite includes_unfold, prefix_app. reflexivity. Qed.

Lemma includes_self (x : string) : includes x x = true.
Proof.
  rewrite includes_unfold.
  replace (String.prefix x x) with true; [ reflexivity | ].
  symmetry. induction x as [ | a x IH ]; simpl; [ reflexivity | ].
  destruct (ascii_dec a a) as [ _ | Hne ]; [ exact IH | congruence ].
Qed.

Lemma includes_skip (p s x : string) : includes s x = true -> includes (p ++ s) x = true.
Proof.
  intro H. induction p as [ | a p IH ]; simpl; [ exact H | ].
  rewrite IH. apply orb_true_r.
Qed.

End Prompt.

Create HintDb prompt.
#[local] Hint Resolve includes_here includes_self includes_skip : prompt.

Section PromptLayout.
Import JS ContextManager.
Local Open Scope string_scope.

(** The layout of the prompt.  Where [config] evaluates to a value, the
    prompt is returned, and where it throws the builder throws; the
    prompt is made of seven pieces in this order: directory, repository,
    package, recent commands, counts, user input, instruction.  The
    directory name, the user input and the length cap are always there.
    Of a repository the branch is named, and the dirty flag only when
    there are changes; of a package the name is given, and the number of
    scripts only when there is one; the recent commands are the three
    newest, and the piece is empty when there is none; the counts of
    files and folders appear when either is positive, and the piece is
    empty when both are zero.  Outside a repository or without a package
    the piece is empty. *)
Theorem prompt_is_laid_out_in_order (userInput : string) (cm : t) :
  let c := getContextSummary cm in
  (forall config,
      buildContextPrompt config userInput cm
      = match config with
        | Return c0 =>
            Return (directoryPart c ++ gitPart c ++ nodePart c ++ recentPart c
                    ++ countsPart c ++ inputPart userInput ++ instructionPart c0)
        | Throw e => Throw e
        end)
  /\ includes (directoryPart c) (basename (currentDirectory cm)) = true
  /\ includes (inputPart userInput) userInput = true
  /\ (forall c0,
        includes (instructionPart c0) (show_nat (Config.MAX_SUGGESTION_LENGTH c0)) = true)
  /\ (forall hasChanges changes branch,
        gitContext cm = Some (Repo hasChanges changes branch) ->
        includes (gitPart c) branch = true /\
        gitPart c
        = "Git repo on branch " ++ dq ++ branch ++ dq ++ ". "
          ++ (if hasChanges then "Has uncommitted changes. " else ""))
  /\ (isGitRepo (gitContext cm) = false -> gitPart c = "")
  /\ (forall pkgName scripts deps devDeps,
        nodeContext cm = Some (Package pkgName scripts deps devDeps) ->
        includes (nodePart c) (show pkgName) = true /\
        (scripts <> [] ->
         includes (nodePart c) (show_nat (List.length scripts)) = true) /\
        (scripts = [] ->
         nodePart c = "Node.js project " ++ dq ++ show pkgName ++ dq ++ ". "))
  /\ (hasPackageJson (nodeContext cm) = false -> nodePart c = "")
  /\ (recentCommands cm <> [] ->
        includes (recentPart c) (String.concat ", " (firstn 3 (recentCommands cm))) = true)
  /\ (recentCommands cm = [] -> recentPart c = "")
  /\ (0 < files c \/ 0 < directories c ->
        includes (countsPart c) (show_nat (files c)) = true /\
        includes (countsPart c) (show_nat (directories c)) = true)
  /\ (files c = 0 -> directories c = 0 -> countsPart c = "").
Proof.
  cbv zeta. split; [ | split; [ | split; [ | split; [ | split; [ | split;
    [ | split; [ | split; [ | split; [ | split; [ | split ] ] ] ] ] ] ] ] ] ].
  - intros [ c0 | e ]; [ | reflexivity ].
    unfold buildContextPrompt, promptBeforeInstruction.
    rewrite !string_app_assoc. reflexivity.
  - unfold directoryPart. simpl directory. auto 6 with prompt.
  - unfold inputPart. auto 6 with prompt.
  - intro c0. unfold instructionPart. auto 6 with prompt.
  - intros hc ch br Hgit. unfold gitPart. simpl summaryGit. rewrite Hgit.
    split; [ auto 6 with prompt | reflexivity ].
  - intro Hno. unfold gitPart. simpl summaryGit.
    destruct (gitContext cm) as [ [ | ? ? ? ] | ]; try reflexivity. discriminate.
  - intros pkgName scripts deps devDeps Hnode. unfold nodePart. simpl summaryNode.
    rewrite Hnode. split; [ auto 6 with prompt | ]. split.
    + intro Hne. destruct scripts as [ | x xs ]; [ congruence | ].
      cbn [List.length Nat.ltb Nat.leb]. auto 8 with prompt.
    + intros ->. reflexivity.
  - intro Hno. unfold nodePart. simpl summaryNode.
    destruct (nodeContext cm) as [ [ | ? ? ? ? ] | ]; try reflexivity. discriminate.
  - intro Hne. unfold recentPart. simpl summaryCommands.
    destruct (recentCommands cm) as [ | x xs ]; [ congruence | ].
    cbn [firstn List.length Nat.ltb Nat.leb]. auto 6 with prompt.
  - intro He. unfold recentPart. simpl summaryCommands. rewrite He. reflexivity.
  - intro Hpos. unfold countsPart.
    assert (((0 <? files (getContextSummary cm))%nat
             || (0 <? directories (getContextSummary cm))%nat)%bool = true) as ->.
    { apply orb_true_iff. destruct Hpos as [H | H]; [ left | right ];
        apply Nat.ltb_lt; exact H. }
    split; auto 8 with prompt.
  - intros Hf Hd. unfold countsPart. rewrite Hf, Hd. reflexivity.
Qed.

(** C3.  The module never binds [config], so the builder returns no
    prompt: for every input and every context its last template literal
    throws a [ReferenceError], after the other pieces were put together,
    and with it throws [getContextualSuggestion] on every input that has
    no direct match, whatever the directory holds. *)
Theorem buildContextPrompt_throws_as_shipped (userInput : string) (cm : t) :
  buildContextPrompt module_config userInput cm = Throw (ReferenceError "config") /\
  (forall probe,
      matchingCommands userInput (updateContext probe cm) = [] ->
      getContextualSuggestion module_config probe userInput cm
      = (Throw (ReferenceError "config"), updateContext probe cm)) /\
  (forall probe prompt summary,
      fst (getContextualSuggestion module_config probe userInput cm)
      <> Return (Prompted prompt summary)).
Proof.
  split; [ reflexivity | ]. split.
  - intros probe Hnone. unfold getContextualSuggestion. rewrite Hnone. reflexivity.
  - intros probe prompt summary. unfold getContextualSuggestion.
    destruct (matchingCommands userInput (updateContext probe cm)); discriminate.
Qed.

End PromptLayout.

(** ** The service linked with the context manager as shipped *)

(** X1.  Since the prompt builder throws, a request that finds no direct
    match ends in the orchestrator's [catch]: the service as shipped
    never sends anything to the endpoint, and never writes the cache
    file or the usage file. *)
Theorem shipped_service_never_dispatches cfg probe clock remote userInput s d :
  exists result s',
    Service.getCommandSuggestion_linked cfg probe clock remote userInput s d
    = (result, s', d, []).
Proof.
  unfold Service.getCommandSuggestion_linked, Service.getCommandSuggestion.
  destruct (negb (Config.ENABLE_SUGGESTIONS cfg)); [ do 2 eexists; reflexivity | ].
  destruct (String.length (JS.trim userInput) <? Config.MIN_INPUT_LENGTH cfg);
    [ do 2 eexists; reflexivity | ].
  destruct (CacheManager.get cfg (Service.now_get clock) userInput (Service.cacheManager s))
    as [cached cm1].
  destruct cached as [ [ | c r ] | ]; try (do 2 eexists; reflexivity);
    (destruct (negb (CacheManager.canMakeRequest cfg (Service.now_gate clock) cm1));
     [ do 2 eexists; reflexivity | ]);
    unfold ContextManager.getContextualSuggestion;
    destruct (ContextManager.matchingCommands userInput _);
    do 2 eexists; reflexivity.
Qed.

(** * Further properties of the code *)

(** ** Cache keys *)

Section KeyNormalization.
Import JS.
Local Open Scope string_scope.

Lemma whitespace_lower (c : ascii) : is_whitespace (lower_char c) = is_whitespace c.
Proof. destruct c as [[] [] [] [] [] [] [] []]; reflexivity. Qed.

Lemma lower_lower (c : ascii) : lower_char (lower_char c) = lower_char c.
Proof. destruct c as [[] [] [] [] [] [] [] []]; reflexivity. Qed.

Lemma toLowerCase_idempotent (s : string) : toLowerCase (toLowerCase s) = toLowerCase s.
Proof.
  induction s as [ | c s IH ]; simpl; [ reflexivity | ].
  rewrite lower_lower, IH. reflexivity.
Qed.

Lemma toLowerCase_trimStart (s : string) :
  toLowerCase (trimStart s) = trimStart (toLowerCase s).
Proof.
  induction s as [ | c s IH ]; simpl; [ reflexivity | ].
  rewrite whitespace_lower. destruct (is_whitespace c); [ exact IH | reflexivity ].
Qed.

Lemma toLowerCase_trimEnd (s : string) :
  toLowerCase (trimEnd s) = trimEnd (toLowerCase s).
Proof.
  induction s as [ | c s IH ]; simpl; [ reflexivity | ].
  rewrite <- IH, whitespace_lower.
  destruct (trimEnd s) as [ | c' r ]; simpl; [ | reflexivity ].
  destruct (is_whitespace c); reflexivity.
Qed.

Lemma toLowerCase_trim (s : string) : toLowerCase (trim s) = trim (toLowerCase s).
Proof. unfold trim. rewrite toLowerCase_trimEnd, toLowerCase_trimStart. reflexivity. Qed.

(** A string that does not begin with white space. *)
Let clean_start (s : string) : Prop :=
  match s with
  | EmptyString => True
  | String c _ => is_whitespace c = false
  end.

Lemma trimStart_clean (s : string) : clean_start (trimStart s).
Proof.
  induction s as [ | c s IH ]; simpl; [ exact I | ].
  destruct (is_whitespace c) eqn:E; [ exact IH | exact E ].
Qed.

Lemma trimStart_of_clean (s : string) : clean_start s -> trimStart s = s.
Proof. destruct s as [ | c s ]; simpl; [ reflexivity | intros -> ; reflexivity ]. Qed.

Lemma trimEnd_keeps_clean (s : string) : clean_start s -> clean_start (trimEnd s).
Proof.
  destruct s as [ | c s ]; simpl; [ exact (fun H => H) | ].
  intro H. destruct (trimEnd s); simpl; [ rewrite H; exact H | exact H ].
Qed.

Lemma trimEnd_idempotent (s : string) : trimEnd (trimEnd s) = trimEnd s.
Proof.
  induction s as [ | c s IH ]; simpl; [ reflexivity | ].
  destruct (trimEnd s) as [ | c' r ] eqn:E.
  - destruct (is_whitespace c) eqn:Ec; simpl; [ reflexivity | rewrite Ec; reflexivity ].
  - change (trimEnd (String c (String c' r)))
      with (match trimEnd (String c' r) with
            | EmptyString => if is_whitespace c then EmptyString else String c EmptyString
            | String a r' => String c (String a r')
            end).
    rewrite IH. reflexivity.
Qed.

Lemma trim_idempotent (s : string) : trim (trim s) = trim s.
Proof.
  unfold trim.
  rewrite (trimStart_of_clean (trimEnd (trimStart s)))
    by (apply trimEnd_keeps_clean, trimStart_clean).
  apply trimEnd_idempotent.
Qed.

Lemma trimStart_padding (pre s : string) :
  Scenario.all_whitespace pre = true -> trimStart (pre ++ s) = trimStart s.
Proof.
  induction pre as [ | c pre IH ]; simpl; [ reflexivity | ].
  intro H. apply andb_true_iff in H as [Hc Hpre]. rewrite Hc. apply IH. exact Hpre.
Qed.

Lemma trimEnd_all_whitespace (post : string) :
  Scenario.all_whitespace post = true -> trimEnd post = "".
Proof.
  induction post as [ | c post IH ]; simpl; [ reflexivity | ].
  intro H. apply andb_true_iff in H as [Hc Hpost]. rewrite IH by exact Hpost.
  rewrite Hc. reflexivity.
Qed.

Lemma trimEnd_padding (s post : string) :
  Scenario.all_whitespace post = true -> trimEnd (s ++ post) = trimEnd s.
Proof.
  intro H. induction s as [ | c s IH ]; simpl.
  - apply trimEnd_all_whitespace. exact H.
  - rewrite IH. reflexivity.
Qed.

Lemma trimStart_app_clean (s post : string) :
  trimStart s <> "" -> trimStart (s ++ post) = trimStart s ++ post.
Proof.
  induction s as [ | c s IH ]; simpl; [ congruence | ].
  destruct (is_whitespace c); [ exact IH | reflexivity ].
Qed.

Lemma trimStart_all_whitespace (s : string) :
  trimStart s = "" -> Scenario.all_whitespace s = true.
Proof.
  induction s as [ | c s IH ]; simpl; [ reflexivity | ].
  destruct (is_whitespace c); [ exact IH | discriminate ].
Qed.

Lemma all_whitespace_app (a b : string) :
  Scenario.all_whitespace a = true -> Scenario.all_whitespace b = true ->
  Scenario.all_whitespace (a ++ b) = true.
Proof.
  induction a as [ | c a IH ]; simpl; [ auto | ].
  intros H Hb. apply andb_true_iff in H as [Hc Ha]. rewrite Hc. simpl. auto.
Qed.

Lemma trim_padding (pre s post : string) :
  Scenario.all_whitespace pre = true ->
  Scenario.all_whitespace post = true ->
  trim (pre ++ s ++ post) = trim s.
Proof.
  intros Hpre Hpost. unfold trim. rewrite trimStart_padding by exact Hpre.
  destruct (trimStart s) as [ | c r ] eqn:E.
  - assert (Scenario.all_whitespace (s ++ post) = true) as Hall
      by (apply all_whitespace_app; [ apply trimStart_all_whitespace; exact E | exact Hpost ]).
    rewrite (trimEnd_all_whitespace (trimStart (s ++ post))).
    + reflexivity.
    + pose proof (trimStart_clean (s ++ post)) as Hc.
      destruct (trimStart (s ++ post)) as [ | c r ] eqn:E'; [ reflexivity | ].
      exfalso. clear - Hall E' Hc.
      revert Hall E'. generalize (s ++ post). intro t.
      induction t as [ | a t IH ]; simpl; [ discriminate | ].
      intro H. apply andb_true_iff in H as [Ha Ht]. rewrite Ha. apply IH. exact Ht.
  - rewrite trimStart_app_clean by congruence. rewrite E.
    apply trimEnd_padding. exact Hpost.
Qed.

(** X2.  The cache key ignores letter case and surrounding white space
    and is already normal: inputs with the same lower-case form share a
    key, padding an input with white space on either side keeps its key,
    and the key of a key is that key. *)
Theorem cache_key_is_normal_form (s : string) :
  CacheManager.getCacheKey (CacheManager.getCacheKey s) = CacheManager.getCacheKey s /\
  (forall s', toLowerCase s' = toLowerCase s ->
              CacheManager.getCacheKey s' = CacheManager.getCacheKey s) /\
  (forall pre post,
      Scenario.all_whitespace pre = true ->
      Scenario.all_whitespace post = true ->
      CacheManager.getCacheKey (pre ++ s ++ post) = CacheManager.getCacheKey s).
Proof.
  unfold CacheManager.getCacheKey. repeat split.
  - rewrite <- (toLowerCase_trim (trim s)), toLowerCase_idempotent, trim_idempotent.
    reflexivity.
  - intros s' H. rewrite !toLowerCase_trim, H. reflexivity.
  - intros pre post Hpre Hpost. rewrite trim_padding by assumption. reflexivity.
Qed.

End KeyNormalization.

(** ** The cache as a store *)

Section CacheStore.
Import CacheManager.
Variable cfg : Config.t.
Hypothesis enabled : Config.ENABLE_CACHE cfg = true.

Lemma get_absent_key {V : Type} (m : JSMap.t V) k :
  JSMap.has k m = false -> JSMap.get k m = None.
Proof. unfold JSMap.has. destruct (JSMap.get k m); [ discriminate | reflexivity ]. Qed.

(** X3.  With caching on, [set] stores the new entry under the key of the
    input whatever the state of the map, drops the first-inserted entry
    when the map holds [MAX_CACHE_SIZE] entries or more, and leaves the
    entry of every other key as it was. *)
Theorem set_changes_only_its_key_and_the_oldest now input sugg cm d :
  JSMap.wf (cache cm) ->
  let after := cache (fst (set cfg now input sugg cm d)) in
  JSMap.get (getCacheKey input) after
    = Some {| suggestion := sugg; timestamp := now |} /\
  forall k,
    k <> getCacheKey input ->
    JSMap.get k after
    = if (Config.MAX_CACHE_SIZE cfg <=? JSMap.size (cache cm))
         && match JSMap.first_key (cache cm) with
            | Some oldest => String.eqb k oldest
            | None => false
            end
      then None
      else JSMap.get k (cache cm).
Proof.
  intros Hwf after. split; [ apply set_stores_entry; exact enabled | ].
  intros k Hk. unfold after.
  rewrite (set_cache cfg enabled now input sugg cm d Hwf).
  rewrite get_set_other by congruence.
  destruct (Config.MAX_CACHE_SIZE cfg <=? JSMap.size (cache cm)); [ | reflexivity ].
  destruct (cache cm) as [ | [k0 e0] rest ]; [ reflexivity | ].
  cbn [tl JSMap.first_key andb JSMap.get].
  destruct (String.eqb k k0) eqn:E; [ | reflexivity ].
  apply String.eqb_eq in E. subst k0. apply get_absent_key.
  unfold JSMap.wf in Hwf. simpl in Hwf. apply andb_true_iff in Hwf as [H _].
  apply negb_true_iff. exact H.
Qed.

Lemma size_set_le {V : Type} (m : JSMap.t V) k v :
  JSMap.size (JSMap.set k v m) <= S (JSMap.size m).
Proof.
  destruct (JSMap.has k m) eqn:E.
  - rewrite !size_keys, keys_set_present by exact E. lia.
  - rewrite set_absent by exact E. unfold JSMap.size. rewrite length_app. simpl. lia.
Qed.

Lemma set_size_bound now input sugg cm d :
  1 <= Config.MAX_CACHE_SIZE cfg ->
  JSMap.wf (cache cm) ->
  JSMap.size (cache (fst (set cfg now input sugg cm d)))
  <= Nat.max (JSMap.size (cache cm)) (Config.MAX_CACHE_SIZE cfg).
Proof.
  intros Hmax Hwf. rewrite (set_cache cfg enabled now input sugg cm d Hwf).
  destruct (Config.MAX_CACHE_SIZE cfg <=? JSMap.size (cache cm)) eqn:E.
  - apply Nat.leb_le in E.
    destruct (cache cm) as [ | [k0 e0] rest ].
    + unfold JSMap.size in E. simpl in E. lia.
    + cbn [tl]. pose proof (size_set_le rest (getCacheKey input)
                              {| suggestion := sugg; timestamp := now |}) as Hs.
      unfold JSMap.size in *. cbn [List.length] in *. lia.
  - apply Nat.leb_gt in E.
    pose proof (size_set_le (cache cm) (getCacheKey input)
                  {| suggestion := sugg; timestamp := now |}) as Hs.
    lia.
Qed.

(** X4.  With caching on and a bound of at least one entry, a map within
    the bound stays within it, with distinct keys, through any run of
    [set] calls, and a map above the bound (as a cache file may load)
    never grows. *)
Theorem sets_keep_the_cache_bounded calls :
  1 <= Config.MAX_CACHE_SIZE cfg ->
  forall cm d,
    JSMap.wf (cache cm) ->
    let cm' := fst (Harness.set_each cfg calls cm d) in
    JSMap.wf (cache cm') /\
    JSMap.size (cache cm')
    <= Nat.max (JSMap.size (cache cm)) (Config.MAX_CACHE_SIZE cfg) /\
    (JSMap.size (cache cm) <= Config.MAX_CACHE_SIZE cfg ->
     JSMap.size (cache cm') <= Config.MAX_CACHE_SIZE cfg).
Proof.
  intro Hmax. induction calls as [ | [[now input] sugg] r IH ]; intros cm d Hwf.
  - cbv zeta. simpl. repeat split; [ exact Hwf | lia | auto ].
  - cbv zeta. simpl Harness.set_each.
    pose proof (wf_set_cache cfg enabled now input sugg cm d Hwf) as Hwf1.
    pose proof (set_size_bound now input sugg cm d Hmax Hwf) as Hb1.
    destruct (set cfg now input sugg cm d) as [cm1 d1]. cbn [fst] in Hwf1, Hb1.
    destruct (IH cm1 d1 Hwf1) as (Hwf2 & Hb2 & _).
    split; [ exact Hwf2 | ]. split; [ lia | ]. intro Hle. lia.
Qed.

End CacheStore.

Lemma set_changes_only_its_key_and_the_oldest_witness :
  let cm := Harness.manager_with Harness.two_entries Harness.today in
  let after :=
    CacheManager.cache
      (fst (CacheManager.set Harness.small 3000 "ls -" "ls -la" cm Harness.blank_disk)) in
  JSMap.wf (CacheManager.cache cm) /\
  JSMap.get "ls -" after
    = Some {| CacheManager.suggestion := "ls -la"; CacheManager.timestamp := 3000 |} /\
  JSMap.get "git status" after = None /\
  JSMap.get "npm run" after = JSMap.get "npm run" (CacheManager.cache cm).
Proof.
  cbv zeta. split; [ reflexivity | ].
  destruct (set_changes_only_its_key_and_the_oldest Harness.small eq_refl 3000 "ls -"
              "ls -la" (Harness.manager_with Harness.two_entries Harness.today)
              Harness.blank_disk eq_refl) as [Hown Hothers].
  split; [ exact Hown | ]. split.
  - rewrite Hothers by discriminate. reflexivity.
  - rewrite Hothers by discriminate. reflexivity.
Defined.

Lemma sets_keep_the_cache_bounded_witness :
  let calls := [(10%Z, "git status", "git status -sb"); (20%Z, "npm run", "npm run dev");
                (30%Z, "Git Status ", "git status"); (40%Z, "ls -", "ls -la")] in
  let cm' := fst (Harness.set_each Harness.small calls
                    (Harness.blank_manager Harness.today) Harness.blank_disk) in
  1 <= Config.MAX_CACHE_SIZE Harness.small /\
  JSMap.wf (CacheManager.cache cm') /\
  JSMap.size (CacheManager.cache cm') <= Config.MAX_CACHE_SIZE Harness.small.
Proof.
  cbv zeta.
  assert (1 <= Config.MAX_CACHE_SIZE Harness.small) as Hmax by (simpl; lia).
  split; [ exact Hmax | ].
  destruct (sets_keep_the_cache_bounded Harness.small eq_refl
              [(10%Z, "git status", "git status -sb"); (20%Z, "npm run", "npm run dev");
               (30%Z, "Git Status ", "git status"); (40%Z, "ls -", "ls -la")]
              Hmax (Harness.blank_manager Harness.today) Harness.blank_disk eq_refl)
    as (Hwf & _ & Hle).
  split; [ exact Hwf | ]. apply Hle. simpl. lia.
Defined.

(** ** Restarting the process *)

Section Restart.
Import CacheManager.
Variable cfg : Config.t.





Lemma loadCache_keeps_usage now d c :
  usageStats (loadCache cfg now d c) = usageStats c /\
  lastRequestTime (loadCache cfg now d c) = lastRequestTime c.
Proof. unfold loadCache. destruct (cacheFile d); split; reflexivity. Qed.

Lemma loadUsageStats_keeps_time today d c :
  lastRequestTime (loadUsageStats today d c) = lastRequestTime c.
Proof.
  unfold loadUsageStats. destruct (usageFile d) as [ u | ]; [ | reflexivity ].
  destruct (negb (String.eqb (lastReset u) today)); reflexivity.
Qed.

(** X6.  A manager constructed from the usage file that a writable disk
    holds after [saveUsageStats] starts with the time of the last request
    at zero (the cool-down is not carried over) and with the saved totals,
    hits and cost; on the day of the last reset it has the saved record
    unchanged, and on any other day the daily count is zero and the reset
    date is today. *)
Theorem restart_keeps_the_usage_record now today cm d :
  writable d = true ->
  let restarted := create cfg now today (saveUsageStats cm d) in
  lastRequestTime restarted = 0%Z /\
  totalRequests (usageStats restarted) = totalRequests (usageStats cm) /\
  cachedHits (usageStats restarted) = cachedHits (usageStats cm) /\
  costEstimate (usageStats restarted) = costEstimate (usageStats cm) /\
  (lastReset (usageStats cm) = today -> usageStats restarted = usageStats cm) /\
  (lastReset (usageStats cm) <> today ->
   dailyRequests (usageStats restarted) = 0 /\ lastReset (usageStats restarted) = today).
Proof.
  intros Hw restarted.
  assert (lastRequestTime restarted = 0%Z) as Htime.
  { unfold restarted, create. rewrite loadUsageStats_keeps_time.
    rewrite (proj2 (loadCache_keeps_usage _ _ _)). reflexivity. }
  assert (usageStats restarted
          = if negb (String.eqb (lastReset (usageStats cm)) today)
            then {| totalRequests := totalRequests (usageStats cm);
                    cachedHits := cachedHits (usageStats cm);
                    dailyRequests := 0; lastReset := today;
                    costEstimate := costEstimate (usageStats cm) |}
            else usageStats cm) as Husage.
  { unfold restarted, create, loadUsageStats, saveUsageStats. rewrite Hw.
    cbn [usageFile].
    destruct (negb (String.eqb (lastReset (usageStats cm)) today)); reflexivity. }
  split; [ exact Htime | ]. rewrite Husage.
  destruct (String.eqb (lastReset (usageStats cm)) today) eqn:E; cbn [negb].
  - apply String.eqb_eq in E.
    split; [ reflexivity | ]. split; [ reflexivity | ]. split; [ reflexivity | ].
    split; [ reflexivity | ]. intro H. congruence.
  - apply String.eqb_neq in E.
    split; [ reflexivity | ]. split; [ reflexivity | ]. split; [ reflexivity | ].
    split; [ intro H; congruence | ]. intros _. split; reflexivity.
Qed.

End Restart.


Lemma restart_keeps_the_usage_record_witness :
  let cm := CacheManager.with_usage Harness.spent_yesterday
              (Harness.blank_manager Harness.yesterday) in
  let restarted :=
    CacheManager.create Config.shipped 86400000 Harness.today
      (CacheManager.saveUsageStats cm Harness.blank_disk) in
  CacheManager.writable Harness.blank_disk = true /\
  CacheManager.dailyRequests (CacheManager.usageStats restarted) = 0 /\
  CacheManager.lastReset (CacheManager.usageStats restarted) = Harness.today /\
  CacheManager.totalRequests (CacheManager.usageStats restarted) = 100.
Proof.
  cbv zeta. split; [ reflexivity | ].
  destruct (restart_keeps_the_usage_record Config.shipped 86400000 Harness.today
              (CacheManager.with_usage Harness.spent_yesterday
                 (Harness.blank_manager Harness.yesterday))
              Harness.blank_disk eq_refl) as (_ & Htotal & _ & _ & _ & Hother).
  destruct Hother as [Hdaily Hdate]; [ discriminate | ].
  split; [ exact Hdaily | ]. split; [ exact Hdate | exact Htotal ].
Defined.

(** ** The governor over a run of requests *)

Section Admission.
Import CacheManager.
Variable cfg : Config.t.

Lemma recordRequest_state now tokens cm d :
  let cm' := fst (recordRequest now tokens cm d) in
  dailyRequests (usageStats cm') = S (dailyRequests (usageStats cm)) /\
  totalRequests (usageStats cm') = S (totalRequests (usageStats cm)) /\
  cachedHits (usageStats cm') = cachedHits (usageStats cm) /\
  lastReset (usageStats cm') = lastReset (usageStats cm) /\
  lastRequestTime cm' = now /\
  cache cm' = cache cm.
Proof. cbv zeta. unfold recordRequest. simpl. repeat split. Qed.

Lemma last_time_cons t0 now tokens r :
  Scenario.last_time t0 ((now, tokens) :: r) = Scenario.last_time now r.
Proof.
  unfold Scenario.last_time. destruct r as [ | c r ]; [ reflexivity | ].
  change (last ((now, tokens) :: c :: r) (t0, 0)) with (last (c :: r) (t0, 0)).
  f_equal. generalize c. induction r as [ | c' r IH ]; intro c0; [ reflexivity | ].
  change (last (c0 :: c' :: r) (t0, 0)) with (last (c' :: r) (t0, 0)).
  change (last (c0 :: c' :: r) (now, 0)) with (last (c' :: r) (now, 0)).
  apply IH.
Qed.

Lemma record_each_state calls :
  forall cm d,
    let cm' := fst (Scenario.record_each calls cm d) in
    dailyRequests (usageStats cm') = dailyRequests (usageStats cm) + List.length calls /\
    totalRequests (usageStats cm') = totalRequests (usageStats cm) + List.length calls /\
    cachedHits (usageStats cm') = cachedHits (usageStats cm) /\
    lastReset (usageStats cm') = lastReset (usageStats cm) /\
    lastRequestTime cm' = Scenario.last_time (lastRequestTime cm) calls /\
    cache cm' = cache cm.
Proof.
  induction calls as [ | [now tokens] r IH ]; intros cm d; cbv zeta.
  - simpl. repeat split; lia.
  - cbn [Scenario.record_each].
    pose proof (recordRequest_state now tokens cm d) as H1. cbv zeta in H1.
    destruct (recordRequest now tokens cm d) as [cm1 d1]. cbn [fst] in H1.
    cbv beta iota.
    destruct H1 as (Hd1 & Ht1 & Hh1 & Hr1 & Hl1 & Hc1).
    destruct (IH cm1 d1) as (Hd & Ht & Hh & Hr & Hl & Hc).
    rewrite Hd, Ht, Hh, Hr, Hl, Hc, Hd1, Ht1, Hh1, Hr1, Hl1, Hc1. cbn [List.length].
    rewrite last_time_cons. repeat split; lia.
Qed.

(** X7.  After any run of recorded requests, the governor admits a new
    request exactly when the daily count it started from plus the number
    of requests recorded is below [MAX_DAILY_REQUESTS] and at least
    [REQUEST_COOLDOWN] milliseconds have passed since the last of them. *)
Theorem governor_admits_within_quota_after_cooldown calls cm d now :
  canMakeRequest cfg now (fst (Scenario.record_each calls cm d))
  = (dailyRequests (usageStats cm) + List.length calls <? Config.MAX_DAILY_REQUESTS cfg)
    && (Config.REQUEST_COOLDOWN cfg
        <=? now - Scenario.last_time (lastRequestTime cm) calls)%Z.
Proof.
  destruct (record_each_state calls cm d) as (Hd & _ & _ & _ & Hl & _).
  unfold canMakeRequest. rewrite Hd, Hl.
  rewrite Nat.leb_antisym, Z.ltb_antisym.
  destruct (dailyRequests (usageStats cm) + List.length calls
            <? Config.MAX_DAILY_REQUESTS cfg); cbn [negb andb]; [ | reflexivity ].
  destruct (Config.REQUEST_COOLDOWN cfg
            <=? now - Scenario.last_time (lastRequestTime cm) calls)%Z; reflexivity.
Qed.

End Admission.

Lemma governor_admits_within_quota_after_cooldown_witness :
  let cm := Harness.blank_manager Harness.today in
  let after := fst (Scenario.record_each [(10000%Z, 12); (20000%Z, 7)] cm Harness.blank_disk) in
  CacheManager.canMakeRequest Config.shipped 24999 after = false /\
  CacheManager.canMakeRequest Config.shipped 25000 after = true.
Proof.
  cbv zeta.
  split;
    rewrite (governor_admits_within_quota_after_cooldown Config.shipped
               [(10000%Z, 12); (20000%Z, 7)] (Harness.blank_manager Harness.today)
               Harness.blank_disk);
    reflexivity.
Defined.

(** ** The context manager *)

Section RecentCommands.
Import ContextManager.

Lemma firstn_app_firstn {A : Type} (front l : list A) (n : nat) :
  forall m, m <= n -> firstn m (front ++ firstn n l) = firstn m (front ++ l).
Proof.
  induction front as [ | x front IH ]; intros m Hm.
  - cbn [app]. rewrite firstn_firstn. replace (Nat.min m n) with m by lia. reflexivity.
  - destruct m as [ | m ]; [ reflexivity | ].
    cbn [app firstn]. f_equal. apply IH. lia.
Qed.

Lemma addRecentCommand_recent command cm :
  recentCommands (addRecentCommand command cm)
  = firstn (maxRecentCommands cm) (command :: recentCommands cm).
Proof.
  unfold addRecentCommand. cbn [recentCommands].
  destruct (maxRecentCommands cm <? List.length (command :: recentCommands cm)) eqn:E;
    [ reflexivity | ].
  apply Nat.ltb_ge in E. symmetry. apply firstn_all2. exact E.
Qed.

Lemma add_each_max cs :
  forall cm, maxRecentCommands (Scenario.add_each cs cm) = maxRecentCommands cm.
Proof. induction cs as [ | c r IH ]; intro cm; simpl; [ reflexivity | rewrite IH; reflexivity ]. Qed.

Lemma add_each_recent cs :
  forall cm,
    List.length (recentCommands cm) <= maxRecentCommands cm ->
    recentCommands (Scenario.add_each cs cm)
    = firstn (maxRecentCommands cm) (rev cs ++ recentCommands cm).
Proof.
  induction cs as [ | c r IH ]; intros cm Hlen.
  - simpl. symmetry. apply firstn_all2. exact Hlen.
  - cbn [Scenario.add_each]. rewrite IH.
    + rewrite addRecentCommand_recent.
      change (maxRecentCommands (addRecentCommand c cm)) with (maxRecentCommands cm).
      cbn [rev]. rewrite <- app_assoc. cbn [app].
      apply firstn_app_firstn. apply Nat.le_refl.
    + rewrite addRecentCommand_recent.
      change (maxRecentCommands (addRecentCommand c cm)) with (maxRecentCommands cm).
      rewrite length_firstn. lia.
Qed.

(** X8.  The recent-command buffer holds the newest commands first and
    never more than [maxRecentCommands]: after any run of executed
    commands it is the reversed run in front of the old buffer, cut to
    that length, and the context summary carries its first three. *)
Theorem recent_commands_are_the_newest_first cs cm :
  List.length (recentCommands cm) <= maxRecentCommands cm ->
  let cm' := Scenario.add_each cs cm in
  recentCommands cm' = firstn (maxRecentCommands cm) (rev cs ++ recentCommands cm) /\
  List.length (recentCommands cm') <= maxRecentCommands cm /\
  summaryCommands (getContextSummary cm')
  = firstn (Nat.min 3 (maxRecentCommands cm)) (rev cs ++ recentCommands cm).
Proof.
  intros Hlen cm'. unfold cm'.
  rewrite (add_each_recent cs cm Hlen). split; [ reflexivity | ]. split.
  - rewrite length_firstn. lia.
  - unfold getContextSummary. cbn [summaryCommands].
    rewrite (add_each_recent cs cm Hlen). apply firstn_firstn.
Qed.

End RecentCommands.

Lemma recent_commands_are_the_newest_first_witness :
  let cm' := Scenario.add_each ["git log"; "pwd"; "cd demo"; "ls"]%string
               (ContextManager.create "/home/dev") in
  ContextManager.recentCommands cm' = ["ls"; "cd demo"; "pwd"; "git log"]%string /\
  ContextManager.summaryCommands (ContextManager.getContextSummary cm')
  = ["ls"; "cd demo"; "pwd"]%string.
Proof.
  cbv zeta.
  destruct (recent_commands_are_the_newest_first
              ["git log"; "pwd"; "cd demo"; "ls"]%string
              (ContextManager.create "/home/dev") (Nat.le_0_l 10))
    as (Hrecent & _ & Hsummary).
  split; [ rewrite Hrecent | rewrite Hsummary ]; reflexivity.
Defined.

Section Snapshot.
Import ContextManager.

Lemma filter_partition_length {A : Type} (p : A -> bool) (l : list A) :
  List.length (filter p l) + List.length (filter (fun x => negb (p x)) l) = List.length l.
Proof.
  induction l as [ | a l IH ]; simpl; [ reflexivity | ].
  destruct (p a); simpl; lia.
Qed.

(** X9.  A refresh of the context is bounded and never throws.  When
    [process.cwd()] throws, nothing is refreshed: the manager is as it
    was, so a new manager keeps its empty listing and its unset
    repository and package states.  Otherwise the listing holds the first
    [maxFileContext] names that [readdir] answered (none when it failed),
    a name whose [stat] failed counts as an empty file, and the
    repository and package states are defined afterwards.  In both cases
    files and folders add up to the number of entries and the recent
    commands are untouched. *)
Theorem refresh_is_bounded_and_total p cm :
  let cm' := updateContext p cm in
  let c := getContextSummary cm' in
  (cwd p = None -> cm' = cm) /\
  (forall dir,
      cwd p = Some dir ->
      currentDirectory cm' = dir /\
      map name (fileContext cm') = firstn (maxFileContext cm) (Scenario.listed p) /\
      List.length (fileContext cm') <= maxFileContext cm /\
      fileCount c <= maxFileContext cm /\
      (forall n, In (n, None) (firstn (maxFileContext cm)
                                (match readdir p with Some l => l | None => [] end)) ->
                 In {| name := n; isDirectory := false; size := 0 |} (fileContext cm')) /\
      gitContext cm' <> None /\
      nodeContext cm' <> None /\
      (git p = None -> isGitRepo (gitContext cm') = false) /\
      (packageJson p = None -> hasPackageJson (nodeContext cm') = false)) /\
  files c + directories c = fileCount c /\
  recentCommands cm' = recentCommands cm /\
  maxFileContext cm' = maxFileContext cm /\
  maxRecentCommands cm' = maxRecentCommands cm.
Proof.
  cbv zeta. split; [ | split ].
  - unfold updateContext. intros ->. reflexivity.
  - intros dir Hdir. unfold updateContext. rewrite Hdir.
    assert (map name (fileContext
                        (updateNodeContext p (updateGitContext p (updateFileContext p
                           {| currentDirectory := dir;
                              recentCommands := recentCommands cm;
                              fileContext := fileContext cm;
                              gitContext := gitContext cm;
                              nodeContext := nodeContext cm;
                              maxRecentCommands := maxRecentCommands cm;
                              maxFileContext := maxFileContext cm |}))))
            = firstn (maxFileContext cm) (Scenario.listed p)) as Hnames.
    { unfold updateNodeContext, updateGitContext, updateFileContext, Scenario.listed.
      cbn [fileContext maxFileContext]. destruct (readdir p) as [ entries | ].
      - rewrite map_map, firstn_map. apply map_ext.
        intros [n [ [isdir sz] | ]]; reflexivity.
      - rewrite firstn_nil. reflexivity. }
    pose proof Hnames as Hlen. apply (f_equal (@List.length string)) in Hlen.
    rewrite length_map, length_firstn in Hlen.
    split; [ reflexivity | ]. split; [ exact Hnames | ].
    split; [ rewrite Hlen; lia | ].
    split; [ unfold getContextSummary; cbn [fileCount]; rewrite Hlen; lia | ].
    split.
    { intros n Hin. unfold updateNodeContext, updateGitContext, updateFileContext.
      cbn [fileContext maxFileContext].
      destruct (readdir p) as [ entries | ]; [ | rewrite firstn_nil in Hin; contradiction ].
      apply in_map_iff. exists (n, None). split; [ reflexivity | exact Hin ]. }
    unfold updateNodeContext, updateGitContext, updateFileContext.
    cbn [gitContext nodeContext].
    repeat split.
    + destruct (git p) as [ [a b] | ]; discriminate.
    + destruct (packageJson p); discriminate.
    + intros ->. reflexivity.
    + intros ->. reflexivity.
  - split.
    { unfold getContextSummary. cbn [files directories fileCount].
      rewrite Nat.add_comm. apply filter_partition_length. }
    unfold updateContext. destruct (cwd p); repeat split.
Qed.

End Snapshot.

Section DirectoryType.
Import JS ContextManager.
Local Open Scope string_scope.

Lemma prefix_transitive (a b s : string) :
  String.prefix a b = true -> String.prefix b s = true -> String.prefix a s = true.
Proof.
  revert b s. induction a as [ | x a IH ]; intros b s Hab Hbs.
  - destruct s; reflexivity.
  - destruct b as [ | y b ]; [ discriminate | ].
    destruct s as [ | z s ]; [ discriminate | ].
    simpl in *.
    destruct (ascii_dec x y) as [ -> | ]; [ | discriminate ].
    destruct (ascii_dec y z) as [ -> | ]; [ | discriminate ].
    apply (IH b s); assumption.
Qed.

Lemma includes_shorter (s a b : string) :
  String.prefix a b = true -> includes s b = true -> includes s a = true.
Proof.
  intro Hab. induction s as [ | c s IH ].
  - rewrite (includes_unfold "" a), (includes_unfold "" b), !orb_false_r.
    apply (prefix_transitive a b). exact Hab.
  - rewrite (includes_unfold (String c s) a), (includes_unfold (String c s) b).
    intro H. apply orb_true_iff in H as [H | H]; apply orb_true_iff.
    + left. apply (prefix_transitive a b); assumption.
    + right. apply IH. exact H.
Qed.

Lemma some_file_or (p q : FileInfo -> bool) (cm : t) :
  some_file (fun f => p f || q f) cm = (some_file p cm || some_file q cm)%bool.
Proof.
  unfold some_file. induction (fileContext cm) as [ | f l IH ]; simpl; [ reflexivity | ].
  rewrite IH. destruct (p f), (q f), (existsb p l), (existsb q l); reflexivity.
Qed.

(** The test for [.cpp] never decides: a name that has [.cpp] in it has
    [.c] in it. *)
Lemma cpp_test_is_c_test (cm : t) :
  some_file (fun f => includes (name f) ".cpp" || includes (name f) ".c") cm
  = Scenario.some_name_includes ".c" cm.
Proof.
  unfold Scenario.some_name_includes, some_file.
  induction (fileContext cm) as [ | f l IH ]; simpl; [ reflexivity | ].
  rewrite IH. f_equal.
  destruct (includes (name f) ".cpp") eqn:E; [ | reflexivity ].
  rewrite (includes_shorter (name f) ".c" ".cpp" eq_refl E). reflexivity.
Qed.

(** X10.  The directory type is decided by the first rule that applies,
    in the order package, repository, [.py], [.java], [.c], then [.html]
    or [.js]; the fragments are looked for anywhere in a listed name, so
    a directory is typed [web] only when no listed name has [.c] in it
    (which a [.css] or [.cjs] name has), and [cpp] whenever one has and
    no earlier rule applies. *)
Theorem directory_type_follows_first_rule (cm : t) :
  let pkg := hasPackageJson (nodeContext cm) in
  let repo := isGitRepo (gitContext cm) in
  let has := fun fragment => Scenario.some_name_includes fragment cm in
  (getDirectoryType cm = nodejs <-> pkg = true) /\
  (getDirectoryType cm = git_repo <-> pkg = false /\ repo = true) /\
  (getDirectoryType cm = python <-> pkg = false /\ repo = false /\ has ".py" = true) /\
  (getDirectoryType cm = java <->
     pkg = false /\ repo = false /\ has ".py" = false /\ has ".java" = true) /\
  (getDirectoryType cm = cpp <->
     pkg = false /\ repo = false /\ has ".py" = false /\ has ".java" = false /\
     has ".c" = true) /\
  (getDirectoryType cm = web <->
     pkg = false /\ repo = false /\ has ".py" = false /\ has ".java" = false /\
     has ".c" = false /\ (has ".html" || has ".js")%bool = true) /\
  (getDirectoryType cm = general <->
     pkg = false /\ repo = false /\ has ".py" = false /\ has ".java" = false /\
     has ".c" = false /\ has ".html" = false /\ has ".js" = false).
Proof.
  cbv zeta. unfold getDirectoryType.
  rewrite cpp_test_is_c_test, some_file_or.
  change (some_file (fun f => includes (name f) ".py") cm)
    with (Scenario.some_name_includes ".py" cm).
  change (some_file (fun f => includes (name f) ".java") cm)
    with (Scenario.some_name_includes ".java" cm).
  change (some_file (fun f => includes (name f) ".html") cm)
    with (Scenario.some_name_includes ".html" cm).
  change (some_file (fun f => includes (name f) ".js") cm)
    with (Scenario.some_name_includes ".js" cm).
  destruct (hasPackageJson (nodeContext cm)), (isGitRepo (gitContext cm)),
    (Scenario.some_name_includes ".py" cm), (Scenario.some_name_includes ".java" cm),
    (Scenario.some_name_includes ".c" cm), (Scenario.some_name_includes ".html" cm),
    (Scenario.some_name_includes ".js" cm);
    cbn [orb]; repeat split; intros; try discriminate; try tauto;
    repeat match goal with H : _ /\ _ |- _ => destruct H end; discriminate.
Qed.

End DirectoryType.

(** ** The orchestrator over any endpoint *)

Section Dispatch.
Import JS Service.
Variable cfg : Config.t.
Variable contextualSuggestion :
  string -> ContextManager.t
  -> Completion ContextManager.ContextualResult * ContextManager.t.

(** A send that made no request has thrown. *)
Lemma post_without_calls remote payload a s r s' :
  postWithKeyRotation remote payload a s = (r, s', []) -> r = Throw exhausted.
Proof.
  rewrite postWithKeyRotation_step.
  destruct (List.length (apiKeys s) <=? a); [ intro H; injection H as <- _; reflexivity | ].
  cbv zeta. destruct (remote payload a (getCurrentApiKey s)); [ discriminate | ].
  destruct (postWithKeyRotation remote payload (S a) (rotateApiKey s)) as [[r0 s0] calls0].
  discriminate.
Qed.

Lemma same_books_refl cm : Scenario.same_books cm cm.
Proof. repeat split. Qed.

Lemma same_books_get now input cm :
  Scenario.same_books cm (snd (CacheManager.get cfg now input cm)).
Proof. exact (get_frame cfg now input cm). Qed.

(** X11.  A request that returns nothing, and a request that sent
    nothing, leave no trace: the disk is as it was, and so are the cache
    map, the request counters, the cost estimate and the time of the last
    request.  This holds as well when requests went out and every one was
    rejected, or the answer had no readable candidate: such requests are
    neither counted against the daily quota nor followed by a
    cool-down. *)
Theorem unanswered_request_leaves_no_trace clock remote userInput s d :
  let out := getCommandSuggestion cfg contextualSuggestion clock remote userInput s d in
  fst (fst (fst out)) = None \/ snd out = [] ->
  snd (fst out) = d /\
  Scenario.same_books (cacheManager s) (cacheManager (snd (fst (fst out)))).
Proof.
  cbv zeta. unfold getCommandSuggestion.
  destruct (negb (Config.ENABLE_SUGGESTIONS cfg));
    [ intros _; split; [ reflexivity | apply same_books_refl ] | ].
  destruct (String.length (trim userInput) <? Config.MIN_INPUT_LENGTH cfg);
    [ intros _; split; [ reflexivity | apply same_books_refl ] | ].
  pose proof (same_books_get (now_get clock) userInput (cacheManager s)) as Hbooks.
  destruct (CacheManager.get cfg (now_get clock) userInput (cacheManager s))
    as [cached cm1].
  cbn [snd] in Hbooks.
  destruct cached as [ [ | c r ] | ];
    try (intros _; split; [ reflexivity | exact Hbooks ]);
    (destruct (negb (CacheManager.canMakeRequest cfg (now_gate clock) cm1));
     [ intros _; split; [ reflexivity | exact Hbooks ] | ]);
    cbn [contextManager with_cacheManager];
    (destruct (contextualSuggestion userInput (contextManager s))
       as [[ [ command | prompt summary ] | e ] ctx'];
     try (intros _; split; [ reflexivity | exact Hbooks ]));
    (destruct (postWithKeyRotation remote prompt 0
                 (with_contextManager ctx' (with_cacheManager cm1 s)))
       as [[posted s3] calls] eqn:Epost;
     pose proof (post_keeps_managers _ _ _ _ _ _ Epost) as (Hcm & _ & _);
     cbn [cacheManager with_contextManager with_cacheManager] in Hcm);
    (destruct posted as [ response | e ];
     [ | intros _; split; [ reflexivity | cbn [fst snd]; rewrite Hcm; exact Hbooks ] ]);
    (destruct (firstCandidate response) as [ candidate | ];
     [ | intros _; split; [ reflexivity | cbn [fst snd]; rewrite Hcm; exact Hbooks ] ]);
    (destruct (candidateText candidate) as [ txt | e ];
     [ | intros _; split; [ reflexivity | cbn [fst snd]; rewrite Hcm; exact Hbooks ] ]);
    destruct (CacheManager.set cfg (now_set clock) userInput
                (substring0 (Config.MAX_SUGGESTION_LENGTH cfg) (trim txt))
                (cacheManager s3) d) as [cm2 d2];
    destruct (CacheManager.recordRequest (now_record clock) (tokenCountOf response) cm2 d2)
      as [cm3 d3];
    cbn [fst snd]; (intros [ H | H ]; [ discriminate | ]);
    subst calls; apply post_without_calls in Epost; discriminate.
Qed.

(** A send keeps the pool, leaves the cursor inside it, makes at most as
    many requests as attempts are left, and takes every credential from
    the pool. *)
Lemma post_stays_in_pool remote payload n :
  forall a s,
    List.length (apiKeys s) - a <= n ->
    currentKeyIndex s < List.length (apiKeys s) ->
    let out := postWithKeyRotation remote payload a s in
    apiKeys (snd (fst out)) = apiKeys s /\
    currentKeyIndex (snd (fst out)) < List.length (apiKeys s) /\
    List.length (snd out) <= List.length (apiKeys s) - a /\
    Forall (fun c => In (keyUsed c) (apiKeys s)) (snd out).
Proof.
  induction n as [ | n IH ]; intros a s Hn Hc; cbv zeta; rewrite postWithKeyRotation_step.
  - rewrite (proj2 (Nat.leb_le _ _)) by lia. cbn [fst snd List.length].
    repeat split; try assumption; try lia. constructor.
  - destruct (List.length (apiKeys s) <=? a) eqn:E.
    + cbn [fst snd List.length]. repeat split; try assumption; try lia. constructor.
    + apply Nat.leb_gt in E. cbv zeta.
      assert (In (getCurrentApiKey s) (apiKeys s)) as Hin
        by (apply nth_In; exact Hc).
      destruct (remote payload a (getCurrentApiKey s)).
      * cbn [fst snd List.length]. repeat split; try assumption; try lia.
        constructor; [ exact Hin | constructor ].
      * pose proof (IH (S a) (rotateApiKey s) ltac:(simpl; lia)
                      (rotate_in_range s ltac:(lia))) as H.
        cbv zeta in H.
        destruct (postWithKeyRotation remote payload (S a) (rotateApiKey s))
          as [[r s'] calls].
        cbn [fst snd apiKeys rotateApiKey List.length] in *.
        destruct H as (Hkeys & Hcur & Hlen & Hall).
        repeat split; try assumption; try lia.
        constructor; [ exact Hin | exact Hall ].
Qed.

(** One request keeps the pool and leaves the cursor inside it. *)
Lemma request_stays_in_pool clock remote userInput s d :
  currentKeyIndex s < List.length (apiKeys s) ->
  let out := getCommandSuggestion cfg contextualSuggestion clock remote userInput s d in
  apiKeys (snd (fst (fst out))) = apiKeys s /\
  currentKeyIndex (snd (fst (fst out))) < List.length (apiKeys s) /\
  List.length (snd out) <= List.length (apiKeys s) /\
  Forall (fun c => In (keyUsed c) (apiKeys s)) (snd out).
Proof.
  intro Hc. cbv zeta. unfold getCommandSuggestion.
  assert (forall s0 : t, apiKeys s0 = apiKeys s ->
            currentKeyIndex s0 = currentKeyIndex s ->
            apiKeys s0 = apiKeys s /\
            currentKeyIndex s0 < List.length (apiKeys s) /\
            List.length (@nil Call) <= List.length (apiKeys s) /\
            Forall (fun c => In (keyUsed c) (apiKeys s)) []) as Hquiet.
  { intros s0 Hk Hi. rewrite Hi. repeat split; try assumption; [ simpl; lia | constructor ]. }
  destruct (negb (Config.ENABLE_SUGGESTIONS cfg)); [ apply Hquiet; reflexivity | ].
  destruct (String.length (trim userInput) <? Config.MIN_INPUT_LENGTH cfg);
    [ apply Hquiet; reflexivity | ].
  destruct (CacheManager.get cfg (now_get clock) userInput (cacheManager s))
    as [cached cm1].
  destruct cached as [ [ | c r ] | ];
    try (apply Hquiet; reflexivity);
    (destruct (negb (CacheManager.canMakeRequest cfg (now_gate clock) cm1));
     [ apply Hquiet; reflexivity | ]);
    cbn [contextManager with_cacheManager];
    (destruct (contextualSuggestion userInput (contextManager s))
       as [[ [ command | prompt summary ] | e ] ctx'];
     try (apply Hquiet; reflexivity));
    (pose proof (post_stays_in_pool remote prompt
                   (List.length (apiKeys s)) 0
                   (with_contextManager ctx' (with_cacheManager cm1 s))
                   ltac:(simpl; lia) Hc) as Hpost;
     cbv zeta in Hpost;
     destruct (postWithKeyRotation remote prompt 0
                 (with_contextManager ctx' (with_cacheManager cm1 s)))
       as [[posted s3] calls];
     cbn [fst snd apiKeys currentKeyIndex with_contextManager with_cacheManager] in Hpost;
     rewrite Nat.sub_0_r in Hpost);
    (destruct posted as [ response | e ]; [ | exact Hpost ]);
    (destruct (firstCandidate response) as [ candidate | ]; [ | exact Hpost ]);
    (destruct (candidateText candidate) as [ txt | e ]; [ | exact Hpost ]);
    destruct (CacheManager.set cfg (now_set clock) userInput
                (substring0 (Config.MAX_SUGGESTION_LENGTH cfg) (trim txt))
                (cacheManager s3) d) as [cm2 d2];
    destruct (CacheManager.recordRequest (now_record clock) (tokenCountOf response) cm2 d2)
      as [cm3 d3];
    exact Hpost.
Qed.

(** One request counts at most one request, and only below the quota. *)
Lemma request_counts_below_quota clock remote userInput s d :
  let out := getCommandSuggestion cfg contextualSuggestion clock remote userInput s d in
  let daily := fun s0 => CacheManager.dailyRequests (CacheManager.usageStats (cacheManager s0)) in
  daily (snd (fst (fst out))) = daily s \/
  (daily (snd (fst (fst out))) = S (daily s) /\ daily s < Config.MAX_DAILY_REQUESTS cfg).
Proof.
  cbv zeta. unfold getCommandSuggestion.
  destruct (negb (Config.ENABLE_SUGGESTIONS cfg)); [ left; reflexivity | ].
  destruct (String.length (trim userInput) <? Config.MIN_INPUT_LENGTH cfg);
    [ left; reflexivity | ].
  pose proof (same_books_get (now_get clock) userInput (cacheManager s))
    as (_ & _ & _ & Hdaily & _).
  destruct (CacheManager.get cfg (now_get clock) userInput (cacheManager s))
    as [cached cm1].
  cbn [snd] in Hdaily.
  destruct cached as [ [ | c r ] | ];
    try (left; exact Hdaily);
    (destruct (negb (CacheManager.canMakeRequest cfg (now_gate clock) cm1)) eqn:Egate;
     [ left; exact Hdaily | ]);
    cbn [contextManager with_cacheManager];
    (destruct (contextualSuggestion userInput (contextManager s))
       as [[ [ command | prompt summary ] | e ] ctx'];
     try (left; exact Hdaily));
    (destruct (postWithKeyRotation remote prompt 0
                 (with_contextManager ctx' (with_cacheManager cm1 s)))
       as [[posted s3] calls] eqn:Epost;
     pose proof (post_keeps_managers _ _ _ _ _ _ Epost) as (Hcm & _ & _);
     cbn [cacheManager with_contextManager with_cacheManager] in Hcm);
    (destruct posted as [ response | e ];
     [ | left; cbn [fst snd]; rewrite Hcm; exact Hdaily ]);
    (destruct (firstCandidate response) as [ candidate | ];
     [ | left; cbn [fst snd]; rewrite Hcm; exact Hdaily ]);
    (destruct (candidateText candidate) as [ txt | e ];
     [ | left; cbn [fst snd]; rewrite Hcm; exact Hdaily ]);
    right; rewrite Hcm;
    unfold CacheManager.set, CacheManager.recordRequest;
    (destruct (negb (Config.ENABLE_CACHE cfg)));
    cbn [fst snd cacheManager with_cacheManager CacheManager.usageStats
         CacheManager.dailyRequests CacheManager.with_cache];
    rewrite Hdaily; (split; [ reflexivity | ]);
    unfold CacheManager.canMakeRequest in Egate; rewrite Hdaily in Egate;
    (destruct (Config.MAX_DAILY_REQUESTS cfg
               <=? CacheManager.dailyRequests (CacheManager.usageStats (cacheManager s)))
       eqn:E; [ discriminate | apply Nat.leb_gt in E; exact E ]).
Qed.

End Dispatch.

(** ** Runs of requests *)

Section Runs.
Import JS Service.
Variable cfg : Config.t.
Variable config : Completion Config.t.

Lemma request_each_stays_in_pool requests :
  forall s d,
    currentKeyIndex s < List.length (apiKeys s) ->
    let out := Scenario.request_each cfg config requests s d in
    apiKeys (fst (fst out)) = apiKeys s /\
    currentKeyIndex (fst (fst out)) < List.length (apiKeys s) /\
    Forall (fun c => In (keyUsed c) (apiKeys s)) (snd out).
Proof.
  induction requests as [ | q r IH ]; intros s d Hc; cbv zeta.
  - cbn [Scenario.request_each fst snd]. repeat split; [ exact Hc | constructor ].
  - cbn [Scenario.request_each].
    pose proof (request_stays_in_pool cfg
                  (ContextManager.getContextualSuggestion config (Scenario.probe q))
                  (Scenario.clock q) (Scenario.remote q) (Scenario.userInput q) s d Hc)
      as Hone.
    cbv zeta in Hone.
    destruct (getCommandSuggestion cfg
                (ContextManager.getContextualSuggestion config (Scenario.probe q))
                (Scenario.clock q) (Scenario.remote q) (Scenario.userInput q) s d)
      as [[[result s1] d1] calls].
    cbn [fst snd] in Hone. destruct Hone as (Hkeys & Hcur & _ & Hall).
    assert (currentKeyIndex s1 < List.length (apiKeys s1)) as Hc1
      by (rewrite Hkeys; exact Hcur).
    specialize (IH s1 d1 Hc1). cbv zeta in IH.
    destruct (Scenario.request_each cfg config r s1 d1) as [[s2 d2] later].
    cbn [fst snd] in *. destruct IH as (Hkeys2 & Hcur2 & Hall2).
    rewrite Hkeys in Hkeys2, Hcur2, Hall2.
    repeat split; try assumption.
    apply Forall_app. split; assumption.
Qed.

(** X12.  However many requests a service built by the constructor
    serves, and whatever the endpoint and the directory answer: the pool
    stays the one chosen by the constructor, which is never empty; the
    cursor stays inside it, so the current credential is always one of
    the pool; and every request sent carried a credential of the pool. *)
Theorem requests_keep_the_cursor_in_the_pool keys key url cm ctx requests d :
  let out := Scenario.request_each cfg config requests (create keys key url cm ctx) d in
  1 <= List.length (pool keys key) /\
  apiKeys (fst (fst out)) = pool keys key /\
  currentKeyIndex (fst (fst out)) < List.length (pool keys key) /\
  In (getCurrentApiKey (fst (fst out))) (pool keys key) /\
  Forall (fun c => In (keyUsed c) (pool keys key)) (snd out).
Proof.
  cbv zeta.
  assert (1 <= List.length (pool keys key)) as Hpool.
  { unfold pool. destruct (0 <? List.length keys) eqn:E; [ | simpl; lia ].
    apply Nat.ltb_lt in E. lia. }
  pose proof (request_each_stays_in_pool requests (create keys key url cm ctx) d) as H.
  cbn [create apiKeys currentKeyIndex] in H. specialize (H ltac:(lia)). cbv zeta in H.
  destruct H as (Hkeys & Hcur & Hall).
  split; [ exact Hpool | ]. split; [ exact Hkeys | ]. split; [ exact Hcur | ].
  split; [ | exact Hall ].
  unfold getCurrentApiKey. rewrite Hkeys. apply nth_In. exact Hcur.
Qed.

(** X13.  Over any run of requests the count of the day's requests
    never falls and stops at the quota: a service that starts at
    or below [MAX_DAILY_REQUESTS] never counts more than that, and one
    that starts above it counts nothing more. *)
Theorem requests_respect_the_daily_quota requests :
  forall s d,
    let daily := fun s0 =>
      CacheManager.dailyRequests (CacheManager.usageStats (cacheManager s0)) in
    let out := Scenario.request_each cfg config requests s d in
    daily s <= daily (fst (fst out)) /\
    daily (fst (fst out)) <= Nat.max (daily s) (Config.MAX_DAILY_REQUESTS cfg).
Proof.
  induction requests as [ | q r IH ]; intros s d; cbv zeta.
  - cbn [Scenario.request_each fst snd]. lia.
  - cbn [Scenario.request_each].
    pose proof (request_counts_below_quota cfg
                  (ContextManager.getContextualSuggestion config (Scenario.probe q))
                  (Scenario.clock q) (Scenario.remote q) (Scenario.userInput q) s d)
      as Hone.
    cbv zeta in Hone.
    destruct (getCommandSuggestion cfg
                (ContextManager.getContextualSuggestion config (Scenario.probe q))
                (Scenario.clock q) (Scenario.remote q) (Scenario.userInput q) s d)
      as [[[result s1] d1] calls].
    cbn [fst snd] in Hone.
    specialize (IH s1 d1). cbv zeta in IH.
    destruct (Scenario.request_each cfg config r s1 d1) as [[s2 d2] later].
    cbn [fst snd] in *. lia.
Qed.

End Runs.

(** ** Requests the endpoint answers (gemini-service-optimized.js) *)

Section Answered.
Import JS.
Variable cfg : Config.t.


Lemma length_substring0 (n : nat) (x : string) : String.length (substring0 n x) <= n.
Proof.
  unfold substring0. revert n.
  induction x as [ | c x IH ]; intros [ | n ]; simpl; try lia.
  specialize (IH n). lia.
Qed.

Lemma trimEnd_start (x : string) :
  Scenario.starts_with_whitespace x = false ->
  Scenario.starts_with_whitespace (trimEnd x) = false.
Proof.
  destruct x as [ | c x ]; simpl; [ reflexivity | ].
  intro H. destruct (trimEnd x); simpl; [ rewrite H; exact H | exact H ].
Qed.

Lemma trim_start (x : string) : Scenario.starts_with_whitespace (trim x) = false.
Proof.
  unfold trim. apply trimEnd_start.
  induction x as [ | c x IH ]; simpl; [ reflexivity | ].
  destruct (is_whitespace c) eqn:E; [ exact IH | exact E ].
Qed.

Lemma substring0_start (n : nat) (x : string) :
  Scenario.starts_with_whitespace x = false ->
  Scenario.starts_with_whitespace (substring0 n x) = false.
Proof. destruct x as [ | c x ]; destruct n as [ | n ]; simpl; auto. Qed.

(** The request once it is through the tests that come before the
    dispatch. *)
Lemma optimized_dispatch clock remote userInput s d :
  Config.ENABLE_SUGGESTIONS cfg = true ->
  Config.MIN_INPUT_LENGTH cfg <= String.length (trim userInput) ->
  (fst (CacheManager.get cfg (Service.now_get clock) userInput
          (OptimizedService.cacheManager s)) = None \/
   fst (CacheManager.get cfg (Service.now_get clock) userInput
          (OptimizedService.cacheManager s)) = Some EmptyString) ->
  CacheManager.canMakeRequest cfg (Service.now_gate clock)
    (OptimizedService.cacheManager s) = true ->
  let cm1 :=
    snd (CacheManager.get cfg (Service.now_get clock) userInput
           (OptimizedService.cacheManager s)) in
  let s1 := OptimizedService.with_cacheManager cm1 s in
  OptimizedService.getCommandSuggestion cfg clock remote userInput s d
  = match remote (OptimizedService.prompt cfg userInput) 0 (OptimizedService.apiKey s) with
    | Throw _ => (None, s1, d, [OptimizedService.post s])
    | Return response =>
        match Service.firstCandidate response with
        | Some candidate =>
            match Service.candidateText candidate with
            | Return txt =>
                let x := substring0 (Config.MAX_SUGGESTION_LENGTH cfg) (trim txt) in
                let stored := CacheManager.set cfg (Service.now_set clock) userInput x cm1 d in
                let recorded :=
                  CacheManager.recordRequest (Service.now_record clock)
                    (Service.tokenCountOf response) (fst stored) (snd stored) in
                (Some x, OptimizedService.with_cacheManager (fst recorded) s1,
                 snd recorded, [OptimizedService.post s])
            | Throw _ => (None, s1, d, [OptimizedService.post s])
            end
        | None => (None, s1, d, [OptimizedService.post s])
        end
    end.
Proof.
  intros Hon Hlen Hmiss Hgate. cbv zeta. unfold OptimizedService.getCommandSuggestion.
  rewrite Hon. cbn [negb]. rewrite (proj2 (Nat.ltb_ge _ _) Hlen).
  pose proof (canMakeRequest_after_get cfg (Service.now_get clock) (Service.now_gate clock)
                userInput (OptimizedService.cacheManager s)) as Hgate'.
  destruct (CacheManager.get cfg (Service.now_get clock) userInput
              (OptimizedService.cacheManager s)) as [cached cm1].
  cbn [fst snd] in *. rewrite Hgate in Hgate'.
  rewrite (falsy_skips _ cached) by exact Hmiss.
  rewrite Hgate'. cbn [negb OptimizedService.apiKey OptimizedService.with_cacheManager
                       OptimizedService.cacheManager].
  destruct (remote (OptimizedService.prompt cfg userInput) 0 (OptimizedService.apiKey s))
    as [ response | e ]; [ | reflexivity ].
  destruct (Service.firstCandidate response) as [ candidate | ]; [ | reflexivity ].
  destruct (Service.candidateText candidate) as [ txt | e ]; [ | reflexivity ].
  destruct (CacheManager.set cfg (Service.now_set clock) userInput
              (substring0 (Config.MAX_SUGGESTION_LENGTH cfg) (trim txt)) cm1 d)
    as [cm2 d2].
  cbn [fst snd].
  destruct (CacheManager.recordRequest (Service.now_record clock)
              (Service.tokenCountOf response) cm2 d2) as [cm3 d3].
  reflexivity.
Qed.

(** X21.  The acceptance of a response, where the dispatch can be
    reached.  A request that is through the tests before the dispatch
    (suggestions on, input long enough, no non-empty answer in the cache,
    governor open) sends exactly one request, whatever comes back.  When
    the response has a first candidate whose text can be read, empty or
    not, the trimmed text cut to [MAX_SUGGESTION_LENGTH] is returned, the
    request is counted and, with caching on, the text is stored under the
    key of the input.  When the request is rejected, or the response has
    no first candidate, or reading its text throws, nothing is returned
    and neither the disk nor the books change. *)
Theorem readable_text_is_taken_empty_or_not clock remote userInput s d :
  Config.ENABLE_SUGGESTIONS cfg = true ->
  Config.MIN_INPUT_LENGTH cfg <= String.length (trim userInput) ->
  (fst (CacheManager.get cfg (Service.now_get clock) userInput
          (OptimizedService.cacheManager s)) = None \/
   fst (CacheManager.get cfg (Service.now_get clock) userInput
          (OptimizedService.cacheManager s)) = Some EmptyString) ->
  CacheManager.canMakeRequest cfg (Service.now_gate clock)
    (OptimizedService.cacheManager s) = true ->
  let answer :=
    remote (OptimizedService.prompt cfg userInput) 0 (OptimizedService.apiKey s) in
  exists result s' d',
    OptimizedService.getCommandSuggestion cfg clock remote userInput s d
      = (result, s', d', [OptimizedService.post s]) /\
    (forall r c txt,
        answer = Return r ->
        Service.firstCandidate r = Some c ->
        Service.candidateText c = Return txt ->
        result = Some (substring0 (Config.MAX_SUGGESTION_LENGTH cfg) (trim txt)) /\
        CacheManager.totalRequests (CacheManager.usageStats (OptimizedService.cacheManager s'))
          = S (CacheManager.totalRequests
                 (CacheManager.usageStats (OptimizedService.cacheManager s))) /\
        CacheManager.lastRequestTime (OptimizedService.cacheManager s')
          = Service.now_record clock /\
        (Config.ENABLE_CACHE cfg = true ->
         JSMap.get (CacheManager.getCacheKey userInput)
           (CacheManager.cache (OptimizedService.cacheManager s'))
         = Some {| CacheManager.suggestion :=
                     substring0 (Config.MAX_SUGGESTION_LENGTH cfg) (trim txt);
                   CacheManager.timestamp := Service.now_set clock |})) /\
    ((exists e, answer = Throw e) \/
     (exists r, answer = Return r /\
                (Service.firstCandidate r = None \/
                 exists c e, Service.firstCandidate r = Some c /\
                             Service.candidateText c = Throw e)) ->
     result = None /\ d' = d /\
     Scenario.same_books (OptimizedService.cacheManager s) (OptimizedService.cacheManager s')).
Proof.
  intros Hon Hlen Hmiss Hgate answer.
  rewrite (optimized_dispatch clock remote userInput s d Hon Hlen Hmiss Hgate).
  pose proof (same_books_get cfg (Service.now_get clock) userInput
                (OptimizedService.cacheManager s)) as Hbooks.
  fold answer. destruct answer as [ r | e ].
  - destruct (Service.firstCandidate r) as [ c | ] eqn:Efirst.
    + destruct (Service.candidateText c) as [ txt | e ] eqn:Etext.
      * cbv zeta. do 3 eexists. split; [ reflexivity | ]. split.
        -- intros r0 c0 txt0 Hr0 Hc0 Ht0. injection Hr0 as <-. rewrite Efirst in Hc0.
           injection Hc0 as <-. rewrite Etext in Ht0. injection Ht0 as <-.
           split; [ reflexivity | ].
           unfold CacheManager.recordRequest.
           cbn [fst snd OptimizedService.cacheManager OptimizedService.with_cacheManager
                CacheManager.usageStats CacheManager.totalRequests
                CacheManager.lastRequestTime CacheManager.cache].
           split; [ | split; [ reflexivity | ] ].
           ++ f_equal. destruct Hbooks as (_ & _ & Htot & _). rewrite <- Htot.
              unfold CacheManager.set. destruct (negb (Config.ENABLE_CACHE cfg)); reflexivity.
           ++ intro Hen. apply set_stores_entry. exact Hen.
        -- intros [ [e He] | (r0 & Hr0 & [ Hnone | (c0 & e & Hc0 & He) ]) ];
             [ discriminate | injection Hr0 as <-; congruence | ].
           injection Hr0 as <-. rewrite Efirst in Hc0. injection Hc0 as <-. congruence.
      * do 3 eexists. split; [ reflexivity | ]. split.
        -- intros r0 c0 txt0 Hr0 Hc0 Ht0. injection Hr0 as <-. rewrite Efirst in Hc0.
           injection Hc0 as <-. congruence.
        -- intros _. split; [ reflexivity | ]. split; [ reflexivity | exact Hbooks ].
    + do 3 eexists. split; [ reflexivity | ]. split.
      * intros r0 c0 txt0 Hr0 Hc0. injection Hr0 as <-. congruence.
      * intros _. split; [ reflexivity | ]. split; [ reflexivity | exact Hbooks ].
  - do 3 eexists. split; [ reflexivity | ]. split.
    + intros r0 c0 txt0 Hr0. discriminate.
    + intros _. split; [ reflexivity | ]. split; [ reflexivity | exact Hbooks ].
Qed.

(** What is known of a request that sent something and returned a
    suggestion. *)
Lemma answered_from_endpoint clock remote userInput s d x s' d' sent :
  OptimizedService.getCommandSuggestion cfg clock remote userInput s d
    = (Some x, s', d', sent) ->
  sent <> [] ->
  Config.ENABLE_SUGGESTIONS cfg = true /\
  Config.MIN_INPUT_LENGTH cfg <= String.length (trim userInput) /\
  sent = [OptimizedService.post s] /\
  OptimizedService.contextManager s' = OptimizedService.contextManager s /\
  OptimizedService.apiKey s' = OptimizedService.apiKey s /\
  exists txt tokens cm1,
    Scenario.same_books (OptimizedService.cacheManager s) cm1 /\
    x = substring0 (Config.MAX_SUGGESTION_LENGTH cfg) (trim txt) /\
    (OptimizedService.cacheManager s', d')
    = CacheManager.recordRequest (Service.now_record clock) tokens
        (fst (CacheManager.set cfg (Service.now_set clock) userInput x cm1 d))
        (snd (CacheManager.set cfg (Service.now_set clock) userInput x cm1 d)).
Proof.
  unfold OptimizedService.getCommandSuggestion.
  destruct (Config.ENABLE_SUGGESTIONS cfg); [ | intro H; injection H as _ _ _ <-; congruence ].
  cbn [negb].
  destruct (String.length (trim userInput) <? Config.MIN_INPUT_LENGTH cfg) eqn:Elen;
    [ intro H; injection H as _ _ _ <-; congruence | ].
  apply Nat.ltb_ge in Elen.
  pose proof (same_books_get cfg (Service.now_get clock) userInput
                (OptimizedService.cacheManager s)) as Hbooks.
  destruct (CacheManager.get cfg (Service.now_get clock) userInput
              (OptimizedService.cacheManager s)) as [cached cm1].
  cbn [snd] in Hbooks.
  destruct cached as [ [ | c r ] | ];
    try (intro H; injection H as _ _ _ <-; congruence);
    (destruct (negb (CacheManager.canMakeRequest cfg (Service.now_gate clock) cm1));
     [ intro H; injection H as _ _ _ <-; congruence | ]);
    cbn [OptimizedService.apiKey OptimizedService.with_cacheManager
         OptimizedService.cacheManager];
    (destruct (remote (OptimizedService.prompt cfg userInput) 0 (OptimizedService.apiKey s))
       as [ response | e ]; [ | discriminate ]);
    (destruct (Service.firstCandidate response) as [ candidate | ]; [ | discriminate ]);
    (destruct (Service.candidateText candidate) as [ txt | e ]; [ | discriminate ]);
    (destruct (CacheManager.set cfg (Service.now_set clock) userInput
                 (substring0 (Config.MAX_SUGGESTION_LENGTH cfg) (trim txt)) cm1 d)
       as [cm2 d2] eqn:Eset);
    (destruct (CacheManager.recordRequest (Service.now_record clock)
                 (Service.tokenCountOf response) cm2 d2) as [cm3 d3] eqn:Erec);
    intros H Hsent; injection H as <- <- <- <-;
    (split; [ reflexivity | ]); (split; [ exact Elen | ]);
    (split; [ reflexivity | ]); (split; [ reflexivity | ]); (split; [ reflexivity | ]);
    exists txt, (Service.tokenCountOf response), cm1;
    (split; [ exact Hbooks | ]); (split; [ reflexivity | ]);
    rewrite Eset; cbn [fst snd OptimizedService.cacheManager
                       OptimizedService.with_cacheManager];
    rewrite Erec; reflexivity.
Qed.

(** X14.  A suggestion that came from the endpoint is at most
    [MAX_SUGGESTION_LENGTH] characters long and does not begin with white
    space; it took one request, which was counted once, against the total
    and against the day, and the time of the last request is the reading
    taken when it was recorded. *)
Theorem endpoint_answer_is_cut_and_counted clock remote userInput s d x s' d' sent :
  OptimizedService.getCommandSuggestion cfg clock remote userInput s d
    = (Some x, s', d', sent) ->
  sent <> [] ->
  String.length x <= Config.MAX_SUGGESTION_LENGTH cfg /\
  Scenario.starts_with_whitespace x = false /\
  sent = [OptimizedService.post s] /\
  CacheManager.totalRequests (CacheManager.usageStats (OptimizedService.cacheManager s'))
    = S (CacheManager.totalRequests
           (CacheManager.usageStats (OptimizedService.cacheManager s))) /\
  CacheManager.dailyRequests (CacheManager.usageStats (OptimizedService.cacheManager s'))
    = S (CacheManager.dailyRequests
           (CacheManager.usageStats (OptimizedService.cacheManager s))) /\
  CacheManager.lastRequestTime (OptimizedService.cacheManager s') = Service.now_record clock.
Proof.
  intros Hrun Hsent.
  destruct (answered_from_endpoint _ _ _ _ _ _ _ _ _ Hrun Hsent)
    as (_ & _ & Hone & _ & _ & txt & tokens & cm1 & Hbooks & -> & Hrec).
  destruct Hbooks as (_ & _ & Htotal & Hdaily & _).
  split; [ apply length_substring0 | ].
  split; [ apply substring0_start, trim_start | ].
  split; [ exact Hone | ].
  unfold CacheManager.recordRequest in Hrec. injection Hrec as -> _.
  cbn [CacheManager.usageStats CacheManager.totalRequests CacheManager.dailyRequests
       CacheManager.lastRequestTime].
  unfold CacheManager.set. destruct (negb (Config.ENABLE_CACHE cfg));
    cbn [fst CacheManager.usageStats CacheManager.with_cache];
    rewrite Htotal, Hdaily; repeat split.
Qed.


End Answered.

(** ** The single-key service and the rotating one *)

Section SingleKey.
Import JS.
Variable cfg : Config.t.
Variable contextualSuggestion :
  string -> ContextManager.t
  -> Completion ContextManager.ContextualResult * ContextManager.t.



End SingleKey.

(** ** Direct matches and the shape of the input *)

Section PaddedInput.
Import JS ContextManager.
Local Open Scope string_scope.

Lemma commands_start_clean (ty : DirectoryType) :
  forallb (fun cmd => negb (Scenario.starts_with_whitespace cmd)) (commands ty) = true.
Proof. destruct ty; reflexivity. Qed.

Lemma starts_with_whitespace_lower (x : string) :
  Scenario.starts_with_whitespace (toLowerCase x) = Scenario.starts_with_whitespace x.
Proof. destruct x as [ | c x ]; simpl; [ reflexivity | apply whitespace_lower ]. Qed.

Lemma prefix_same_start (p x : string) :
  String.prefix p x = true ->
  Scenario.starts_with_whitespace p = true ->
  Scenario.starts_with_whitespace x = true.
Proof.
  destruct p as [ | a p ]; [ discriminate 2 | ].
  destruct x as [ | b x ]; simpl; [ discriminate | ].
  destruct (ascii_dec a b) as [ <- | ]; [ auto | discriminate ].
Qed.

(** X17.  An input that begins with white space has no direct match,
    whatever the directory holds: the matcher compares the input as
    typed, although the length test and the cache key use the trimmed
    input.  Such a request is answered by the prompt, or not at all. *)
Theorem padded_input_has_no_direct_match config probe userInput cm :
  Scenario.starts_with_whitespace userInput = true ->
  (forall snapshot, matchingCommands userInput snapshot = []) /\
  (forall cmd,
      fst (getContextualSuggestion config probe userInput cm) <> Return (Direct cmd)) /\
  CacheManager.getCacheKey userInput = CacheManager.getCacheKey (trim userInput).
Proof.
  intro Hpad.
  assert (forall snapshot, matchingCommands userInput snapshot = []) as Hnone.
  { intro snapshot. unfold matchingCommands, getRelevantCommands.
    pose proof (commands_start_clean (getDirectoryType snapshot)) as Hclean.
    induction (commands (getDirectoryType snapshot)) as [ | cmd l IH ];
      [ reflexivity | ].
    cbn [forallb] in Hclean. apply andb_true_iff in Hclean as [Hcmd Hl].
    cbn [filter].
    destruct (startsWith (toLowerCase cmd) (toLowerCase userInput)) eqn:E;
      [ | exact (IH Hl) ].
    unfold startsWith in E. apply prefix_same_start in E.
    - rewrite starts_with_whitespace_lower in E. rewrite E in Hcmd. discriminate.
    - rewrite starts_with_whitespace_lower. exact Hpad. }
  split; [ exact Hnone | ]. split.
  - intro cmd. unfold getContextualSuggestion. rewrite Hnone.
    destruct (buildContextPrompt config userInput (updateContext probe cm)); discriminate.
  - unfold CacheManager.getCacheKey. rewrite trim_idempotent. reflexivity.
Qed.

End PaddedInput.

(** ** The line editor *)

Section Editor.
Import JS Terminal.
Local Open Scope string_scope.
Local Open Scope nat_scope.

Lemma length_substring0_exact (n : nat) (x : string) :
  String.length (substring0 n x) = Nat.min n (String.length x).
Proof.
  unfold substring0. revert n.
  induction x as [ | c x IH ]; intros [ | n ]; simpl; try reflexivity.
  rewrite IH. reflexivity.
Qed.

Lemma length_substringFrom (n : nat) (x : string) :
  String.length (substringFrom n x) = String.length x - n.
Proof.
  revert n. induction x as [ | c x IH ]; intros [ | n ]; simpl; try reflexivity.
  apply IH.
Qed.

Lemma substring0_app_exact (a b : string) : substring0 (String.length a) (a ++ b) = a.
Proof.
  unfold substring0. induction a as [ | c a IH ]; simpl.
  - destruct b; reflexivity.
  - rewrite IH. reflexivity.
Qed.

Lemma substringFrom_app (a b : string) (n : nat) :
  substringFrom (String.length a + n) (a ++ b) = substringFrom n b.
Proof. induction a as [ | c a IH ]; simpl; [ reflexivity | exact IH ]. Qed.

Lemma substring0_within (n : nat) (x : string) :
  n <= String.length x -> String.length (substring0 n x) = n.
Proof. intro H. rewrite length_substring0_exact. lia. Qed.

Lemma prefix_split (p x : string) :
  String.prefix p x = true -> x = p ++ substringFrom (String.length p) x.
Proof.
  revert x. induction p as [ | a p IH ]; intros x H; [ reflexivity | ].
  destruct x as [ | b x ]; [ discriminate | ].
  simpl in H. destruct (ascii_dec a b) as [ <- | ]; [ | discriminate ].
  simpl. f_equal. apply IH. exact H.
Qed.




(** *** The cursor and the timer *)

Lemma requestSuggestion_tidy st tm :
  Scenario.tidy st tm ->
  Scenario.tidy (fst (requestSuggestion st tm)) (snd (requestSuggestion st tm)) /\
  currentInput (fst (requestSuggestion st tm)) = currentInput st /\
  cursorPosition (fst (requestSuggestion st tm)) = cursorPosition st.
Proof.
  intros [Hcur Htimer]. unfold requestSuggestion, setTimeout. cbn [fst snd].
  split; [ | split; reflexivity ].
  split; [ exact Hcur | ]. right.
  cbn [pending suggestionTimeout with_timeout].
  destruct Htimer as [Hnone | (handle & Hone & Hlast)].
  - destruct (suggestionTimeout st) as [ old | ].
    + unfold clearTimeout. cbn [pending next]. rewrite Hnone. simpl.
      eexists. split; reflexivity.
    + rewrite Hnone. eexists. split; reflexivity.
  - rewrite Hlast. unfold clearTimeout. cbn [pending next]. rewrite Hone.
    cbn [List.remove]. destruct (Nat.eq_dec handle handle) as [ _ | Hne ];
      [ | contradiction ].
    eexists. split; reflexivity.
Qed.

Lemma tidy_line input cursor st tm :
  Scenario.tidy st tm ->
  cursor <= String.length input ->
  Scenario.tidy (with_line input cursor st) tm.
Proof. intros [_ Htimer] Hcur. split; [ exact Hcur | exact Htimer ]. Qed.

Lemma tidy_suggestion sugg st tm :
  Scenario.tidy st tm -> Scenario.tidy (with_suggestion sugg st) tm.
Proof. intros [Hcur Htimer]. split; [ exact Hcur | exact Htimer ]. Qed.

Lemma tidy_processing b st tm :
  Scenario.tidy st tm -> Scenario.tidy (with_processing b st) tm.
Proof. intros [Hcur Htimer]. split; [ exact Hcur | exact Htimer ]. Qed.

Lemma addCharacter_tidy c rest st tm :
  Scenario.tidy st tm ->
  Scenario.tidy (fst (fst (addCharacter (String c rest) st tm)))
                (snd (fst (addCharacter (String c rest) st tm))).
Proof.
  intro H. unfold addCharacter.
  match goal with
  | |- context [requestSuggestion ?st1 tm] =>
      pose proof (requestSuggestion_tidy st1 tm) as Hreq;
      destruct (requestSuggestion st1 tm) as [st2 tm2]
  end.
  cbn [fst snd] in *. apply Hreq. apply tidy_line; [ exact H | ].
  destruct H as [Hcur _].
  rewrite !length_app_string, substring0_within, length_substringFrom by exact Hcur.
  simpl. lia.
Qed.

Lemma handleBackspace_tidy st tm :
  Scenario.tidy st tm ->
  Scenario.tidy (fst (fst (handleBackspace st tm))) (snd (fst (handleBackspace st tm))).
Proof.
  intro H. unfold handleBackspace.
  destruct (0 <? cursorPosition st) eqn:E; [ | exact H ].
  apply Nat.ltb_lt in E.
  match goal with
  | |- context [requestSuggestion ?st1 tm] =>
      pose proof (requestSuggestion_tidy st1 tm) as Hreq;
      destruct (requestSuggestion st1 tm) as [st2 tm2]
  end.
  cbn [fst snd] in *. apply Hreq. apply tidy_line; [ exact H | ].
  destruct H as [Hcur _].
  rewrite length_app_string, substring0_within, length_substringFrom by lia.
  lia.
Qed.

Lemma handleArrowKeys_tidy key st tm :
  Scenario.tidy st tm -> Scenario.tidy (fst (handleArrowKeys key st)) tm.
Proof.
  intro H. unfold handleArrowKeys.
  destruct (String.eqb key (escape "[A")); [ exact H | ].
  destruct (String.eqb key (escape "[B")); [ exact H | ].
  destruct (String.eqb key (escape "[C")).
  - destruct (cursorPosition st <? String.length (currentInput st)) eqn:E; [ | exact H ].
    apply Nat.ltb_lt in E. cbn [fst]. apply tidy_line; [ exact H | lia ].
  - destruct (String.eqb key (escape "[D")); [ | exact H ].
    destruct (0 <? cursorPosition st) eqn:E; [ | exact H ].
    cbn [fst]. apply tidy_line; [ exact H | ]. destruct H as [Hcur _]. lia.
Qed.

Lemma acceptSuggestion_tidy st tm :
  Scenario.tidy st tm -> Scenario.tidy (fst (acceptSuggestion st)) tm.
Proof.
  intro H. unfold acceptSuggestion.
  destruct (suggestion st) as [ | c r ]; [ exact H | ].
  cbn [fst]. apply tidy_suggestion, tidy_line; [ exact H | apply Nat.le_refl ].
Qed.

Lemma executeCommand_tidy st tm st1 out :
  Scenario.tidy st tm -> executeCommand st = Some (st1, out) -> Scenario.tidy st1 tm.
Proof.
  intros H. unfold executeCommand, resetInput.
  assert (Scenario.tidy (with_suggestion "" (with_line "" 0 st)) tm) as Hreset
    by (apply tidy_suggestion, tidy_line; [ exact H | apply Nat.le_refl ]).
  destruct (String.eqb (trim (currentInput st)) "");
    [ intro E; injection E as <- _; exact Hreset | ].
  destruct (String.eqb (toLowerCase (trim (currentInput st))) "exit"
            || String.eqb (toLowerCase (trim (currentInput st))) "quit");
    [ discriminate | ].
  destruct (String.eqb (toLowerCase (trim (currentInput st))) "help");
    [ intro E; injection E as <- _; exact Hreset | ].
  destruct (String.eqb (toLowerCase (trim (currentInput st))) "clear");
    [ intro E; injection E as <- _; exact Hreset | ].
  destruct (String.eqb (toLowerCase (trim (currentInput st))) "stats");
    [ intro E; injection E as <- _; exact Hreset | ].
  destruct (String.eqb (toLowerCase (trim (currentInput st))) "cache");
    intro E; injection E as <- _; exact Hreset.
Qed.

Lemma handleKeyPress_tidy key st tm st1 tm1 out :
  Scenario.tidy st tm ->
  handleKeyPress key st tm = Some (st1, tm1, out) ->
  Scenario.tidy st1 tm1 /\ forall input, ~ In (Ask input) out.
Proof.
  intros H. unfold handleKeyPress.
  destruct key as [ | c rest ]; cbn [charCodeAt0];
    [ intro E; injection E as <- <- <-; split; [ exact H | intros input [] ] | ].
  destruct (nat_of_ascii c =? 3); [ discriminate | ].
  destruct (nat_of_ascii c =? 13).
  { destruct (executeCommand st) as [ [st2 out2] | ] eqn:Eexec; [ | discriminate ].
    intro E; injection E as <- <- <-.
    split; [ exact (executeCommand_tidy _ _ _ _ H Eexec) | ].
    intros input Hin. revert Eexec. unfold executeCommand, resetInput.
    repeat match goal with
           | |- context [if ?b then _ else _] => destruct b
           end;
      intro E; try discriminate; injection E as _ <-;
      cbn [In] in Hin; intuition discriminate. }
  destruct (nat_of_ascii c =? 127).
  { pose proof (handleBackspace_tidy st tm H) as Hb.
    intro E.
    assert (handleBackspace st tm = (st1, tm1, out)) as E' by congruence.
    rewrite E' in Hb. cbn [fst snd] in Hb.
    split; [ exact Hb | ]. intros input Hin. revert E'. unfold handleBackspace.
    destruct (0 <? cursorPosition st);
      [ destruct (requestSuggestion _ tm) | ];
      intro E'; injection E' as _ _ <-; cbn [In] in Hin; intuition discriminate. }
  destruct (nat_of_ascii c =? 9).
  { pose proof (acceptSuggestion_tidy st tm H) as Ha.
    destruct (acceptSuggestion st) as [st2 out2] eqn:Eacc.
    intro E; injection E as <- <- <-. cbn [fst] in Ha.
    split; [ exact Ha | ]. intros input Hin. revert Eacc. unfold acceptSuggestion.
    destruct (suggestion st); intro E; injection E as _ <-;
      cbn [In] in Hin; intuition discriminate. }
  destruct ((nat_of_ascii c =? 27) && (1 <? String.length (String c rest))).
  { pose proof (handleArrowKeys_tidy (String c rest) st tm H) as Ha.
    destruct (handleArrowKeys (String c rest) st) as [st2 out2] eqn:Earr.
    intro E; injection E as <- <- <-. cbn [fst] in Ha.
    split; [ exact Ha | ]. intros input Hin. revert Earr. unfold handleArrowKeys.
    repeat match goal with
           | |- context [if ?b then _ else _] => destruct b
           end;
      intro E; injection E as _ <-; cbn [In] in Hin; intuition discriminate. }
  destruct ((32 <=? nat_of_ascii c) && (nat_of_ascii c <=? 126)).
  { pose proof (addCharacter_tidy c rest st tm H) as Ha.
    intro E.
    assert (addCharacter (String c rest) st tm = (st1, tm1, out)) as E' by congruence.
    rewrite E' in Ha. cbn [fst snd] in Ha.
    split; [ exact Ha | ]. intros input Hin. revert E'. unfold addCharacter.
    destruct (requestSuggestion _ tm).
    intro E'; injection E' as _ _ <-; cbn [In] in Hin; intuition discriminate. }
  intro E; injection E as <- <- <-. split; [ exact H | intros input [] ].
Qed.

Section WithConfig.
Variable cfg : Config.t.

Lemma turn_tidy e st tm st1 tm1 out :
  Scenario.tidy st tm ->
  Scenario.turn cfg e st tm = Some (st1, tm1, out) ->
  Scenario.tidy st1 tm1 /\ Forall (Scenario.worth_asking cfg) out.
Proof.
  intros H. destruct e as [ key | handle | result ]; cbn [Scenario.turn].
  - intro E. destruct (handleKeyPress_tidy _ _ _ _ _ _ H E) as [Ht Hquiet].
    split; [ exact Ht | ]. apply Forall_forall. intros [ ] Hin; try exact I.
    exfalso. exact (Hquiet _ Hin).
  - destruct (existsb (Nat.eqb handle) (pending tm)) eqn:Elive.
    + unfold suggestionDue.
      assert (Scenario.tidy st (clearTimeout handle tm)) as Hfired.
      { destruct H as [Hcur Htimer]. split; [ exact Hcur | ]. left.
        unfold clearTimeout. cbn [pending].
        destruct Htimer as [Hnone | (h & Hone & _)].
        - rewrite Hnone in Elive. discriminate.
        - rewrite Hone in *. cbn [existsb] in Elive. rewrite orb_false_r in Elive.
          apply Nat.eqb_eq in Elive. subst h. cbn [List.remove].
          destruct (Nat.eq_dec handle handle); [ reflexivity | contradiction ]. }
      destruct (String.length (trim (currentInput st)) <? Config.MIN_INPUT_LENGTH cfg)
        eqn:Elen; intro E; injection E as <- <- <-.
      * split; [ apply tidy_suggestion; exact Hfired | ].
        repeat constructor.
      * split; [ apply tidy_processing; exact Hfired | ].
        apply Nat.ltb_ge in Elen. repeat constructor. exact Elen.
    + intro E; injection E as <- <- <-. split; [ exact H | constructor ].
  - unfold suggestionArrived. intro E; injection E as <- <- <-.
    split; [ | repeat constructor ].
    destruct result as [ [ [ | c r ] | ] | e ];
      try (apply tidy_suggestion, tidy_processing; exact H).
    match goal with
    | |- context [if ?b then _ else _] => destruct b
    end;
      apply tidy_suggestion, tidy_processing; exact H.
Qed.

Lemma session_tidy events :
  forall st tm,
    Scenario.tidy st tm ->
    match Scenario.session cfg events st tm with
    | Some (st1, tm1, out) => Scenario.tidy st1 tm1 /\ Forall (Scenario.worth_asking cfg) out
    | None => True
    end.
Proof.
  induction events as [ | e r IH ]; intros st tm H; cbn [Scenario.session].
  - split; [ exact H | constructor ].
  - destruct (Scenario.turn cfg e st tm) as [ [[st1 tm1] out] | ] eqn:Eturn; [ | exact I ].
    destruct (turn_tidy _ _ _ _ _ _ H Eturn) as [H1 Hout].
    specialize (IH st1 tm1 H1).
    destruct (Scenario.session cfg r st1 tm1) as [ [[st2 tm2] later] | ]; [ | exact I ].
    destruct IH as [H2 Hlater]. split; [ exact H2 | ].
    apply Forall_app. split; assumption.
Qed.

(** X18.  Whatever arrives at a freshly built terminal (chunks of input
    of any length, timers firing, answers of the service, in any order)
    and for as long as the process runs: the cursor stays inside the
    line; at most one suggestion timer can still fire, and it is the last
    one set, so that each edit cancels the request scheduled by the one
    before; and the service is only ever asked about an input whose
    trimmed length reaches [MIN_INPUT_LENGTH]. *)
Theorem session_keeps_the_editor_tidy events :
  match Scenario.session cfg events Terminal.create Scenario.no_timers with
  | Some (st, tm, out) =>
      cursorPosition st <= String.length (currentInput st) /\
      (pending tm = [] \/
       exists handle, pending tm = [handle] /\ suggestionTimeout st = Some handle) /\
      Forall (Scenario.worth_asking cfg) out
  | None => True
  end.
Proof.
  pose proof (session_tidy events Terminal.create Scenario.no_timers) as H.
  destruct (Scenario.session cfg events Terminal.create Scenario.no_timers)
    as [ [[st tm] out] | ]; [ | exact I ].
  destruct H as [[Hcur Htimer] Hout].
  - split; [ apply Nat.le_refl | left; reflexivity ].
  - split; [ exact Hcur | ]. split; [ exact Htimer | exact Hout ].
Qed.

End WithConfig.

(** *** Editing *)

(** X19.  With the cursor inside the line, a chunk of input followed by
    a backspace leaves the cursor where it was and the line as it was
    with the chunk's tail, all but its first character, inserted at the
    cursor.  For a single typed character that is the line as it was; of
    a longer chunk (pasted text) the backspace removes the first
    character, not the last, since the cursor moved on by one place
    only. *)
Theorem backspace_after_a_chunk c rest st tm :
  cursorPosition st <= String.length (currentInput st) ->
  let typed := addCharacter (String c rest) st tm in
  let erased := handleBackspace (fst (fst typed)) (snd (fst typed)) in
  currentInput (fst (fst erased))
  = substring0 (cursorPosition st) (currentInput st)
    ++ rest ++ substringFrom (cursorPosition st) (currentInput st) /\
  cursorPosition (fst (fst erased)) = cursorPosition st /\
  (rest = "" -> currentInput (fst (fst erased)) = currentInput st) /\
  suggestion (fst (fst erased)) = suggestion st.
Proof.
  intro Hcur. cbv zeta.
  assert (forall st0 tm0,
            fst (requestSuggestion st0 tm0) = with_timeout (Some (next
              (match suggestionTimeout st0 with
               | Some handle => clearTimeout handle tm0
               | None => tm0
               end))) st0) as Hreq by reflexivity.
  unfold addCharacter.
  destruct (requestSuggestion
              (with_line
                 (substring0 (cursorPosition st) (currentInput st)
                  ++ String c rest ++ substringFrom (cursorPosition st) (currentInput st))
                 (cursorPosition st + 1) st) tm) as [st2 tm2] eqn:E2.
  pose proof (Hreq (with_line
                 (substring0 (cursorPosition st) (currentInput st)
                  ++ String c rest ++ substringFrom (cursorPosition st) (currentInput st))
                 (cursorPosition st + 1) st) tm) as H2.
  rewrite E2 in H2. cbn [fst snd] in *. subst st2.
  unfold handleBackspace. cbn [cursorPosition currentInput with_timeout with_line].
  replace (0 <? cursorPosition st + 1) with true by (symmetry; apply Nat.ltb_lt; lia).
  match goal with
  | |- context [requestSuggestion ?st3 tm2] =>
      pose proof (Hreq st3 tm2) as H3; destruct (requestSuggestion st3 tm2) as [st4 tm4]
  end.
  cbn [fst snd] in *. subst st4.
  cbn [cursorPosition currentInput suggestion with_timeout with_line].
  replace (cursorPosition st + 1 - 1) with (cursorPosition st) by lia.
  assert (String.length (substring0 (cursorPosition st) (currentInput st))
          = cursorPosition st) as Hlen by (apply substring0_within; exact Hcur).
  assert (substring0 (cursorPosition st)
            (substring0 (cursorPosition st) (currentInput st)
             ++ String c rest ++ substringFrom (cursorPosition st) (currentInput st))
          = substring0 (cursorPosition st) (currentInput st)) as Hhead.
  { rewrite <- Hlen at 1. apply substring0_app_exact. }
  assert (substringFrom (cursorPosition st + 1)
            (substring0 (cursorPosition st) (currentInput st)
             ++ String c rest ++ substringFrom (cursorPosition st) (currentInput st))
          = rest ++ substringFrom (cursorPosition st) (currentInput st)) as Htail.
  { rewrite <- Hlen at 1. rewrite substringFrom_app. reflexivity. }
  rewrite Hhead, Htail.
  split; [ reflexivity | ]. split; [ reflexivity | ]. split; [ | reflexivity ].
  intros ->. cbn [append].
  rewrite <- Hlen at 2.
  symmetry. etransitivity; [ | ].
  - apply (prefix_split (substring0 (cursorPosition st) (currentInput st))).
    clear. unfold substring0. generalize (cursorPosition st) as n.
    induction (currentInput st) as [ | a x IH ]; intros [ | n ]; simpl; try reflexivity.
    destruct (ascii_dec a a); [ apply IH | contradiction ].
  - rewrite Hlen. reflexivity.
Qed.

(** *** The grey remainder *)


End Editor.

(** ** The further properties at concrete inputs *)

Lemma unanswered_request_leaves_no_trace_witness :
  let out :=
    Service.getCommandSuggestion_linked Config.shipped Harness.git_checkout
      (Harness.clock_at 1000000) (Harness.flaky 0 (Harness.answer "docker ps -a" 42))
      "docker ps" Harness.three_keys Harness.blank_disk in
  fst (fst (fst out)) = None /\
  snd out = [] /\
  snd (fst out) = Harness.blank_disk /\
  Scenario.same_books (Service.cacheManager Harness.three_keys)
    (Service.cacheManager (snd (fst (fst out)))).
Proof.
  cbv zeta.
  split; [ vm_compute; reflexivity | ]. split; [ vm_compute; reflexivity | ].
  apply (unanswered_request_leaves_no_trace Config.shipped
           (ContextManager.getContextualSuggestion ContextManager.module_config
              Harness.git_checkout)
           (Harness.clock_at 1000000) (Harness.flaky 0 (Harness.answer "docker ps -a" 42))
           "docker ps" Harness.three_keys Harness.blank_disk).
  left. vm_compute. reflexivity.
Defined.

Lemma readable_text_is_taken_empty_or_not_witness :
  exists s' d',
    OptimizedService.getCommandSuggestion Config.shipped (Harness.clock_at 1000000)
      (Harness.flaky 0 (Harness.answer "" 42)) "docker ps"
      Harness.src_service Harness.blank_disk
    = (Some EmptyString, s', d', [OptimizedService.post Harness.src_service]) /\
    CacheManager.totalRequests (CacheManager.usageStats (OptimizedService.cacheManager s'))
      = 1 /\
    JSMap.get "docker ps" (CacheManager.cache (OptimizedService.cacheManager s'))
      = Some {| CacheManager.suggestion := EmptyString;
                CacheManager.timestamp := 1000900 |}.
Proof.
  assert (Config.MIN_INPUT_LENGTH Config.shipped <= String.length (JS.trim "docker ps"))
    as Hlen by (apply Nat.leb_le; reflexivity).
  destruct (readable_text_is_taken_empty_or_not Config.shipped (Harness.clock_at 1000000)
              (Harness.flaky 0 (Harness.answer "" 42)) "docker ps"
              Harness.src_service Harness.blank_disk
              eq_refl Hlen (or_introl eq_refl) eq_refl)
    as (result & s' & d' & Hrun & Htaken & _).
  destruct (Htaken _ _ _ eq_refl eq_refl eq_refl) as (Hres & Htotal & _ & Hheld).
  exists s', d'. rewrite Hrun, Hres. split; [ reflexivity | ].
  split; [ exact Htotal | ]. exact (Hheld eq_refl).
Defined.

Lemma endpoint_answer_is_cut_and_counted_witness :
  let out :=
    OptimizedService.getCommandSuggestion Config.shipped (Harness.clock_at 1000000)
      (Harness.flaky 0
         (Harness.answer "   docker ps --all --no-trunc --format table --latest  " 42))
      "docker ps" Harness.src_service Harness.blank_disk in
  fst (fst (fst out)) = Some "docker ps --all --no-trunc --f" /\
  String.length "docker ps --all --no-trunc --f"
  <= Config.MAX_SUGGESTION_LENGTH Config.shipped /\
  CacheManager.dailyRequests
    (CacheManager.usageStats (OptimizedService.cacheManager (snd (fst (fst out))))) = 1 /\
  CacheManager.lastRequestTime (OptimizedService.cacheManager (snd (fst (fst out))))
  = 1000901%Z.
Proof.
  cbv zeta.
  pose (out :=
    OptimizedService.getCommandSuggestion Config.shipped (Harness.clock_at 1000000)
      (Harness.flaky 0
         (Harness.answer "   docker ps --all --no-trunc --format table --latest  " 42))
      "docker ps" Harness.src_service Harness.blank_disk).
  assert (out = (Some "docker ps --all --no-trunc --f", snd (fst (fst out)),
                 snd (fst out), snd out)) as Hrun
    by (vm_compute; reflexivity).
  assert (snd out <> []) as Hsent by (vm_compute; discriminate).
  destruct (endpoint_answer_is_cut_and_counted Config.shipped
              _ _ _ _ _ _ _ _ _ Hrun Hsent) as (Hlen & _ & _ & _ & Hdaily & Htime).
  split; [ vm_compute; reflexivity | ].
  split; [ exact Hlen | ]. split; [ exact Hdaily | exact Htime ].
Defined.



Lemma padded_input_has_no_direct_match_witness :
  Scenario.starts_with_whitespace " git" = true /\
  ContextManager.matchingCommands "git"
    (ContextManager.updateContext Harness.git_checkout (ContextManager.create "/home/dev"))
  = ["git status"; "git add ."; "git commit"; "git push"; "git pull"]%string /\
  ContextManager.matchingCommands " git"
    (ContextManager.updateContext Harness.git_checkout (ContextManager.create "/home/dev"))
  = [] /\
  CacheManager.getCacheKey " git" = CacheManager.getCacheKey "git".
Proof.
  split; [ reflexivity | ]. split; [ reflexivity | ].
  destruct (padded_input_has_no_direct_match ContextManager.module_config
              Harness.git_checkout " git" (ContextManager.create "/home/dev") eq_refl)
    as (Hnone & _ & Hkey).
  split; [ apply Hnone | exact Hkey ].
Defined.

Lemma backspace_after_a_chunk_witness :
  let st := Terminal.with_line "git sttus" 6 Terminal.create in
  let typed := Terminal.addCharacter "a" st Scenario.no_timers in
  let erased := Terminal.handleBackspace (fst (fst typed)) (snd (fst typed)) in
  Terminal.currentInput (fst (fst typed)) = "git status"%string /\
  Terminal.currentInput (fst (fst erased)) = "git sttus"%string /\
  Terminal.cursorPosition (fst (fst erased)) = 6.
Proof.
  cbv zeta. split; [ reflexivity | ].
  assert (Terminal.cursorPosition (Terminal.with_line "git sttus" 6 Terminal.create)
          <= String.length
               (Terminal.currentInput (Terminal.with_line "git sttus" 6 Terminal.create)))
    as Hcur by (simpl; lia).
  destruct (backspace_after_a_chunk "a"%char "" _ Scenario.no_timers Hcur)
    as (_ & Hpos & Hsame & _).
  split; [ exact (Hsame eq_refl) | exact Hpos ].
Defined.
